(** * Ozon seller bot: label pipeline, order monitor and access control

    A shallow embedding of [src/ozon_bot.py].  Python values are modelled as
    follows.

    - [str] is a list of Unicode code points ([list N]); literals are written
      as UTF-8 Rocq strings and decoded with [u].
    - [int] is [Z]; the [float] values returned by PIL's [textlength] are
      rationals ([Q]): only their order is used.
    - an image is its size together with its pixel lookup [getpixel].
    - a [set] is a [gset]; [None] results are [option].
    - calls on the Telegram and marketplace clients are recorded as a list
      of effects. *)

From Stdlib Require Import ZArith NArith List String Ascii QArith Qround Lia Lqa Bool.
From Stdlib Require Import DecimalString Sorted.
From Stdlib Require SpecFloat.
From stdpp Require Import gmap list.
Import ListNotations.

Local Open Scope Z_scope.

(* ===================================================================== *)
(** ** Python strings *)
(* ===================================================================== *)

Module PyStr.

Abbreviation pystr := (list N).

(** UTF-8 decoding, used only to write literals. *)
Definition utf8_step (st : nat * N * list N) (b : N) : nat * N * list N :=
  let '(pending, acc, out) := st in
  if (b <? 128)%N then (0%nat, 0%N, out ++ [b])
  else if (b <? 192)%N then
    let acc' := N.lor (N.shiftl acc 6) (N.land b 63) in
    match pending with
    | 1%nat => (0%nat, 0%N, out ++ [acc'])
    | _ => (Nat.pred pending, acc', out)
    end
  else if (b <? 224)%N then (1%nat, N.land b 31, out)
  else if (b <? 240)%N then (2%nat, N.land b 15, out)
  else (3%nat, N.land b 7, out).

Definition u (s : string) : pystr :=
  snd (fold_left utf8_step (map N_of_ascii (list_ascii_of_string s)) (0%nat, 0%N, [])).
Arguments u s%_string.

(** [len(s)] *)
Definition len (s : pystr) : Z := Z.of_nat (length s).

(** Truth value of a string: non-empty. *)
Definition truthy (s : pystr) : bool :=
  match s with [] => false | _ => true end.

Definition str_eqb (a b : pystr) : bool := bool_decide (a = b).

(** [str(n)] for an [int]. *)
Definition str_of_int (n : Z) : pystr :=
  u (NilZero.string_of_int (Z.to_int n)).

(** [str.isspace] on one code point: the Unicode white space set. *)
Definition isspace (c : N) : bool :=
  ((9 <=? c) && (c <=? 13) || (28 <=? c) && (c <=? 32)
   || (c =? 133) || (c =? 160) || (c =? 5760)
   || (8192 <=? c) && (c <=? 8202)
   || (c =? 8232) || (c =? 8233) || (c =? 8239) || (c =? 8287)
   || (c =? 12288))%N.

(** [\w] of [re] on one code point.  The embedding covers Basic Latin and
    the Cyrillic range U+0400..U+045F; symbols, punctuation and emoji are
    not word characters. *)
Definition is_word_char (c : N) : bool :=
  ((48 <=? c) && (c <=? 57) || (65 <=? c) && (c <=? 90)
   || (97 <=? c) && (c <=? 122) || (c =? 95)
   || (1024 <=? c) && (c <=? 1119))%N.

(** [str.lower] on one code point, same coverage. *)
Definition lower_char (c : N) : N :=
  if ((65 <=? c) && (c <=? 90))%N then (c + 32)%N
  else if ((1040 <=? c) && (c <=? 1071))%N then (c + 32)%N
  else if ((1024 <=? c) && (c <=? 1039))%N then (c + 80)%N
  else c.

Definition lower (s : pystr) : pystr := map lower_char s.

(** [s.startswith(p)] *)
Fixpoint startswith (s p : pystr) : bool :=
  match p, s with
  | [], _ => true
  | _ :: _, [] => false
  | c :: p', d :: s' => (c =? d)%N && startswith s' p'
  end.

(** [p in s] for strings. *)
Fixpoint contains (s p : pystr) : bool :=
  startswith s p ||
  match s with
  | [] => false
  | _ :: s' => contains s' p
  end.

(** [s.replace(old, '')]: every non-overlapping occurrence of [old], found
    left to right, is removed.  [fuel] counts the characters still to be
    copied or skipped. *)
Fixpoint remove_all_aux (fuel : nat) (s old : pystr) : pystr :=
  match fuel with
  | O => s
  | S fuel' =>
      match s with
      | [] => []
      | c :: s' =>
          if startswith s old
          then remove_all_aux fuel' (skipn (length old) s) old
          else c :: remove_all_aux fuel' s' old
      end
  end.

Definition replace_with_empty (s old : pystr) : pystr :=
  match old with
  | [] => s
  | _ => remove_all_aux (length s) s old
  end.

(** [s.split()]: maximal runs of non-space characters. *)
Fixpoint split_aux (s : pystr) (cur : pystr) : list pystr :=
  match s with
  | [] => if truthy cur then [cur] else []
  | c :: s' =>
      if isspace c
      then (if truthy cur then cur :: split_aux s' [] else split_aux s' [])
      else split_aux s' (cur ++ [c])
  end.

Definition split (s : pystr) : list pystr := split_aux s [].

(** [s.strip()] *)
Fixpoint lstrip (s : pystr) : pystr :=
  match s with
  | c :: s' => if isspace c then lstrip s' else s
  | [] => []
  end.

Definition strip (s : pystr) : pystr := rev (lstrip (rev (lstrip s))).

(** [s[:n]] *)
Definition slice_to (s : pystr) (n : Z) : pystr :=
  if n <? 0 then firstn (Z.to_nat (len s + n)) s else firstn (Z.to_nat n) s.

(** [sep.join(parts)] *)
Fixpoint join (sep : pystr) (parts : list pystr) : pystr :=
  match parts with
  | [] => []
  | [p] => p
  | p :: rest => p ++ sep ++ join sep rest
  end.

(** [s.split(sep)] for a one-character separator. *)
Fixpoint split_on_aux (sep : N) (s : pystr) (cur : pystr) : list pystr :=
  match s with
  | [] => [cur]
  | c :: s' =>
      if (c =? sep)%N then cur :: split_on_aux sep s' [] else split_on_aux sep s' (cur ++ [c])
  end.

Definition split_on (sep : N) (s : pystr) : list pystr := split_on_aux sep s [].

Definition is_ascii_digit (c : N) : bool := ((48 <=? c) && (c <=? 57))%N.

(** [s.isdigit()], for decimal digits of Basic Latin. *)
Definition isdigit (s : pystr) : bool := truthy s && forallb is_ascii_digit s.

(** The digits of an [int] literal: groups of digits separated by single
    underscores. *)
Fixpoint digits_value (acc : Z) (after_digit : bool) (s : pystr) : option Z :=
  match s with
  | [] => if after_digit then Some acc else None
  | c :: s' =>
      if is_ascii_digit c then digits_value (acc * 10 + (Z.of_N c - 48)) true s'
      else if (c =? 95)%N && after_digit then digits_value acc false s'
      else None
  end.

(** [int(s)]: [None] stands for [ValueError].  Surrounding white space, a
    sign and Basic Latin digits are accepted. *)
Definition int_of_str (s : pystr) : option Z :=
  match strip s with
  | 45%N :: r => option_map Z.opp (digits_value 0 false r)
  | 43%N :: r => digits_value 0 false r
  | r => digits_value 0 false r
  end.

(** [x in l] for a list of strings. *)
Definition in_list (x : pystr) (l : list pystr) : bool :=
  existsb (str_eqb x) l.

End PyStr.

Import PyStr.

(* ===================================================================== *)
(** ** Product description text *)
(* ===================================================================== *)

Module ProductText.

(** An order line as returned by the marketplace: [None] is a missing key. *)
Record product := mkProduct {
  p_name : option pystr;
  p_sku : option pystr;
  p_quantity : option Z
}.

(** The value stored under ['color_image'] in a product detail record. *)
Inductive color_image_value :=
| CI_list (l : list pystr)
| CI_str (s : pystr).

(** [product_data]: only the ['color_image'] key is read. *)
Definition product_data := option color_image_value.

Definition NA : pystr := u "N/A".
Definition Tovar : pystr := u "Товар".

(** The pattern table of [extract_color_from_product], in insertion order. *)
Definition color_patterns : list (pystr * pystr) :=
  [ (u "красн", u "красный"); (u "син", u "синий"); (u "голуб", u "голубой");
    (u "зелен", u "зеленый"); (u "желт", u "желтый"); (u "оранж", u "оранжевый");
    (u "фиолет", u "фиолетовый"); (u "розов", u "розовый"); (u "фукси", u "фуксия");
    (u "коричнев", u "коричневый"); (u "черн", u "черный"); (u "бел", u "белый");
    (u "сер", u "серый"); (u "золот", u "золотой"); (u "серебр", u "серебряный");
    (u "радужн", u "радужный"); (u "разноцветн", u "разноцветный");
    (u "multicolor", u "разноцветный"); (u "rainbow", u "радужный");
    (u "red", u "красный"); (u "blue", u "синий"); (u "green", u "зеленый");
    (u "yellow", u "желтый"); (u "orange", u "оранжевый"); (u "purple", u "фиолетовый");
    (u "pink", u "розовый"); (u "fuchsia", u "фуксия"); (u "brown", u "коричневый");
    (u "black", u "черный"); (u "white", u "белый"); (u "gray", u "серый");
    (u "grey", u "серый"); (u "gold", u "золотой"); (u "silver", u "серебряный") ].

Fixpoint first_pattern (name_lower : pystr) (table : list (pystr * pystr)) : option pystr :=
  match table with
  | [] => None
  | (pattern, color) :: rest =>
      if contains name_lower pattern then Some color else first_pattern name_lower rest
  end.

Definition extract_color_from_product (data : product_data) (product_name : pystr) : pystr :=
  match data with
  | Some (CI_list (c :: _)) => c
  | Some (CI_str (c :: s)) => c :: s
  | _ =>
      if negb (truthy product_name) || str_eqb product_name NA then NA
      else
        match first_pattern (lower product_name) color_patterns with
        | Some color => color
        | None => NA
        end
  end.

Definition color_words : list pystr :=
  [ u "красный"; u "синий"; u "голубой"; u "зеленый"; u "желтый"; u "оранжевый";
    u "фиолетовый"; u "розовый"; u "фуксия"; u "коричневый"; u "черный"; u "белый";
    u "серый"; u "золотой"; u "серебряный"; u "радужный"; u "разноцветный" ].

Definition space : pystr := u " ".

(** [result + (" " if result else "") + word] *)
Definition append_word (result word : pystr) : pystr :=
  result ++ (if truthy result then space else []) ++ word.

(** The two accumulation loops of [shorten_product_name_for_barcode]: words
    are appended while [len(test_result) + reserve <= max_length]; the loop
    breaks at the first word that does not fit.  [reserve] is [color_length]
    in the first loop and 0 in the second. *)
Fixpoint take_words (reserve max_length : Z) (result : pystr) (words : list pystr) : pystr :=
  match words with
  | [] => result
  | word :: rest =>
      let test_result := append_word result word in
      if len test_result + reserve <=? max_length
      then take_words reserve max_length test_result rest
      else result
  end.

(** The abbreviation loop: long words become their first three characters
    and a dot. *)
Fixpoint abbreviate (max_length : Z) (shortened_words : list pystr) (current_length : Z)
         (words : list pystr) : list pystr :=
  match words with
  | [] => shortened_words
  | word :: rest =>
      if 4 <? len word then
        let short_word := slice_to word 3 ++ u "." in
        if current_length + len short_word + 1 <=? max_length
        then abbreviate max_length (shortened_words ++ [short_word])
                        (current_length + len short_word + 1) rest
        else shortened_words
      else
        if current_length + len word + 1 <=? max_length
        then abbreviate max_length (shortened_words ++ [word])
                        (current_length + len word + 1) rest
        else shortened_words
  end.

(** [re.sub(r'[^\w\s\-]', '', s)] *)
Definition clean (s : pystr) : pystr :=
  filter (fun c => is_word_char c || isspace c || (c =? 45)%N) s.

Definition shorten_product_name_for_barcode (product_name : pystr) (max_length : Z) : pystr :=
  if negb (truthy product_name) || str_eqb product_name NA then Tovar
  else
    let clean_name := clean product_name in
    if len clean_name <=? max_length then clean_name
    else
      let words := split clean_name in
      match words with
      | [] => slice_to clean_name max_length
      | _ =>
          match find (fun word => in_list (lower word) color_words) words with
          | Some color_found =>
              let words_without_color :=
                filter (fun w => negb (str_eqb (lower w) (lower color_found))) words in
              let color_length := len color_found + 1 in
              let result := take_words color_length max_length [] words_without_color in
              if truthy result then result ++ space ++ color_found else color_found
          | None =>
              let result := take_words 0 max_length [] words in
              let result :=
                if truthy result then result
                else join space (abbreviate max_length [] 0 words) in
              if truthy result then result else slice_to clean_name max_length
          end
      end.

Definition get_name (p : product) : pystr :=
  match p_name p with Some n => n | None => Tovar end.

Definition get_quantity (p : product) : Z :=
  match p_quantity p with Some q => q | None => 1 end.

(** The per-item display name shared by every branch of the description:
    [cap_color] bounds the name when a color was detected, [cap_plain]
    otherwise. *)
Definition display_name (full_name : pystr) (cap_color cap_plain : Z) : pystr :=
  let color := extract_color_from_product None full_name in
  if negb (str_eqb color NA) && contains (lower full_name) (lower color) then
    let short_name :=
      strip (shorten_product_name_for_barcode
               (replace_with_empty full_name (lower color)) cap_color) in
    if truthy short_name then short_name ++ space ++ color else color
  else shorten_product_name_for_barcode full_name cap_plain.

Definition item_entry (p : product) : pystr :=
  display_name (get_name p) 6 8 ++ u " x" ++ str_of_int (get_quantity p).

(** [product_text] as computed in [generate_smart_label]; [products_info]
    is [None] when the argument is omitted. *)
Definition product_text (product_name : pystr) (products_info : option (list product)) : pystr :=
  match products_info with
  | Some (p :: ps) =>
      let infos := p :: ps in
      let total_items := fold_left Z.add (map get_quantity infos) 0 in
      match ps with
      | [] =>
          u "Заказ " ++ str_of_int total_items ++ u " товар: "
            ++ display_name (get_name p) 25 30
      | _ =>
          if Z.of_nat (length infos) <=? 3 then
            u "Заказ " ++ str_of_int total_items ++ u " товаров: "
              ++ join (u ", ") (map item_entry infos)
          else
            u "Заказ " ++ str_of_int total_items ++ u " товаров: "
              ++ join (u ", ") (map item_entry (firstn 2 infos))
              ++ u " +" ++ str_of_int (Z.of_nat (length infos) - 2)
      end
  | _ =>
      let color := extract_color_from_product None product_name in
      if negb (str_eqb color NA) && contains (lower product_name) (lower color) then
        let short_name :=
          strip (shorten_product_name_for_barcode
                   (replace_with_empty product_name (lower color)) 10) in
        if truthy short_name then u "Заказ: " ++ short_name ++ space ++ color
        else u "Заказ: " ++ color
      else u "Заказ: " ++ shorten_product_name_for_barcode product_name 15
  end.

Definition order_text (posting_number : pystr) : pystr := u "Заказ: " ++ posting_number.

End ProductText.

(* ===================================================================== *)
(** ** Raster images and the margin cropper *)
(* ===================================================================== *)

Module Imaging.

(** What [Image.getpixel] returns: a tuple of bands or a single integer. *)
Inductive pixel :=
| PTuple (channels : list Z)
| PInt (v : Z).

(** A decoded image.  [getpixel] is only consulted inside the bounds; the
    PNG encoding carried by a [BytesIO] is lossless and is not modelled. *)
Record image := mkImage {
  width : Z;
  height : Z;
  getpixel : Z -> Z -> pixel
}.

Definition white : pixel := PTuple [255; 255; 255].

(** [Image.new('RGB', (w, h), 'white')] *)
Definition new_white (w h : Z) : image := mkImage w h (fun _ _ => white).

(** [dst.paste(src, (px, py))]: the part of [src] that falls outside [dst]
    is clipped. *)
Definition paste (dst src : image) (px py : Z) : image :=
  mkImage (width dst) (height dst)
    (fun x y =>
       if (px <=? x) && (x <? px + width src) && (py <=? y) && (y <? py + height src)
       then getpixel src (x - px) (y - py)
       else getpixel dst x y).

(** [img.rotate(90, expand=True)]: a quarter turn counter-clockwise. *)
Definition rotate90_expand (img : image) : image :=
  mkImage (height img) (width img) (fun x y => getpixel img (width img - 1 - y) x).

(** [img.crop((left, upper, right, lower))] *)
Definition crop (img : image) (left upper right lower : Z) : image :=
  mkImage (right - left) (lower - upper) (fun x y => getpixel img (x + left) (y + upper)).

(** [range(n)] *)
Definition range (n : Z) : list Z := map Z.of_nat (seq 0 (Z.to_nat n)).

(** [range(n - 1, -1, -1)] *)
Definition range_down (n : Z) : list Z := rev (range n).

(** [range(0, stop, step)] for a positive [step]. *)
Definition range_step (stop step : Z) : list Z :=
  map (fun k => Z.of_nat k * step) (seq 0 (Z.to_nat ((stop + step - 1) / step))).

(** The rows visited by the inner loops of [smart_crop_image]. *)
Definition sample_rows (img : image) : list Z :=
  range_step (height img) (Z.max 1 (height img / 20)).

(** The test applied to one pixel. *)
Definition is_content (p : pixel) : bool :=
  match p with
  | PTuple (r :: g :: b :: _) => (r <? 250) || (g <? 250) || (b <? 250)
  | PTuple _ => false
  | PInt v => v <? 250
  end.

(** The inner loop: [has_content] after scanning column [x]. *)
Definition has_content (img : image) (x : Z) : bool :=
  existsb (fun y => is_content (getpixel img x y)) (sample_rows img).

(** The outer loop: the first column of [xs] with content, if any. *)
Fixpoint first_content (img : image) (xs : list Z) : option Z :=
  match xs with
  | [] => None
  | x :: rest => if has_content img x then Some x else first_content img rest
  end.

Definition left_boundary (img : image) : Z :=
  match first_content img (range (width img)) with
  | Some x => Z.max 0 (x - 10)
  | None => 0
  end.

Definition right_boundary (img : image) : Z :=
  match first_content img (range_down (width img)) with
  | Some x => Z.min (width img) (x + 10)
  | None => width img
  end.

Definition smart_crop_image (img : image) : image :=
  let left_boundary := left_boundary img in
  let right_boundary := right_boundary img in
  if (0 <? left_boundary) || (right_boundary <? width img - 10)
  then crop img left_boundary 0 right_boundary (height img)
  else img.

End Imaging.

Import Imaging.

(* ===================================================================== *)
(** ** Libraries outside the repository *)
(* ===================================================================== *)

(** What the pipeline asks of PyMuPDF, PIL and python-barcode.

    - [fitz_open pdf]: [None] when the document cannot be opened, otherwise
      its pages, each rendered by [get_pixmap] with the 4x matrix ([None]
      when rendering raises).
    - [textlength size s]: [draw.textlength(s, font)] for the font loaded at
      [size].
    - [draw_text img x y s size]: the image after [draw.text((x, y), s)].
    - [code128_render payload module_width module_height quiet_zone]: the
      symbol drawn by [Code128(payload).render], [None] when it raises.
    - [resize_lanczos img w h]: [img.resize((w, h), LANCZOS)], [None] when
      it raises. *)
Record externals := mkExternals {
  fitz_open : list N -> option (list (option image));
  textlength : Z -> pystr -> Q;
  draw_text : image -> Z -> Z -> pystr -> Z -> image;
  code128_render : pystr -> Q -> Q -> Q -> option image;
  resize_lanczos : image -> Z -> Z -> option image
}.

(** PIL draws in place and resizes to the requested size. *)
Record externals_ok (E : externals) : Prop := mkExternalsOk {
  draw_text_width : forall img x y s size, width (draw_text E img x y s size) = width img;
  draw_text_height : forall img x y s size, height (draw_text E img x y s size) = height img;
  resize_size : forall img w h img',
      resize_lanczos E img w h = Some img' -> width img' = w /\ height img' = h
}.

(** [draw.text((x, y), s)] with the default anchor puts the top of the text
    at row [y]: the rows above [y] are left as they are. *)
Definition text_below_anchor (E : externals) : Prop :=
  forall img x y s size x' y',
    y' < y -> getpixel (draw_text E img x y s size) x' y' = getpixel img x' y'.

(* ===================================================================== *)
(** ** Binary64 arithmetic *)
(* ===================================================================== *)

(** The [float] of Python on the IEEE 754 binary64 format, by the
    operations of [SpecFloat] with 53 bits of precision, rounding to
    nearest, ties to even. *)
Module Binary64.

Import SpecFloat.

Definition prec : Z := 53.
Definition emax : Z := 1024.

(** An [int] as the exact value [n * 2^0]. *)
Definition exact (n : Z) : spec_float :=
  match n with
  | Z0 => S754_zero false
  | Zpos m => S754_finite false m 0
  | Zneg m => S754_finite true m 0
  end.

(** [float(n)] *)
Definition of_int (n : Z) : spec_float := binary_normalize prec emax n 0 false.

(** [a / b] on two [int]: the exact quotient, rounded once. *)
Definition truediv (a b : Z) : spec_float := SFdiv prec emax (exact a) (exact b).

(** [x * y] on two [float] *)
Definition mul (x y : spec_float) : spec_float := SFmul prec emax x y.

(** [int(x)]: truncation towards zero.  An infinity or a NaN makes [int]
    raise; the value 0 stands for that case, which no product of sizes
    that a PIL image can have (32-bit integers) reaches. *)
Definition to_int (x : spec_float) : Z :=
  match x with
  | S754_finite s m e => cond_Zopp s (Z.shiftl (Zpos m) e)
  | _ => 0
  end.

(** Not a negative number. *)
Definition nonneg (x : spec_float) : Prop :=
  match x with S754_finite s _ _ => s = false | _ => True end.

End Binary64.

(* ===================================================================== *)
(** ** Text fitting *)
(* ===================================================================== *)

Module TextFit.

Section Fit.

Context (E : externals).

Definition dots : pystr := u "...".

(** [draw.textlength(s, font) <= budget] *)
Definition fits (size : Z) (s : pystr) (budget : Z) : bool :=
  Qle_bool (textlength E size s) (inject_Z budget).

(** The [while] loop that shortens an over-wide word; [fuel] bounds the
    number of characters that can be dropped. *)
Fixpoint truncate_loop (size budget : Z) (fuel : nat) (truncated_word : pystr) : pystr :=
  match fuel with
  | O => truncated_word
  | S fuel' =>
      if negb (fits size (truncated_word ++ dots) budget) && (3 <? len truncated_word)
      then truncate_loop size budget fuel' (removelast truncated_word)
      else truncated_word
  end.

Definition truncate_word (size budget : Z) (word : pystr) : pystr :=
  truncate_loop size budget (length word) word.

Definition test_line (current_line word : pystr) : pystr :=
  current_line ++ (if truthy current_line then u " " else []) ++ word.

(** One iteration of the wrapping loop with overflow control (main loop of
    the fitter in [generate_smart_label] and in
    [generate_barcode_image_for_combined]).  The state is
    [(lines, current_line)]. *)
Definition wrap_step (size budget : Z) (st : list pystr * pystr) (word : pystr)
  : list pystr * pystr :=
  let '(lines, current_line) := st in
  if fits size (test_line current_line word) budget then (lines, test_line current_line word)
  else if truthy current_line then (lines ++ [current_line], word)
  else if negb (fits size word budget)
       then (lines ++ [truncate_word size budget word ++ dots], [])
       else (lines, word).

(** One iteration of the last-resort loop of [generate_smart_label]. *)
Definition wrap_step_last (size budget : Z) (st : list pystr * pystr) (word : pystr)
  : list pystr * pystr :=
  let '(lines, current_line) := st in
  if fits size (test_line current_line word) budget then (lines, test_line current_line word)
  else if truthy current_line then (lines ++ [current_line], word)
  else if negb (fits size word budget)
       then (lines ++ [truncate_word size budget word ++ dots], current_line)
       else (lines ++ [word], current_line).

(** One iteration of the wrapping loop without overflow control (both loops
    of the fitter in [generate_barcode_image], last-resort loop in
    [generate_barcode_image_for_combined]). *)
Definition wrap_step_plain (size budget : Z) (st : list pystr * pystr) (word : pystr)
  : list pystr * pystr :=
  let '(lines, current_line) := st in
  if fits size (test_line current_line word) budget then (lines, test_line current_line word)
  else if truthy current_line then (lines ++ [current_line], word)
  else (lines ++ [word], current_line).

(** Run a loop over the words, then flush [current_line]. *)
Definition wrap_with (step : list pystr * pystr -> pystr -> list pystr * pystr)
           (words : list pystr) : list pystr :=
  let '(lines, current_line) := fold_left step words ([], []) in
  if truthy current_line then lines ++ [current_line] else lines.

Definition wrap (size budget : Z) := wrap_with (wrap_step size budget).
Definition wrap_last (size budget : Z) := wrap_with (wrap_step_last size budget).
Definition wrap_plain (size budget : Z) := wrap_with (wrap_step_plain size budget).

Inductive fit_path := Accepted | LastResort.

(** What a call of [draw_text_with_smart_fit] decides before drawing. *)
Record fitted := mkFitted {
  f_path : fit_path;
  f_size : Z;
  f_lines : list pystr
}.

(** The [for font_size in font_sizes] loop: the first size whose wrapping
    passes the height and line-count test. *)
Fixpoint try_sizes (wrapper : Z -> list pystr) (max_height max_lines : Z) (font_sizes : list Z)
  : option (Z * list pystr) :=
  match font_sizes with
  | [] => None
  | font_size :: rest =>
      let lines := wrapper font_size in
      if (Z.of_nat (length lines) * font_size <=? max_height)
         && (Z.of_nat (length lines) <=? max_lines)
      then Some (font_size, lines)
      else try_sizes wrapper max_height max_lines rest
  end.

Definition fit_with (wrapper : Z -> list pystr) (max_height max_lines : Z) (font_sizes : list Z)
           (last_size : Z) (last_lines : list pystr) : fitted :=
  match try_sizes wrapper max_height max_lines font_sizes with
  | Some (font_size, lines) => mkFitted Accepted font_size lines
  | None => mkFitted LastResort last_size last_lines
  end.

(** The fitter nested in [generate_smart_label]. *)
Definition fit_smart_label (text : pystr) (max_width max_height : Z) : fitted :=
  let words := split text in
  fit_with (fun size => wrap size (max_width - 20) words) max_height 4
           [50; 45; 40; 35; 30; 25; 20; 18; 16; 14; 12]
           20 (firstn 3 (wrap_last 20 (max_width - 10) words)).

(** The fitter nested in [generate_barcode_image]. *)
Definition fit_barcode (text : pystr) (max_width max_height : Z) : fitted :=
  let words := split text in
  fit_with (fun size => wrap_plain size max_width words) max_height 3
           [40; 35; 30; 25; 20; 18; 16; 14; 12; 10]
           18 (firstn 2 (wrap_plain 18 max_width words)).

(** The fitter nested in [generate_barcode_image_for_combined]. *)
Definition fit_combined (text : pystr) (max_width max_height : Z) : fitted :=
  let words := split text in
  fit_with (fun size => wrap size (max_width - 20) words) max_height 3
           [35; 30; 25; 20; 18; 16; 14; 12; 10]
           16 (firstn 2 (wrap_plain 16 max_width words)).

(** Drawing the fitted lines, each centred in [max_width]. *)
Fixpoint draw_lines (img : image) (x y max_width size : Z) (i : Z) (lines : list pystr) : image :=
  match lines with
  | [] => img
  | line :: rest =>
      let line_width := textlength E size line in
      let line_x := x + Qfloor ((inject_Z max_width - line_width) / 2) in
      let line_y := y + i * size in
      draw_lines (draw_text E img line_x line_y line size) x y max_width size (i + 1) rest
  end.

Definition draw_fitted (img : image) (x y max_width : Z) (f : fitted) : image :=
  draw_lines img x y max_width (f_size f) 0 (f_lines f).

(** A loop state all of whose lines, finished or under construction, fit
    the budget. *)
Definition within (size budget : Z) (st : list pystr * pystr) : Prop :=
  (forall l, In l (fst st) -> fits size l budget = true)
  /\ (snd st = [] \/ fits size (snd st) budget = true).

End Fit.

End TextFit.

(* ===================================================================== *)
(** ** Barcode images *)
(* ===================================================================== *)

Module Barcode.

Import TextFit.

Section Render.

Context (E : externals).

Definition MAX_WIDTH : Z := 1202.

(** [int(height * (MAX_WIDTH / width))], in binary64 as the source computes
    it: the quotient is rounded, then the product, then [int] truncates. *)
Definition scaled_height (width height : Z) : Z :=
  Binary64.to_int
    (Binary64.mul (Binary64.of_int height) (Binary64.truediv MAX_WIDTH width)).

Definition barcode_text (barcode : pystr) : pystr := u "Штрихкод: " ++ barcode.
Definition sku_text (sku : pystr) : pystr := u "SKU: " ++ sku.

(** The symbol after the optional downscale of
    [generate_barcode_image_for_combined]; [None] when [resize] raises. *)
Definition fit_symbol (barcode_img : image) : option image :=
  if MAX_WIDTH <? width barcode_img
  then resize_lanczos E barcode_img MAX_WIDTH
                      (scaled_height (width barcode_img) (height barcode_img))
  else Some barcode_img.

(** [generate_barcode_image_for_combined]; [None] is the result of the
    [except] clauses. *)
Definition generate_barcode_image_for_combined (barcode product_name sku : pystr)
  : option image :=
  match code128_render E barcode 1 50 4 with
  | None => None
  | Some raw =>
      match fit_symbol raw with
      | None => None
      | Some barcode_img =>
          let width := width barcode_img in
          let height := height barcode_img in
          let text_height := 300 in
          let padding_vertical := 5 in
          let img_width := MAX_WIDTH in
          let img_height := height + text_height + padding_vertical * 2 in
          let img := new_white img_width img_height in
          let barcode_x := (img_width - width) / 2 in
          let img := paste img barcode_img barcode_x padding_vertical in
          let text_start_y := height + padding_vertical + 5 in
          let text_height := 250 in
          let img := draw_fitted E img 0 text_start_y width
                       (fit_combined E (barcode_text barcode) width (text_height / 3)) in
          let img := draw_fitted E img 0 (text_start_y + text_height / 3) width
                       (fit_combined E (sku_text sku) width (text_height / 3)) in
          let img := draw_fitted E img 0 (text_start_y + 2 * text_height / 3) width
                       (fit_combined E product_name width (text_height / 3)) in
          Some img
      end
  end.

(** [generate_barcode_image] *)
Definition generate_barcode_image (barcode product_name sku : pystr) (quantity : Z)
           (posting_number : pystr) : option image :=
  match code128_render E barcode (8 # 10) 40 6 with
  | None => None
  | Some barcode_img =>
      let width := width barcode_img in
      let height := height barcode_img in
      let text_height := 300 in
      let padding_vertical := 30 in
      let img_width := width in
      let img_height := height + text_height + padding_vertical * 2 in
      let img := new_white img_width img_height in
      let img := paste img barcode_img 0 padding_vertical in
      let product_text := product_name ++ u " x" ++ str_of_int quantity in
      let text_start_y := height + padding_vertical + 2 in
      let text_height := 150 in
      let img := draw_fitted E img 0 text_start_y img_width
                   (fit_barcode E (barcode_text barcode) img_width (text_height / 3)) in
      let img := draw_fitted E img 0 (text_start_y + text_height / 3) img_width
                   (fit_barcode E (sku_text sku) img_width (text_height / 3)) in
      let img := draw_fitted E img 0 (text_start_y + 2 * text_height / 3) img_width
                   (fit_barcode E product_text img_width (text_height / 3)) in
      Some img
  end.

End Render.

End Barcode.

(* ===================================================================== *)
(** ** Label composition *)
(* ===================================================================== *)

Module Label.

Import TextFit ProductText Barcode.

Section Compose.

Context (E : externals).

(** The canvas of [generate_smart_label] before the margin cropper runs:
    the rotated page on a white canvas with both text blocks drawn. *)
Definition smart_label_canvas (pdf_img : image) (product_name posting_number : pystr)
           (products_info : option (list product)) : image :=
  let rotated_img := rotate90_expand pdf_img in
  let pdf_width := width rotated_img in
  let pdf_height := height rotated_img in
  let pdf_width := if MAX_WIDTH <? pdf_width then MAX_WIDTH else pdf_width in
  let text_height := 200 in
  let total_height := pdf_height + text_height in
  let final_img := new_white pdf_width total_height in
  let final_img := paste final_img rotated_img 0 0 in
  let text_start_y := pdf_height + 20 in
  let text_height := 400 in
  let final_img :=
    draw_fitted E final_img 0 text_start_y pdf_width
      (fit_smart_label E (product_text product_name products_info) pdf_width (text_height / 2)) in
  draw_fitted E final_img 0 (text_start_y + text_height / 2) pdf_width
    (fit_smart_label E (order_text posting_number) pdf_width (text_height / 2)).

(** [generate_smart_label]; [None] is returned for an empty document and
    by the [except Exception] clause. *)
Definition generate_smart_label (pdf_content : list N) (product_name posting_number : pystr)
           (products_info : option (list product)) : option image :=
  match fitz_open E pdf_content with
  | None => None
  | Some [] => None
  | Some (None :: _) => None
  | Some (Some pdf_img :: _) =>
      Some (smart_crop_image
              (smart_label_canvas pdf_img product_name posting_number products_info))
  end.

(** The loop of [create_combined_barcode_label_image] that renders one
    barcode image per product with a known barcode. *)
Fixpoint collect_barcodes (products : list product) (products_by_sku : gmap pystr (list pystr))
  : list image :=
  match products with
  | [] => []
  | product :: rest =>
      let sku := match p_sku product with Some s => s | None => [] end in
      let product_name := match p_name product with Some n => n | None => NA end in
      let here :=
        match products_by_sku !! sku with
        | Some (barcode :: _) =>
            match generate_barcode_image_for_combined E barcode product_name sku with
            | Some barcode_img => [barcode_img]
            | None => []
            end
        | _ => []
        end in
      here ++ collect_barcodes rest products_by_sku
  end.

(** The paste loop: every barcode centred under the label. *)
Fixpoint paste_barcodes (combined_img : image) (total_width current_y : Z)
         (barcode_images : list image) : image :=
  match barcode_images with
  | [] => combined_img
  | barcode_img :: rest =>
      let barcode_x := (total_width - width barcode_img) / 2 in
      paste_barcodes (paste combined_img barcode_img barcode_x current_y)
                     total_width (current_y + height barcode_img + 20) rest
  end.

(** The canvas of [create_combined_barcode_label_image] before cropping. *)
Definition combined_canvas (smart_label_img : image) (barcode_images : list image) : image :=
  let label_width := width smart_label_img in
  let label_height := height smart_label_img in
  let barcode_height := fold_left Z.add (map height barcode_images) 0 in
  let padding := 20 in
  let total_barcode_height :=
    barcode_height + (Z.of_nat (length barcode_images) - 1) * padding in
  let total_width := label_width in
  let total_height := label_height + total_barcode_height + 20 in
  let combined_img := new_white total_width total_height in
  let combined_img := paste combined_img smart_label_img 0 10 in
  paste_barcodes combined_img total_width (label_height + 10) barcode_images.

(** The composition step on already rendered barcode images. *)
Definition combine (smart_label_img : image) (barcode_images : list image) : option image :=
  match barcode_images with
  | [] => None
  | _ => Some (smart_crop_image (combined_canvas smart_label_img barcode_images))
  end.

Definition create_combined_barcode_label_image (posting_number : pystr)
           (products : list product) (products_by_sku : gmap pystr (list pystr))
           (smart_label : image) : option image :=
  combine smart_label (collect_barcodes products products_by_sku).

End Compose.

End Label.

(* ===================================================================== *)
(** ** Messaging effects and the marketplace *)
(* ===================================================================== *)

Module Bot.

Import ProductText Label.

(** An inline keyboard: rows of buttons [(text, callback_data)]. *)
Definition keyboard := list (list (pystr * pystr)).

Inductive document :=
| DocImage (name : pystr) (img : image)
| DocBytes (name : pystr) (content : list N).

(** Bot methods whose bodies are not expanded: a call is recorded with its
    arguments.  The record says that the method is called, not what it does
    nor that it returns. *)
Inductive method :=
| ShowPackagingOrders (chat_id : Z)
| ShowDeliveryOrders (chat_id : Z)
| ShowLabelsMenu (chat_id : Z)
| ShowNotificationsMenu (chat_id : Z)
| ShowStats (chat_id : Z)
| ShowAllProductsMenu (chat_id : Z) (page : Z)
| ShowProductsByStatus (chat_id : Z) (status : pystr)
| ShowOrderDetails (chat_id : Z) (posting_number : pystr)
| ShipOrder (chat_id : Z) (posting_number : pystr) (message_id : Z)
| GetSingleLabel (chat_id : Z) (posting_number : pystr)
| GetSingleBarcode (chat_id : Z) (posting_number : pystr)
| ShowOrderProducts (chat_id : Z) (posting_number : pystr)
| GetOrderBarcodes (chat_id : Z) (posting_number : pystr)
| GetCombinedBarcodeLabel (chat_id : Z) (posting_number : pystr)
| ShowProductFromOrder (chat_id : Z) (sku posting_number : pystr)
| ShowProductDetails (chat_id : Z) (product_id : pystr)
| ShowEditStockMenu (chat_id : Z) (product_id : pystr)
| UpdateProductStock (chat_id : Z) (product_id : pystr) (new_stock : Z)
| GetProductBarcodeById (chat_id : Z) (product_id : pystr)
| StartMonitoring (chat_id : Z)
| StopMonitoring (chat_id : Z)
| ShowMonitoringStatus (chat_id : Z).

(** What a handler does, in order. *)
Inductive effect :=
| SendMessage (chat_id : Z) (text : pystr) (reply_markup : keyboard) (html : bool)
| SendDocument (chat_id : Z) (doc : document) (caption : pystr)
| AnswerCallbackQuery (call_id : pystr) (text : pystr) (show_alert : bool)
| ApiRequest (endpoint : pystr) (argument : list pystr)
| Invoke (m : method).

(** A handler either returns or lets an exception escape after the effects
    performed so far.  Where the last effect is an [Invoke], the trace ends
    with the hand-over to that method. *)
Inductive outcome :=
| Completed (trace : list effect)
| Raised (trace : list effect) (exception : pystr).

(** The answer of [get_order_details]. *)
Inductive order_details :=
| OrderError (message : pystr)
| OrderResult (products : list product).

(** The answer of [get_package_label]: an error, a file, a mapping with
    neither key ([LabelOther] carries its printed form), or [None]: for a
    status other than 200 that [raise_for_status] lets pass, the function
    ends without a [return]. *)
Inductive label_result :=
| LabelError (message : pystr)
| LabelFile (file_content : list N) (file_name : option pystr)
| LabelOther (printed : pystr)
| LabelNone.

(** [str(e)] of the [TypeError] that a membership test on [None] raises,
    in the wording of CPython up to 3.13. *)
Definition none_is_not_iterable : pystr := u "argument of type 'NoneType' is not iterable".

(** The marketplace as seen by one handler run.  The product information
    request is made with [requests.post] directly: [inl] is the text of the
    exception it raises, [inr] the items as [(sku, barcodes)]. *)
Record marketplace := mkMarketplace {
  api_get_order_details : pystr -> order_details;
  api_get_package_label : list pystr -> label_result;
  api_product_info_list : list pystr -> pystr + list (pystr * list pystr)
}.

Definition main_menu_keyboard : keyboard := [[(u "🔙 Главное меню", u "main_menu")]].

Section Handlers.

Context (E : externals) (M : marketplace).

Definition get_single_label (chat_id : Z) (posting_number : pystr) : outcome :=
  let t0 := [SendMessage chat_id (u "⏳ Генерирую этикетку для " ++ posting_number ++ u "...")
                         [] false;
             ApiRequest (u "/v2/posting/fbs/package-label") [posting_number]] in
  match api_get_package_label M [posting_number] with
  | LabelError message =>
      Completed (t0 ++ [SendMessage chat_id (u "❌ Ошибка при получении этикетки: " ++ message)
                                    main_menu_keyboard false])
  | LabelFile file_content _ =>
      let t1 := t0 ++ [ApiRequest (u "/v3/posting/fbs/get") [posting_number]] in
      match api_get_order_details M posting_number with
      | OrderResult (p :: ps) =>
          let products := p :: ps in
          let product_name := get_name p in
          let sent :=
            match generate_smart_label E file_content product_name posting_number
                                       (Some products) with
            | Some smart_label =>
                SendDocument chat_id
                  (DocImage (u "smart_label_" ++ posting_number ++ u ".png") smart_label)
                  (u "🏷️ Умная этикетка для заказа " ++ posting_number
                     ++ [10%N] ++ u "📦 " ++ product_name)
            | None =>
                SendDocument chat_id
                  (DocBytes (u "label_" ++ posting_number ++ u ".pdf") file_content)
                  (u "🏷️ Этикетка для заказа " ++ posting_number)
            end in
          Completed (t1 ++ [sent;
                            SendMessage chat_id (u "✅ Этикетка отправлена!")
                                        main_menu_keyboard false])
      | _ =>
          (* [products] is read before any assignment *)
          Raised t1 (u "UnboundLocalError")
      end
  | LabelOther printed =>
      Completed (t0 ++ [SendMessage chat_id
                          (u "❌ Не удалось получить этикетку. Ответ API: " ++ printed)
                          main_menu_keyboard false])
  | LabelNone =>
      (* ["error" in result] on [None] *)
      Raised t0 (u "TypeError")
  end.

Definition sku_of (p : product) : pystr :=
  match p_sku p with Some s => s | None => [] end.

Definition get_combined_barcode_label (chat_id : Z) (posting_number : pystr) : outcome :=
  let say text := SendMessage chat_id text main_menu_keyboard false in
  let t0 := [SendMessage chat_id
               (u "⏳ Создаю комбинированный файл для заказа " ++ posting_number ++ u "...")
               [] false;
             ApiRequest (u "/v3/posting/fbs/get") [posting_number]] in
  match api_get_order_details M posting_number with
  | OrderError message =>
      Completed (t0 ++ [say (u "❌ Ошибка при получении деталей заказа: " ++ message)])
  | OrderResult [] =>
      Completed (t0 ++ [say (u "❌ Товары не найдены для заказа " ++ posting_number)])
  | OrderResult (p :: ps) =>
      let products := p :: ps in
      let t1 := t0 ++ [ApiRequest (u "/v2/posting/fbs/package-label") [posting_number]] in
      match api_get_package_label M [posting_number] with
      | LabelFile file_content _ =>
          let product_name := get_name p in
          match generate_smart_label E file_content product_name posting_number
                                     (Some products) with
          | None =>
              Completed (t1 ++ [say (u "❌ Не удалось сгенерировать умную этикетку для заказа "
                                       ++ posting_number)])
          | Some smart_label =>
              let sku_list :=
                map sku_of (filter (fun p => truthy (sku_of p)) products) in
              match sku_list with
              | [] =>
                  Completed (t1 ++ [say (u "❌ SKU товаров не найдены для заказа "
                                           ++ posting_number)])
              | _ =>
                  let t2 := t1 ++ [ApiRequest (u "/v3/product/info/list") sku_list] in
                  match api_product_info_list M sku_list with
                  | inl message =>
                      Completed (t2 ++ [say (u "❌ Ошибка при создании комбинированного файла: "
                                               ++ message)])
                  | inr detailed_products =>
                      let products_by_sku : gmap pystr (list pystr) :=
                        list_to_map (rev detailed_products) in
                      match create_combined_barcode_label_image
                              E posting_number products products_by_sku smart_label with
                      | Some combined_image =>
                          Completed
                            (t2 ++ [SendDocument chat_id
                                      (DocImage (u "combined_" ++ posting_number ++ u ".png")
                                                combined_image)
                                      (u "📊📦 Комбинированный файл для заказа " ++ posting_number
                                         ++ [10%N]
                                         ++ u "📦 Содержит: штрихкоды товаров + этикетка заказа");
                                    SendMessage chat_id (u "✅ Комбинированный файл отправлен!")
                                      [[(u "🔙 К заказу", u "order_" ++ posting_number)];
                                       [(u "🔙 Главное меню", u "main_menu")]] false])
                      | None =>
                          Completed (t2 ++ [say (u "❌ Не удалось создать комбинированный файл для заказа "
                                                   ++ posting_number)])
                      end
                  end
              end
          end
      | LabelNone =>
          (* ["error" in label_result] raises inside the [try] *)
          Completed (t1 ++ [say (u "❌ Ошибка при создании комбинированного файла: "
                                   ++ none_is_not_iterable)])
      | _ =>
          Completed (t1 ++ [say (u "❌ Не удалось получить этикетку для заказа " ++ posting_number)])
      end
  end.

End Handlers.

End Bot.

(* ===================================================================== *)
(** ** Order monitor *)
(* ===================================================================== *)

Module Monitor.

(** A posting as listed by the marketplace: [None] is a missing key. *)
Record order := mkOrder {
  posting_number : option pystr;
  shipment_date : option pystr
}.

(** The answer of [get_orders_for_packaging]. *)
Inductive orders_response :=
| ListError (message : pystr)
| ListPostings (postings : list order).

Definition NOTIFICATION_BATCH_SIZE : nat := 5.

(** One iteration of the [for order in orders] loop of [check_new_orders];
    the state is [(new_orders, processed_orders)]. *)
Definition scan_order (st : list order * gset pystr) (o : order) : list order * gset pystr :=
  let '(new_orders, processed_orders) := st in
  match posting_number o with
  | Some pn =>
      if truthy pn && negb (bool_decide (pn ∈ processed_orders))
      then (new_orders ++ [o], processed_orders ∪ {[pn]})
      else (new_orders, processed_orders)
  | None => (new_orders, processed_orders)
  end.

(** [check_new_orders]: the new value of [processed_orders] and the
    argument of [send_new_orders_notification], when it is called. *)
Definition check_new_orders (processed_orders : gset pystr) (response : orders_response)
  : gset pystr * option (list order) :=
  match response with
  | ListError _ => (processed_orders, None)
  | ListPostings [] => (processed_orders, None)
  | ListPostings orders =>
      let '(new_orders, processed_orders') := fold_left scan_order orders ([], processed_orders) in
      match new_orders with
      | [] => (processed_orders', None)
      | _ => (processed_orders', Some new_orders)
      end
  end.

Definition or_na (x : option pystr) : pystr :=
  match x with Some s => s | None => u "N/A" end.

(** The text built by [send_new_orders_notification]. *)
Definition notification_text (orders : list order) : pystr :=
  let head := u "🔔 <b>Новые заказы на сборку (" ++ str_of_int (Z.of_nat (length orders))
                ++ u ")</b>" ++ [10%N; 10%N] in
  let entry o := u "📦 <b>" ++ or_na (posting_number o) ++ u "</b>" ++ [10%N]
                   ++ u "Дата отгрузки: " ++ or_na (shipment_date o) ++ [10%N; 10%N] in
  let body := concat (map entry (firstn NOTIFICATION_BATCH_SIZE orders)) in
  let more :=
    if (NOTIFICATION_BATCH_SIZE <? length orders)%nat
    then u "... и еще "
           ++ str_of_int (Z.of_nat (length orders) - Z.of_nat NOTIFICATION_BATCH_SIZE)
           ++ u " заказов" ++ [10%N; 10%N]
    else [] in
  head ++ body ++ more ++ u "Используйте /orders для просмотра всех заказов".

(** The monitor thread: one check per answer of the marketplace, starting
    from the given set; the notifications are listed in the order sent. *)
Fixpoint monitor_loop (processed_orders : gset pystr) (responses : list orders_response)
  : gset pystr * list (list order) :=
  match responses with
  | [] => (processed_orders, [])
  | response :: rest =>
      let '(processed_orders', notification) := check_new_orders processed_orders response in
      let '(final, later) := monitor_loop processed_orders' rest in
      (final, match notification with Some orders => orders :: later | None => later end)
  end.

(** The posting numbers named by a list of notifications. *)
Definition notified_numbers (notifications : list (list order)) : list pystr :=
  concat (map (fun orders => omap posting_number orders) notifications).

End Monitor.

(* ===================================================================== *)
(** ** Access control and the Telegram handlers *)
(* ===================================================================== *)

Module Access.

Import Bot.

Record config := mkConfig { ADMIN_CHAT_ID : pystr }.

Definition is_admin (cfg : config) (user_id : Z) : bool :=
  let admin_ids := [ADMIN_CHAT_ID cfg; u "669994046"] in
  in_list (str_of_int user_id) admin_ids.

Definition check_admin_access (cfg : config) (user_id : Z) : bool :=
  if negb (is_admin cfg user_id) then false else true.

Definition access_denied_text : pystr :=
  u "🚫 <b>Доступ запрещен</b>" ++ [10%N; 10%N]
    ++ u "У вас нет прав для использования этого бота." ++ [10%N]
    ++ u "Обратитесь к администратору для получения доступа.".

Definition send_access_denied (chat_id : Z) : list effect :=
  [SendMessage chat_id access_denied_text [] true].

Definition welcome_text : pystr :=
  u "🤖 <b>Ozon Seller Bot</b>" ++ [10%N; 10%N]
    ++ u "Добро пожаловать! Этот бот поможет вам управлять заказами FBS:" ++ [10%N; 10%N]
    ++ u "📦 <b>Заказы на сборку</b> - заказы в статусе awaiting_packaging" ++ [10%N]
    ++ u "🚚 <b>Готовые к отгрузке</b> - заказы в статусе awaiting_deliver" ++ [10%N]
    ++ u "🔔 <b>Уведомления</b> - управление уведомлениями" ++ [10%N]
    ++ u "📊 <b>Статистика</b> - общая статистика по заказам" ++ [10%N; 10%N]
    ++ u "Выберите нужное действие:".

Definition show_main_menu (cfg : config) (chat_id user_id : Z) : list effect :=
  if negb (check_admin_access cfg user_id) then send_access_denied chat_id
  else
    [SendMessage chat_id welcome_text
       [ [(u "📦 Заказы на сборку", u "packaging_orders");
          (u "🚚 Готовые к отгрузке", u "delivery_orders")];
         [(u "🔔 Уведомления", u "notifications")];
         [(u "📦 Товары", u "all_products")];
         [(u "📊 Статистика", u "stats")] ]
       true].

Definition help_text : pystr :=
  u "📖 <b>Справка по командам:</b>" ++ [10%N; 10%N]
    ++ u "/start - Главное меню бота" ++ [10%N]
    ++ u "/help - Эта справка" ++ [10%N]
    ++ u "/orders - Быстрый доступ к заказам" ++ [10%N]
    ++ u "/labels - Быстрый доступ к этикеткам" ++ [10%N]
    ++ u "/monitor - Статус мониторинга" ++ [10%N; 10%N]
    ++ u "<b>Основные функции:</b>" ++ [10%N]
    ++ u "• Просмотр заказов на сборку с фото товаров" ++ [10%N]
    ++ u "• Сборка заказов одним нажатием" ++ [10%N]
    ++ u "• Получение этикеток для печати" ++ [10%N]
    ++ u "• Уведомления о новых заказах" ++ [10%N]
    ++ u "• Детальная информация о каждом заказе" ++ [10%N; 10%N]
    ++ u "<b>Безопасность:</b>" ++ [10%N]
    ++ u "• Доступ только для администратора" ++ [10%N]
    ++ u "• Все действия логируются" ++ [10%N]
    ++ u "• Защита от несанкционированного доступа".

(** A text message carrying a command. *)
Record message := mkMessage {
  msg_chat_id : Z;
  msg_from_user_id : Z
}.

(** A press on an inline button. *)
Record callback_query := mkCall {
  call_id : pystr;
  call_from_user_id : Z;
  call_chat_id : Z;
  call_message_id : Z;
  call_data : pystr
}.

(** What the handlers read from the order monitor. *)
Record monitor_view := mkMonitorView {
  is_running : bool;
  processed_orders_count : Z
}.

Definition start_command (cfg : config) (m : message) : outcome :=
  Completed (show_main_menu cfg (msg_chat_id m) (msg_from_user_id m)).

Definition help_command (cfg : config) (m : message) : outcome :=
  if negb (check_admin_access cfg (msg_from_user_id m))
  then Completed (send_access_denied (msg_chat_id m))
  else Completed [SendMessage (msg_chat_id m) help_text [] true].

Definition orders_command (cfg : config) (m : message) : outcome :=
  if negb (check_admin_access cfg (msg_from_user_id m))
  then Completed (send_access_denied (msg_chat_id m))
  else
    Completed
      [SendMessage (msg_chat_id m)
         (u "📋 <b>Управление заказами</b>" ++ [10%N; 10%N] ++ u "Выберите тип заказов:")
         [ [(u "📦 На сборку", u "packaging_orders"); (u "🚚 К отгрузке", u "delivery_orders")];
           [(u "🔙 Главное меню", u "main_menu")] ]
         true].

Definition labels_command (cfg : config) (m : message) : outcome :=
  if negb (check_admin_access cfg (msg_from_user_id m))
  then Completed (send_access_denied (msg_chat_id m))
  else Completed [Invoke (ShowLabelsMenu (msg_chat_id m))].

Definition monitor_command (cfg : config) (mv : monitor_view) (m : message) : outcome :=
  if negb (check_admin_access cfg (msg_from_user_id m))
  then Completed (send_access_denied (msg_chat_id m))
  else
    let text :=
      if is_running mv
      then u "✅ Мониторинг активен" ++ [10%N] ++ u "Обработано заказов: "
             ++ str_of_int (processed_orders_count mv)
      else u "❌ Мониторинг не запущен" in
    Completed [SendMessage (msg_chat_id m) text [] false].

Local Open Scope string_scope.

(** The dispatch of [callback_handler] on [call.data], for an admitted
    user, after the query has been answered. *)
Definition dispatch (cfg : config) (c : callback_query) : outcome :=
  let data := call_data c in
  let chat := call_chat_id c in
  let equals s := str_eqb data (u s) in
  let starts s := startswith data (u s) in
  let rest s := replace_with_empty data (u s) in
  let call m := Completed [Invoke m] in
  if equals "main_menu" then Completed (show_main_menu cfg chat (call_from_user_id c))
  else if equals "packaging_orders" then call (ShowPackagingOrders chat)
  else if equals "delivery_orders" then call (ShowDeliveryOrders chat)
  else if equals "labels" then call (ShowLabelsMenu chat)
  else if equals "notifications" then call (ShowNotificationsMenu chat)
  else if equals "stats" then call (ShowStats chat)
  else if equals "all_products" then call (ShowAllProductsMenu chat 0)
  else if starts "products_page_" then
    match int_of_str (rest "products_page_") with
    | Some page => call (ShowAllProductsMenu chat page)
    | None => Raised [] (u "ValueError")
    end
  else if equals "products_packaging" then call (ShowProductsByStatus chat (u "awaiting_packaging"))
  else if equals "products_delivery" then call (ShowProductsByStatus chat (u "awaiting_deliver"))
  else if starts "order_" then call (ShowOrderDetails chat (rest "order_"))
  else if starts "ship_" then call (ShipOrder chat (rest "ship_") (call_message_id c))
  else if starts "label_" then call (ShowOrderDetails chat (rest "label_"))
  else if starts "download_label_" then call (GetSingleLabel chat (rest "download_label_"))
  else if starts "download_barcode_" then call (GetSingleBarcode chat (rest "download_barcode_"))
  else if starts "products_" then call (ShowOrderProducts chat (rest "products_"))
  else if starts "barcodes_" then call (GetOrderBarcodes chat (rest "barcodes_"))
  else if starts "combined_" then call (GetCombinedBarcodeLabel chat (rest "combined_"))
  else if starts "product_" then
    match split_on 95 data with
    | _ :: sku :: posting_number :: _ => call (ShowProductFromOrder chat sku posting_number)
    | _ => Completed []
    end
  else if starts "product_detail_" then
    if isdigit (rest "product_detail_")
    then call (ShowProductDetails chat (rest "product_detail_"))
    else Completed [SendMessage chat (u "❌ Неверный ID товара") [] false]
  else if starts "item_detail_" then
    if isdigit (rest "item_detail_")
    then call (ShowProductDetails chat (rest "item_detail_"))
    else Completed [SendMessage chat (u "❌ Неверный ID товара") [] false]
  else if starts "edit_stock_" then call (ShowEditStockMenu chat (rest "edit_stock_"))
  else if starts "update_stock_" then
    match split_on 95 (rest "update_stock_") with
    | product_id :: stock :: _ =>
        match int_of_str stock with
        | Some new_stock => call (UpdateProductStock chat product_id new_stock)
        | None => Raised [] (u "ValueError")
        end
    | _ => Completed []
    end
  else if starts "barcode_" then call (GetProductBarcodeById chat (rest "barcode_"))
  else if equals "start_monitoring" then call (StartMonitoring chat)
  else if equals "stop_monitoring" then call (StopMonitoring chat)
  else if equals "monitoring_status" then call (ShowMonitoringStatus chat)
  else Completed [].

Local Close Scope string_scope.

Definition prepend (t : list effect) (o : outcome) : outcome :=
  match o with
  | Completed t' => Completed (t ++ t')
  | Raised t' e => Raised (t ++ t') e
  end.

Definition callback_handler (cfg : config) (c : callback_query) : outcome :=
  if negb (check_admin_access cfg (call_from_user_id c))
  then Completed (AnswerCallbackQuery (call_id c) (u "🚫 Доступ запрещен") true
                    :: send_access_denied (call_chat_id c))
  else prepend [AnswerCallbackQuery (call_id c) [] false] (dispatch cfg c).

(** Everything Telegram can deliver to the bot. *)
Inductive update :=
| CmdStart (m : message)
| CmdHelp (m : message)
| CmdOrders (m : message)
| CmdLabels (m : message)
| CmdMonitor (m : message)
| ButtonPress (c : callback_query).

Definition sender (upd : update) : Z :=
  match upd with
  | CmdStart m | CmdHelp m | CmdOrders m | CmdLabels m | CmdMonitor m => msg_from_user_id m
  | ButtonPress c => call_from_user_id c
  end.

Definition chat_of (upd : update) : Z :=
  match upd with
  | CmdStart m | CmdHelp m | CmdOrders m | CmdLabels m | CmdMonitor m => msg_chat_id m
  | ButtonPress c => call_chat_id c
  end.

Definition handle (cfg : config) (mv : monitor_view) (upd : update) : outcome :=
  match upd with
  | CmdStart m => start_command cfg m
  | CmdHelp m => help_command cfg m
  | CmdOrders m => orders_command cfg m
  | CmdLabels m => labels_command cfg m
  | CmdMonitor m => monitor_command cfg mv m
  | ButtonPress c => callback_handler cfg c
  end.

(** The replies that only tell the sender that access is refused. *)
Definition is_denial (e : effect) : bool :=
  match e with
  | SendMessage _ text [] true => str_eqb text access_denied_text
  | AnswerCallbackQuery _ text true => str_eqb text (u "🚫 Доступ запрещен")
  | _ => false
  end.

End Access.

(* ===================================================================== *)
(** ** The content test in the words of the specification *)
(* ===================================================================== *)

Module SpecWords.

(** The average of the colour channels of a pixel. *)
Definition channel_average (p : pixel) : option Q :=
  match p with
  | PTuple (r :: g :: b :: _) => Some (inject_Z (r + g + b) / 3)%Q
  | PTuple _ => None
  | PInt v => Some (inject_Z v)
  end.

(** "RGB channel average is below a brightness threshold (250/255)". *)
Definition average_below_threshold (p : pixel) : Prop :=
  match channel_average p with
  | Some a => (a < 250)%Q
  | None => False
  end.

(** What the source tests instead: one of the three channels is below 250. *)
Definition some_channel_below_threshold (p : pixel) : Prop :=
  match p with
  | PTuple (r :: g :: b :: _) => r < 250 \/ g < 250 \/ b < 250
  | PTuple _ => False
  | PInt v => v < 250
  end.

End SpecWords.

(* ===================================================================== *)
(** ** Sample data *)
(* ===================================================================== *)

Module Samples.

Import ProductText TextFit Bot Monitor Access.

Definition black : pixel := PTuple [0; 0; 0].

(** One pixel that is slightly tinted: red 249, green and blue 255. *)
Definition tinted_dot : image := mkImage 1 1 (fun _ _ => PTuple [249; 255; 255]).

(** A 60 x 3 strip, white except for the columns 25..34. *)
Definition strip : image :=
  mkImage 60 3 (fun x _ => if (25 <=? x) && (x <? 35) then black else white).

(** A 40 x 4 label whose only dark column is column 30. *)
Definition narrow_label : image :=
  mkImage 40 4 (fun x _ => if x =? 30 then black else white).

(** A 1202 x 310 barcode image with bars in the columns 601..610. *)
Definition thin_barcode : image :=
  mkImage 1202 310
    (fun x y => if (601 <=? x) && (x <? 611) && (y <? 60) then black else white).

(** A symbol of 1303 x 496 pixels: 123 modules of 0.8 mm between quiet zones
    of 6 mm, 42 mm high, at 300 dots per inch. *)
Definition wide_symbol : image :=
  mkImage 1303 496
    (fun x y => if (71 <=? x) && (x <? 1232) && Z.even (x / 9) then black else white).

(** A page rendered at 4x: 400 x 300 pixels with a dark frame. *)
Definition page : image :=
  mkImage 400 300
    (fun x y => if (x <? 8) || (392 <=? x) || (y <? 8) || (292 <=? y) then black else white).

(** Stand-ins for the libraries: a font whose glyphs are solid boxes half
    as wide as they are tall, a document with the single page [page], a
    barcode writer that always draws [wide_symbol], and a resize that
    samples the nearest pixel. *)
Definition box_textlength (size : Z) (s : pystr) : Q :=
  (inject_Z (size * len s) / 2)%Q.

Definition box_draw_text (img : image) (x y : Z) (s : pystr) (size : Z) : image :=
  paste img (mkImage (Qfloor (box_textlength size s)) size (fun _ _ => black)) x y.

Definition nearest_resize (img : image) (w h : Z) : option image :=
  Some (mkImage w h (fun x y => getpixel img (x * width img / w) (y * height img / h))).

Definition box_externals : externals :=
  mkExternals (fun _ => Some [Some page]) box_textlength box_draw_text
              (fun _ _ _ _ => Some wide_symbol) nearest_resize.

(** A page rendered at 4x, 400 x 1000 pixels, printed only in the rows
    200..799: after the quarter turn the columns 0..199 and 800..999 are
    blank. *)
Definition margin_page : image :=
  mkImage 400 1000
    (fun x y => if (50 <=? x) && (x <? 350) && (200 <=? y) && (y <? 800) then black else white).

Definition margin_externals : externals :=
  mkExternals (fun _ => Some [Some margin_page]) box_textlength box_draw_text
              (fun _ _ _ _ => Some wide_symbol) nearest_resize.

(** The same with a document that cannot be opened. *)
Definition broken_pdf_externals : externals :=
  mkExternals (fun _ => None) box_textlength box_draw_text
              (fun _ _ _ _ => Some wide_symbol) nearest_resize.

(** The line item of the specification's scenario. *)
Definition red_case : product :=
  mkProduct (Some (u "Красный чехол для телефона")) (Some (u "123")) (Some 2).

(** A product name without any white space, 70 characters long. *)
Definition long_word : pystr := repeat 87%N 70.

Definition shop : marketplace :=
  mkMarketplace (fun _ => OrderResult [red_case])
                (fun _ => LabelFile [37%N; 80%N; 68%N; 70%N] None)
                (fun _ => inr [(u "123", [u "4600000000000"])]).

Definition two_polls : list orders_response :=
  [ ListPostings [mkOrder (Some (u "A-1")) None; mkOrder (Some (u "A-2")) None;
                  mkOrder (Some (u "A-1")) None];
    ListPostings [mkOrder (Some (u "A-2")) None; mkOrder (Some (u "A-3")) None] ].

Definition owner : config := mkConfig (u "12345").

End Samples.

(* ===================================================================== *)
(** ** Notions used to state further properties *)
(* ===================================================================== *)

Module FitNotions.

Import TextFit.

(** The lines a loop state stands for, joined by single spaces, spell the
    words seen so far. *)
Definition spells (st : list pystr * pystr) (seen : list pystr) : Prop :=
  let flushed := fst st ++ (if truthy (snd st) then [snd st] else []) in
  join (u " ") flushed = join (u " ") seen /\ (flushed = [] <-> seen = []).

(** A word of [words] of which at most three leading characters are kept,
    followed by the mark. *)
Definition cut_to_three (words : list pystr) (line : pystr) : Prop :=
  exists word kept dropped,
    In word words /\ word = kept ++ dropped /\ line = kept ++ dots /\ len kept <= 3.

(** Every word that does not fit the budget by itself arrives when no line
    is under construction, as the first word does. *)
Definition wide_words_start_a_line (E : externals) (size budget : Z) (words : list pystr)
  : Prop :=
  forall before word after,
    words = before ++ word :: after ->
    fits E size word budget = false ->
    snd (fold_left (wrap_step E size budget) before ([], [])) = [].

(** The test of the size loop for the lines wrapped at one size. *)
Definition passes (max_height max_lines size : Z) (lines : list pystr) : Prop :=
  Z.of_nat (length lines) * size <= max_height /\ Z.of_nat (length lines) <= max_lines.

End FitNotions.

(* ===================================================================== *)
(** ** Icons *)
(* ===================================================================== *)

Module Icons.

Import ProductText.

(** [color_map] of [get_color_emoji], in insertion order. *)
Definition color_map : list (pystr * pystr) :=
  [
    (u "красный", u "🔴"); (u "red", u "🔴"); (u "синий", u "🔵");
    (u "blue", u "🔵"); (u "зеленый", u "🟢"); (u "green", u "🟢");
    (u "желтый", u "🟡"); (u "yellow", u "🟡"); (u "оранжевый", u "🟠");
    (u "orange", u "🟠"); (u "фиолетовый", u "🟣"); (u "purple", u "🟣");
    (u "розовый", u "🩷"); (u "pink", u "🩷"); (u "фуксия", u "🟣");
    (u "fuchsia", u "🟣"); (u "коричневый", u "🟤"); (u "brown", u "🟤");
    (u "черный", u "⚫"); (u "black", u "⚫"); (u "белый", u "⚪");
    (u "white", u "⚪"); (u "серый", u "🔘"); (u "gray", u "🔘");
    (u "grey", u "🔘"); (u "золотой", u "🟨"); (u "gold", u "🟨");
    (u "серебряный", u "⚪"); (u "silver", u "⚪"); (u "радужный", u "🌈");
    (u "радужная", u "🌈"); (u "радужное", u "🌈"); (u "rainbow", u "🌈");
    (u "разноцветный", u "🌈"); (u "разноцветная", u "🌈"); (u "разноцветное", u "🌈");
    (u "multicolor", u "🌈") ].

(** [dict.get(key, default)] on a table listed in insertion order. *)
Fixpoint dict_get (table : list (pystr * pystr)) (key default : pystr) : pystr :=
  match table with
  | [] => default
  | (k, v) :: rest => if str_eqb key k then v else dict_get rest key default
  end.

Definition get_color_emoji (color : pystr) : pystr := dict_get color_map color [].

Definition box_emoji : pystr := u "📦".

(** [product_type_map] of [get_product_type_emoji], in insertion order.
    The keys ['car'] and ['cars'] are written twice in the source, with the
    same icon; they keep their first position. *)
Definition product_type_map : list (pystr * pystr) :=
  [
    (u "чехол", u "📱"); (u "чехлы", u "📱"); (u "case", u "📱");
    (u "cover", u "📱"); (u "защитн", u "🛡️"); (u "защита", u "🛡️");
    (u "protection", u "🛡️"); (u "стекло", u "🪟"); (u "стекла", u "🪟");
    (u "glass", u "🪟"); (u "пленка", u "🎞️"); (u "пленки", u "🎞️");
    (u "film", u "🎞️"); (u "игрушка", u "🧸"); (u "игрушки", u "🧸");
    (u "toy", u "🧸"); (u "toys", u "🧸"); (u "кукла", u "👸");
    (u "куклы", u "👸"); (u "doll", u "👸"); (u "dolls", u "👸");
    (u "машинка", u "🚗"); (u "машинки", u "🚗"); (u "car", u "🚗");
    (u "cars", u "🚗"); (u "мяч", u "⚽"); (u "мячи", u "⚽");
    (u "ball", u "⚽"); (u "balls", u "⚽"); (u "конструктор", u "🧱");
    (u "конструкторы", u "🧱"); (u "constructor", u "🧱"); (u "пазл", u "🧩");
    (u "пазлы", u "🧩"); (u "puzzle", u "🧩"); (u "puzzles", u "🧩");
    (u "футболка", u "👕"); (u "футболки", u "👕"); (u "t-shirt", u "👕");
    (u "tshirt", u "👕"); (u "рубашка", u "👔"); (u "рубашки", u "👔");
    (u "shirt", u "👔"); (u "shirts", u "👔"); (u "платье", u "👗");
    (u "платья", u "👗"); (u "dress", u "👗"); (u "dresses", u "👗");
    (u "брюки", u "👖"); (u "брюк", u "👖"); (u "pants", u "👖");
    (u "trousers", u "👖"); (u "куртка", u "🧥"); (u "куртки", u "🧥");
    (u "jacket", u "🧥"); (u "jackets", u "🧥"); (u "кроссовки", u "👟");
    (u "кроссовок", u "👟"); (u "sneakers", u "👟"); (u "shoes", u "👟");
    (u "ботинки", u "👢"); (u "ботинок", u "👢"); (u "boots", u "👢");
    (u "шапка", u "🧢"); (u "шапки", u "🧢"); (u "hat", u "🧢");
    (u "cap", u "🧢"); (u "наушники", u "🎧"); (u "наушник", u "🎧");
    (u "headphones", u "🎧"); (u "earphones", u "🎧"); (u "зарядка", u "🔌");
    (u "зарядки", u "🔌"); (u "charger", u "🔌"); (u "charging", u "🔌");
    (u "кабель", u "🔌"); (u "кабели", u "🔌"); (u "cable", u "🔌");
    (u "cables", u "🔌"); (u "аккумулятор", u "🔋"); (u "аккумуляторы", u "🔋");
    (u "battery", u "🔋"); (u "batteries", u "🔋"); (u "динамик", u "🔊");
    (u "динамики", u "🔊"); (u "speaker", u "🔊"); (u "speakers", u "🔊");
    (u "микрофон", u "🎤"); (u "микрофоны", u "🎤"); (u "microphone", u "🎤");
    (u "mic", u "🎤"); (u "лампа", u "💡"); (u "лампы", u "💡");
    (u "lamp", u "💡"); (u "light", u "💡"); (u "свеча", u "🕯️");
    (u "свечи", u "🕯️"); (u "candle", u "🕯️"); (u "candles", u "🕯️");
    (u "ваза", u "🏺"); (u "вазы", u "🏺"); (u "vase", u "🏺");
    (u "vases", u "🏺"); (u "горшок", u "🪴"); (u "горшки", u "🪴");
    (u "pot", u "🪴"); (u "pots", u "🪴"); (u "ковер", u "🪞");
    (u "ковры", u "🪞"); (u "carpet", u "🪞"); (u "rug", u "🪞");
    (u "гантели", u "🏋️"); (u "гантель", u "🏋️"); (u "dumbbell", u "🏋️");
    (u "weights", u "🏋️"); (u "скакалка", u "🪢"); (u "скакалки", u "🪢");
    (u "rope", u "🪢"); (u "jump rope", u "🪢"); (u "велосипед", u "🚲");
    (u "велосипеды", u "🚲"); (u "bicycle", u "🚲"); (u "bike", u "🚲");
    (u "ролики", u "🛼"); (u "ролик", u "🛼"); (u "skates", u "🛼");
    (u "skate", u "🛼"); (u "книга", u "📚"); (u "книги", u "📚");
    (u "book", u "📚"); (u "books", u "📚"); (u "тетрадь", u "📓");
    (u "тетради", u "📓"); (u "notebook", u "📓"); (u "notebooks", u "📓");
    (u "ручка", u "✏️"); (u "ручки", u "✏️"); (u "pen", u "✏️");
    (u "pens", u "✏️"); (u "карандаш", u "✏️"); (u "карандаши", u "✏️");
    (u "pencil", u "✏️"); (u "pencils", u "✏️"); (u "маркер", u "🖍️");
    (u "маркеры", u "🖍️"); (u "marker", u "🖍️"); (u "markers", u "🖍️");
    (u "крем", u "🧴"); (u "кремы", u "🧴"); (u "cream", u "🧴");
    (u "creams", u "🧴"); (u "шампунь", u "🧴"); (u "шампуни", u "🧴");
    (u "shampoo", u "🧴"); (u "shampoos", u "🧴"); (u "мыло", u "🧼");
    (u "мыла", u "🧼"); (u "soap", u "🧼"); (u "soaps", u "🧼");
    (u "зубная", u "🦷"); (u "зубной", u "🦷"); (u "tooth", u "🦷");
    (u "dental", u "🦷"); (u "щетка", u "🪥"); (u "щетки", u "🪥");
    (u "brush", u "🪥"); (u "brushes", u "🪥"); (u "тарелка", u "🍽️");
    (u "тарелки", u "🍽️"); (u "plate", u "🍽️"); (u "plates", u "🍽️");
    (u "чашка", u "☕"); (u "чашки", u "☕"); (u "cup", u "☕");
    (u "cups", u "☕"); (u "ложка", u "🥄"); (u "ложки", u "🥄");
    (u "spoon", u "🥄"); (u "spoons", u "🥄"); (u "вилка", u "🍴");
    (u "вилки", u "🍴"); (u "fork", u "🍴"); (u "forks", u "🍴");
    (u "нож", u "🔪"); (u "ножи", u "🔪"); (u "knife", u "🔪");
    (u "knives", u "🔪"); (u "автомобиль", u "🚗"); (u "автомобили", u "🚗");
    (u "машина", u "🚗"); (u "машины", u "🚗"); (u "auto", u "🚗");
    (u "vehicle", u "🚗"); (u "шина", u "🛞"); (u "шины", u "🛞");
    (u "tire", u "🛞"); (u "tyre", u "🛞"); (u "диск", u "🛞");
    (u "диски", u "🛞"); (u "wheel", u "🛞"); (u "rim", u "🛞") ].

Definition get_product_type_emoji (product_name : pystr) : pystr :=
  if negb (truthy product_name) || str_eqb product_name NA then box_emoji
  else
    match first_pattern (lower product_name) product_type_map with
    | Some emoji => emoji
    | None => box_emoji
    end.

(** The icon of one order line in the order lists: the type icon, followed
    by the colour icon when the product details are known and the colour
    has one. *)
Definition line_emoji (details : option product_data) (product_name : pystr) : pystr :=
  match details with
  | Some detailed_product =>
      let color := extract_color_from_product detailed_product product_name in
      let color_emoji := get_color_emoji (lower color) in
      let type_emoji := get_product_type_emoji product_name in
      if truthy color_emoji then type_emoji ++ color_emoji else type_emoji
  | None => get_product_type_emoji product_name
  end.

End Icons.

(* ===================================================================== *)
(** ** Posting numbers *)
(* ===================================================================== *)

Module Postings.

(** The characters of a marketplace posting number such as
    ["12345678-0001-1"]: decimal digits and hyphens. *)
Definition posting_chars (s : pystr) : bool :=
  forallb (fun c => is_ascii_digit c || (c =? 45)%N) s.

(** What the dispatching code does with a button press once the sender is
    admitted: at most one recorded call or message, or the [ValueError] of
    [int()] in one of the two branches that read a number, before any
    call.  The outcome of a called handler is not described. *)
Definition press_shape (data : pystr) (o : Bot.outcome) : Prop :=
  match o with
  | Bot.Completed trace => (length trace <= 1)%nat
  | Bot.Raised trace exception =>
      trace = [] /\ exception = u "ValueError"
      /\ (startswith data (u "products_page_") = true
          \/ startswith data (u "update_stock_") = true)
  end.

End Postings.

(* ===================================================================== *)
(** * Properties *)
(* ===================================================================== *)

(** ** The margin cropper *)

Section CropFacts.

Variable img : image.

Lemma first_content_seq (n a : nat) :
  match first_content img (map Z.of_nat (seq a n)) with
  | Some x =>
      Z.of_nat a <= x < Z.of_nat (a + n) /\ has_content img x = true
      /\ forall x', Z.of_nat a <= x' < x -> has_content img x' = false
  | None => forall x, Z.of_nat a <= x < Z.of_nat (a + n) -> has_content img x = false
  end.
Proof.
  revert a. induction n as [|n IH]; intros a; simpl.
  - intros x Hx. lia.
  - destruct (has_content img (Z.of_nat a)) eqn:Ha.
    + split; [lia | split; [assumption | intros x' Hx'; lia]].
    + specialize (IH (S a)). destruct (first_content img (map Z.of_nat (seq (S a) n))) as [x|].
      * destruct IH as (Hb & Hc & Hmin). split; [lia | split; [assumption |]].
        intros x' Hx'. destruct (Z.eq_dec x' (Z.of_nat a)) as [->|Hne]; auto.
        apply Hmin. lia.
      * intros x Hx. destruct (Z.eq_dec x (Z.of_nat a)) as [->|Hne]; auto.
        apply IH. lia.
Qed.

Lemma first_content_rev_seq (n : nat) :
  match first_content img (rev (map Z.of_nat (seq 0 n))) with
  | Some x =>
      0 <= x < Z.of_nat n /\ has_content img x = true
      /\ forall x', x < x' < Z.of_nat n -> has_content img x' = false
  | None => forall x, 0 <= x < Z.of_nat n -> has_content img x = false
  end.
Proof.
  induction n as [|n IH].
  - simpl. intros x Hx. lia.
  - rewrite seq_S, map_app, rev_app_distr. simpl.
    destruct (has_content img (Z.of_nat n)) eqn:Hn.
    + split; [lia | split; [assumption | intros x' Hx'; lia]].
    + destruct (first_content img (rev (map Z.of_nat (seq 0 n)))) as [x|].
      * destruct IH as (Hb & Hc & Hmax). split; [lia | split; [assumption |]].
        intros x' Hx'. destruct (Z.eq_dec x' (Z.of_nat n)) as [->|Hne]; auto.
        apply Hmax. lia.
      * intros x Hx. destruct (Z.eq_dec x (Z.of_nat n)) as [->|Hne]; auto.
        apply IH. lia.
Qed.

(** The scan from the left stops at the least column with content. *)
Lemma scan_left_spec :
  match first_content img (range (width img)) with
  | Some x =>
      0 <= x < width img /\ has_content img x = true
      /\ forall x', 0 <= x' < x -> has_content img x' = false
  | None => forall x, 0 <= x < width img -> has_content img x = false
  end.
Proof.
  unfold range. pose proof (first_content_seq (Z.to_nat (width img)) 0) as H.
  destruct (first_content img _) as [x|].
  - destruct H as (Hb & Hc & Hmin). split; [lia | split; [assumption |]].
    intros x' Hx'. apply Hmin. lia.
  - intros x Hx. apply H. lia.
Qed.

(** The scan from the right stops at the greatest column with content. *)
Lemma scan_right_spec :
  match first_content img (range_down (width img)) with
  | Some x =>
      0 <= x < width img /\ has_content img x = true
      /\ forall x', x < x' < width img -> has_content img x' = false
  | None => forall x, 0 <= x < width img -> has_content img x = false
  end.
Proof.
  unfold range_down, range. pose proof (first_content_rev_seq (Z.to_nat (width img))) as H.
  destruct (first_content img _) as [x|].
  - destruct H as (Hb & Hc & Hmax). split; [lia | split; [assumption |]].
    intros x' Hx'. apply Hmax. lia.
  - intros x Hx. apply H. lia.
Qed.

Lemma scan_left_first (x : Z) :
  0 <= x < width img -> has_content img x = true ->
  (forall x', 0 <= x' < x -> has_content img x' = false) ->
  first_content img (range (width img)) = Some x.
Proof.
  intros Hx Hc Hmin. pose proof scan_left_spec as H.
  destruct (first_content img (range (width img))) as [x0|].
  - destruct H as (Hb & Hc0 & Hmin0). f_equal.
    destruct (Z.lt_trichotomy x0 x) as [Hlt|[Heq|Hgt]]; auto.
    + rewrite Hmin in Hc0 by lia. discriminate.
    + rewrite Hmin0 in Hc by lia. discriminate.
  - rewrite H in Hc by lia. discriminate.
Qed.

Lemma scan_right_last (x : Z) :
  0 <= x < width img -> has_content img x = true ->
  (forall x', x < x' < width img -> has_content img x' = false) ->
  first_content img (range_down (width img)) = Some x.
Proof.
  intros Hx Hc Hmax. pose proof scan_right_spec as H.
  destruct (first_content img (range_down (width img))) as [x0|].
  - destruct H as (Hb & Hc0 & Hmax0). f_equal.
    destruct (Z.lt_trichotomy x0 x) as [Hlt|[Heq|Hgt]]; auto.
    + rewrite Hmax0 in Hc by lia. discriminate.
    + rewrite Hmax in Hc0 by lia. discriminate.
  - rewrite H in Hc by lia. discriminate.
Qed.

End CropFacts.

Lemma existsb_pointwise {A : Type} (f g : A -> bool) (l : list A) :
  (forall a, f a = g a) -> existsb f l = existsb g l.
Proof.
  intros Hfg. induction l as [|a l IH]; simpl; [reflexivity|]. now rewrite Hfg, IH.
Qed.

(** Cropping columns keeps the height, so the sampled rows and the content
    test of the surviving columns are unchanged. *)
Lemma has_content_crop (img : image) (l r x : Z) :
  has_content (crop img l 0 r (height img)) x = has_content img (x + l).
Proof.
  unfold has_content, sample_rows. simpl. rewrite Z.sub_0_r.
  apply existsb_pointwise. intros y. now rewrite Z.add_0_r.
Qed.

Lemma crop_is_stable (img : image) (x0 x1 : Z) :
  first_content img (range (width img)) = Some x0 ->
  first_content img (range_down (width img)) = Some x1 ->
  let l := Z.max 0 (x0 - 10) in
  let r := Z.min (width img) (x1 + 10) in
  smart_crop_image (crop img l 0 r (height img)) = crop img l 0 r (height img).
Proof.
  intros H0 H1 l r.
  pose proof (scan_left_spec img) as HL. rewrite H0 in HL. destruct HL as (Hb0 & Hc0 & Hmin0).
  pose proof (scan_right_spec img) as HR. rewrite H1 in HR. destruct HR as (Hb1 & Hc1 & Hmax1).
  assert (x0 <= x1) as Hle.
  { destruct (Z_le_gt_dec x0 x1); auto. rewrite Hmax1 in Hc0 by lia. discriminate. }
  set (img' := crop img l 0 r (height img)).
  assert (width img' = r - l) as Hw by reflexivity.
  assert (first_content img' (range (width img')) = Some (x0 - l)) as HL'.
  { apply scan_left_first.
    - rewrite Hw. subst l r. lia.
    - unfold img'. rewrite has_content_crop. now replace (x0 - l + l) with x0 by lia.
    - intros x' Hx'. unfold img'. rewrite has_content_crop. apply Hmin0. subst l. lia. }
  assert (first_content img' (range_down (width img')) = Some (x1 - l)) as HR'.
  { apply scan_right_last.
    - rewrite Hw. subst l r. lia.
    - unfold img'. rewrite has_content_crop. now replace (x1 - l + l) with x1 by lia.
    - intros x' Hx'. unfold img'. rewrite has_content_crop. apply Hmax1.
      rewrite Hw in Hx'. subst l r. lia. }
  unfold smart_crop_image, left_boundary, right_boundary. rewrite HL', HR', Hw.
  replace (0 <? Z.max 0 (x0 - l - 10)) with false by (symmetry; apply Z.ltb_ge; subst l; lia).
  replace (Z.min (r - l) (x1 - l + 10) <? r - l - 10) with false
    by (symmetry; apply Z.ltb_ge; subst l r; lia).
  reflexivity.
Qed.

(** C5. The margin cropper is idempotent: cropping an image it has already
    cropped returns that image unchanged. *)
Theorem smart_crop_image_idempotent (img : image) :
  smart_crop_image (smart_crop_image img) = smart_crop_image img.
Proof.
  destruct ((0 <? left_boundary img) || (right_boundary img <? width img - 10)) eqn:Hguard.
  - assert (smart_crop_image img
            = crop img (left_boundary img) 0 (right_boundary img) (height img)) as ->
      by (unfold smart_crop_image; now rewrite Hguard).
    unfold left_boundary, right_boundary in *.
    pose proof (scan_left_spec img) as HL. pose proof (scan_right_spec img) as HR.
    destruct (first_content img (range (width img))) as [x0|] eqn:H0;
      destruct (first_content img (range_down (width img))) as [x1|] eqn:H1.
    + now apply crop_is_stable.
    + destruct HL as (Hb & Hc & _). rewrite HR in Hc by lia. discriminate.
    + destruct HR as (Hb & Hc & _). rewrite HL in Hc by lia. discriminate.
    + apply orb_true_iff in Hguard as [Hg|Hg]; [discriminate|].
      apply Z.ltb_lt in Hg. lia.
  - assert (smart_crop_image img = img) as Hid
      by (unfold smart_crop_image; now rewrite Hguard).
    now rewrite !Hid.
Qed.

(** ** The crop window *)

Import SpecWords.

Lemma is_content_spec (p : pixel) :
  is_content p = true <-> some_channel_below_threshold p.
Proof.
  destruct p as [[|r [|g [|b rest]]]|v]; simpl; try (split; [discriminate|tauto]).
  - rewrite !orb_true_iff, !Z.ltb_lt. tauto.
  - apply Z.ltb_lt.
Qed.

(** [range(0, stop, step)] lists the multiples of [step] below [stop]. *)
Lemma range_step_spec (stop step y : Z) :
  0 < step ->
  In y (range_step stop step) <-> 0 <= y < stop /\ y mod step = 0.
Proof.
  intros Hstep. unfold range_step. rewrite in_map_iff. split.
  - intros (k & <- & Hk). apply in_seq in Hk.
    assert (Z.of_nat k < (stop + step - 1) / step) as Hlt by lia.
    split; [|apply Z.mod_mul; lia].
    split; [nia|].
    assert (step * (Z.of_nat k + 1) <= stop + step - 1); [|nia].
    transitivity (step * ((stop + step - 1) / step)); [nia|].
    apply Z.mul_div_le. lia.
  - intros (Hy & Hmod).
    apply Z.mod_divide in Hmod; [|lia]. destruct Hmod as (q & ->).
    assert (0 <= q) by nia.
    exists (Z.to_nat q). split; [lia|].
    apply in_seq. split; [lia|].
    assert (q + 1 <= (stop + step - 1) / step); [|lia].
    apply Z.div_le_lower_bound; nia.
Qed.

(** C4, as stated, fails: a pixel with one channel below 250 marks its
    column as content even when the average of its channels is not below
    250.  [tinted_dot] has channels 249, 255, 255, average 253. *)
Lemma content_test_is_not_the_channel_average :
  ~ (forall (img : image) (x : Z),
        has_content img x = true <->
        exists y, In y (sample_rows img) /\ average_below_threshold (getpixel img x y)).
Proof.
  intros Hclaim.
  destruct (Hclaim Samples.tinted_dot 0) as [Hfwd _].
  destruct (Hfwd eq_refl) as (y & _ & Hy).
  unfold average_below_threshold, channel_average in Hy. simpl in Hy.
  unfold Qlt in Hy. simpl in Hy. lia.
Qed.

(** C4, amended.  The rows sampled are the multiples of
    [max(1, height // 20)] below the height; a column is content exactly
    when some sampled pixel has one of its first three channels below 250
    (for a single-band image: its value below 250); the left edge of the crop
    window is the first content column from the left minus 10, clamped to 0,
    and the right edge the first content column from the right plus 10,
    clamped to the width; without any content column the window is the whole
    width. *)
Theorem crop_window (img : image) :
  (forall y, In y (sample_rows img) <->
             0 <= y < height img /\ y mod Z.max 1 (height img / 20) = 0)
  /\ (forall x, has_content img x = true <->
                exists y, In y (sample_rows img)
                          /\ some_channel_below_threshold (getpixel img x y))
  /\ (forall x, 0 <= x < width img -> has_content img x = true ->
                (forall x', 0 <= x' < x -> has_content img x' = false) ->
                left_boundary img = Z.max 0 (x - 10))
  /\ (forall x, 0 <= x < width img -> has_content img x = true ->
                (forall x', x < x' < width img -> has_content img x' = false) ->
                right_boundary img = Z.min (width img) (x + 10))
  /\ ((forall x, 0 <= x < width img -> has_content img x = false) ->
      left_boundary img = 0 /\ right_boundary img = width img).
Proof.
  split; [|split; [|split; [|split]]].
  - intros y. apply range_step_spec. lia.
  - intros x. unfold has_content. rewrite existsb_exists.
    split; intros (y & Hin & Hy); exists y; (split; [exact Hin|]); now apply is_content_spec.
  - intros x Hx Hc Hmin. unfold left_boundary.
    now rewrite (scan_left_first img x Hx Hc Hmin).
  - intros x Hx Hc Hmax. unfold right_boundary.
    now rewrite (scan_right_last img x Hx Hc Hmax).
  - intros Hnone. unfold left_boundary, right_boundary.
    pose proof (scan_left_spec img) as HL. pose proof (scan_right_spec img) as HR.
    destruct (first_content img (range (width img))) as [x0|].
    { destruct HL as (Hb & Hc & _). rewrite Hnone in Hc by lia. discriminate. }
    destruct (first_content img (range_down (width img))) as [x1|].
    { destruct HR as (Hb & Hc & _). rewrite Hnone in Hc by lia. discriminate. }
    now split.
Qed.

Lemma strip_content (x : Z) :
  has_content Samples.strip x = (25 <=? x) && (x <? 35).
Proof.
  unfold has_content. simpl.
  destruct ((25 <=? x) && (x <? 35)); reflexivity.
Qed.

(** The window of [strip], whose content columns are 25..34, is 15..44. *)
Lemma crop_window_witness :
  left_boundary Samples.strip = 15 /\ right_boundary Samples.strip = 44.
Proof.
  destruct (crop_window Samples.strip) as (_ & _ & Hleft & Hright & _).
  split.
  - apply (Hleft 25).
    + simpl. lia.
    + reflexivity.
    + intros x' Hx'. rewrite strip_content. apply andb_false_iff. left. apply Z.leb_gt. lia.
  - apply (Hright 34).
    + simpl. lia.
    + reflexivity.
    + intros x' Hx'. rewrite strip_content. apply andb_false_iff. right. apply Z.ltb_ge. lia.
Defined.

(** ** Text fitting *)

Section FitFacts.

Import TextFit.

Context (E : externals).

Lemma fits_spec (size : Z) (s : pystr) (budget : Z) :
  fits E size s budget = true <-> (textlength E size s <= inject_Z budget)%Q.
Proof. apply Qle_bool_iff. Qed.

Lemma test_line_empty (word : pystr) : test_line [] word = word.
Proof. reflexivity. Qed.

Lemma truthy_false (s : pystr) : truthy s = false -> s = [].
Proof. destruct s; [reflexivity|discriminate]. Qed.

Lemma truthy_true (s : pystr) : truthy s = true -> s <> [].
Proof. destruct s; [discriminate|congruence]. Qed.

(** When every word fits the budget by itself, both wrapping loops keep
    every finished line and the line under construction within the budget. *)
Lemma within_snoc (size budget : Z) (lines : list pystr) (cur next : pystr) :
  within E size budget (lines, cur) -> cur <> [] ->
  (next = [] \/ fits E size next budget = true) ->
  within E size budget (lines ++ [cur], next).
Proof.
  intros [Hl Hc] Hne Hnext. split; simpl in *; [|exact Hnext].
  intros l Hin. apply in_app_or in Hin as [Hin|[<-|[]]]; [auto|].
  destruct Hc; [contradiction|assumption].
Qed.

Lemma wrap_step_within (size budget : Z) (st : list pystr * pystr) (word : pystr) :
  fits E size word budget = true ->
  within E size budget st -> within E size budget (wrap_step E size budget st word).
Proof.
  intros Hw Hst. destruct st as [lines cur]. unfold wrap_step.
  destruct (fits E size (test_line cur word) budget) eqn:Htest.
  - split; [apply Hst|]. right. exact Htest.
  - destruct (truthy cur) eqn:Hcur.
    + apply within_snoc; auto using truthy_true.
    + apply truthy_false in Hcur. subst cur. rewrite test_line_empty in Htest. congruence.
Qed.

Lemma wrap_step_plain_within (size budget : Z) (st : list pystr * pystr) (word : pystr) :
  fits E size word budget = true ->
  within E size budget st -> within E size budget (wrap_step_plain E size budget st word).
Proof.
  intros Hw Hst. destruct st as [lines cur]. unfold wrap_step_plain.
  destruct (fits E size (test_line cur word) budget) eqn:Htest.
  - split; [apply Hst|]. right. exact Htest.
  - destruct (truthy cur) eqn:Hcur.
    + apply within_snoc; auto using truthy_true.
    + apply truthy_false in Hcur. subst cur. rewrite test_line_empty in Htest. congruence.
Qed.

Lemma fold_within (step : list pystr * pystr -> pystr -> list pystr * pystr)
      (size budget : Z) (words : list pystr) :
  (forall st w, fits E size w budget = true -> within E size budget st ->
                within E size budget (step st w)) ->
  (forall w, In w words -> fits E size w budget = true) ->
  forall st, within E size budget st -> within E size budget (fold_left step words st).
Proof.
  intros Hstep. induction words as [|w words IH]; intros Hall st Hst; simpl; [exact Hst|].
  apply IH.
  - intros w' Hin. apply Hall. now right.
  - apply Hstep; [apply Hall; now left | exact Hst].
Qed.

Lemma wrap_with_within (step : list pystr * pystr -> pystr -> list pystr * pystr)
      (size budget : Z) (words : list pystr) :
  (forall st w, fits E size w budget = true -> within E size budget st ->
                within E size budget (step st w)) ->
  (forall w, In w words -> fits E size w budget = true) ->
  forall l, In l (wrap_with step words) -> fits E size l budget = true.
Proof.
  intros Hstep Hall l. unfold wrap_with.
  assert (within E size budget (fold_left step words ([], []))) as Hfin.
  { apply fold_within; auto. split; simpl; [tauto | now left]. }
  destruct (fold_left step words ([], [])) as [lines cur]. destruct Hfin as [Hl Hc].
  simpl in *. destruct (truthy cur) eqn:Hcur; [|auto].
  intros Hin. apply in_app_or in Hin as [Hin|[<-|[]]]; [auto|].
  destruct Hc as [->|Hc]; [discriminate|exact Hc].
Qed.

(** The size loop returns a candidate size together with the wrapping made
    at that size, and only when the height and line-count test passes. *)
Lemma try_sizes_spec (wrapper : Z -> list pystr) (max_height max_lines : Z)
      (font_sizes : list Z) (size : Z) (lines : list pystr) :
  try_sizes wrapper max_height max_lines font_sizes = Some (size, lines) ->
  In size font_sizes /\ lines = wrapper size
  /\ Z.of_nat (length lines) * size <= max_height /\ Z.of_nat (length lines) <= max_lines.
Proof.
  induction font_sizes as [|s rest IH]; simpl; [discriminate|].
  destruct (_ && _) eqn:Htest.
  - intros [= <- <-]. apply andb_true_iff in Htest as [H1 H2].
    apply Z.leb_le in H1, H2. auto.
  - intros H. destruct (IH H) as (Hin & Hrest). auto.
Qed.

(** The truncation loop drops characters from the end and stops as soon as
    the marked word fits or only three characters are left. *)
Lemma truncate_loop_spec (size budget : Z) (fuel : nat) (word : pystr) :
  (length word <= fuel)%nat ->
  let t := truncate_loop E size budget fuel word in
  (exists dropped, word = t ++ dropped)
  /\ (fits E size (t ++ dots) budget = true \/ len t <= 3).
Proof.
  revert word. induction fuel as [|fuel IH]; intros word Hlen; simpl.
  - destruct word; [|simpl in Hlen; lia]. split; [now exists []|right; unfold len; simpl; lia].
  - destruct (negb (fits E size (word ++ dots) budget) && (3 <? len word)) eqn:Hgo.
    + apply andb_true_iff in Hgo as [_ Hlong]. apply Z.ltb_lt in Hlong.
      assert (word <> []) as Hne by (intros ->; unfold len in Hlong; simpl in Hlong; lia).
      destruct (IH (removelast word)) as ((dropped & Hd) & Hstop).
      { pose proof (app_removelast_last 0%N Hne) as Hw.
        apply (f_equal (@length N)) in Hw. rewrite length_app in Hw. simpl in Hw. lia. }
      split; [|exact Hstop].
      exists (dropped ++ [List.last word 0%N]).
      rewrite app_assoc, <- Hd. now apply app_removelast_last.
    + split; [exists []; now rewrite app_nil_r|].
      apply andb_false_iff in Hgo as [Hfit|Hshort].
      * left. now apply negb_false_iff in Hfit.
      * right. now apply Z.ltb_ge in Hshort.
Qed.

(** No more is dropped than needed: every longer prefix of the word is
    over-wide with the mark and longer than three characters. *)
Lemma truncate_loop_longest (size budget : Z) (fuel : nat) (word : pystr) :
  (length word <= fuel)%nat ->
  forall kept dropped,
    word = kept ++ dropped ->
    len (truncate_loop E size budget fuel word) < len kept ->
    fits E size (kept ++ dots) budget = false /\ 3 < len kept.
Proof.
  revert word. induction fuel as [|fuel IH]; intros word Hlen kept dropped Hword Hlonger.
  - destruct word; [|cbn in Hlen; lia].
    destruct kept; [|discriminate]. cbn in Hlonger. lia.
  - cbn [truncate_loop] in Hlonger.
    assert (length word = (length kept + length dropped)%nat) as Hsum
        by (rewrite Hword; apply length_app).
    destruct (negb (fits E size (word ++ dots) budget) && (3 <? len word)) eqn:Hgo.
    + destruct dropped as [|c dropped].
      * rewrite app_nil_r in Hword. subst kept.
        apply andb_true_iff in Hgo as [Hwide Hlong].
        apply negb_true_iff in Hwide. apply Z.ltb_lt in Hlong. now split.
      * assert (removelast word = kept ++ removelast (c :: dropped)) as Hshort
            by (rewrite Hword; apply removelast_app; discriminate).
        apply (IH (removelast word)) with (dropped := removelast (c :: dropped));
          [|exact Hshort|exact Hlonger].
        assert (word <> []) as Hne by (rewrite Hword; destruct kept; discriminate).
        pose proof (app_removelast_last 0%N Hne) as Hw.
        apply (f_equal (@length N)) in Hw. rewrite length_app in Hw. cbn in Hw. lia.
    + unfold len in Hlonger. lia.
Qed.

(** A single word is emitted whole when it fits and cut otherwise. *)
Lemma wrap_single (size budget : Z) (word : pystr) :
  word <> [] ->
  wrap E size budget [word]
  = if fits E size word budget then [word]
    else [truncate_word E size budget word ++ dots].
Proof.
  intros Hne. unfold wrap, wrap_with. simpl. rewrite test_line_empty.
  destruct (fits E size word budget) eqn:Hfit; simpl.
  - destruct word; [contradiction|reflexivity].
  - reflexivity.
Qed.

End FitFacts.

(** A text without white space is a single word. *)
Lemma split_aux_unbroken (s cur : pystr) :
  (forall c, In c s -> isspace c = false) ->
  split_aux s cur = if truthy (cur ++ s) then [cur ++ s] else [].
Proof.
  revert cur. induction s as [|c s IH]; intros cur Hs; simpl.
  - now rewrite app_nil_r.
  - rewrite (Hs c) by now left.
    rewrite IH by (intros c' Hin; apply Hs; now right).
    now rewrite <- app_assoc.
Qed.

Lemma split_unbroken (text : pystr) :
  text <> [] -> (forall c, In c text -> isspace c = false) -> split text = [text].
Proof.
  intros Hne Hs. unfold split. rewrite split_aux_unbroken by exact Hs.
  destruct text; [contradiction|reflexivity].
Qed.

Section WrapShapes.

Import TextFit FitNotions.

Context (E : externals).

(** With overflow control, and over-wide words arriving on an empty line
    only, every finished line fits or is a word cut to three characters,
    and the line under construction fits. *)
Lemma wrap_prefix_shape (size budget : Z) (words : list pystr) :
  wide_words_start_a_line E size budget words ->
  forall seen rest,
    words = seen ++ rest ->
    let st := fold_left (wrap_step E size budget) seen ([], []) in
    (forall l, In l (fst st) -> fits E size l budget = true \/ cut_to_three words l)
    /\ (snd st = [] \/ fits E size (snd st) budget = true).
Proof.
  intros Hstart seen. induction seen as [|word seen IH] using rev_ind; intros rest Hwords.
  - cbn. split; [intros l []|now left].
  - rewrite <- app_assoc in Hwords. cbn [app] in Hwords.
    specialize (IH (word :: rest) Hwords). cbv zeta in IH |- *.
    rewrite fold_left_app. cbn [fold_left].
    pose proof (Hstart seen word rest Hwords) as Hempty.
    destruct (fold_left (wrap_step E size budget) seen ([], [])) as [lines current_line].
    cbn [fst snd] in IH, Hempty. destruct IH as [Hlines Hcur].
    unfold wrap_step.
    destruct (fits E size (test_line current_line word) budget) eqn:Htest; cbn [fst snd].
    { split; [exact Hlines|now right]. }
    destruct (truthy current_line) eqn:Hfull; cbn [fst snd].
    { split.
      - intros l Hin. apply in_app_or in Hin as [Hin|[<-|[]]]; [now apply Hlines|].
        left. destruct Hcur as [->|Hfit]; [discriminate|exact Hfit].
      - destruct (fits E size word budget) eqn:Hword; [now right|].
        rewrite (Hempty eq_refl) in Hfull. discriminate. }
    destruct (fits E size word budget) eqn:Hword; cbn [negb fst snd].
    { split; [exact Hlines|now right]. }
    split; [|now left].
    intros l Hin. apply in_app_or in Hin as [Hin|[<-|[]]]; [now apply Hlines|].
    destruct (truncate_loop_spec E size budget (length word) word (Nat.le_refl _))
      as ((dropped & Hdropped) & [Hfit|Hshort]).
    + left. exact Hfit.
    + right. exists word, (truncate_word E size budget word), dropped.
      split; [rewrite Hwords; apply in_or_app; right; now left|].
      split; [exact Hdropped|]. split; [reflexivity|exact Hshort].
Qed.

Lemma wrap_shape (size budget : Z) (words : list pystr) :
  wide_words_start_a_line E size budget words ->
  forall l, In l (wrap E size budget words) ->
            fits E size l budget = true \/ cut_to_three words l.
Proof.
  intros Hstart l. unfold wrap, wrap_with.
  pose proof (wrap_prefix_shape size budget words Hstart words [] (eq_sym (app_nil_r _)))
    as Hshape. cbv zeta in Hshape.
  destruct (fold_left (wrap_step E size budget) words ([], [])) as [lines current_line].
  cbn [fst snd] in Hshape. destruct Hshape as [Hlines Hcur].
  destruct (truthy current_line) eqn:Hfull; [|apply Hlines].
  intros Hin. apply in_app_or in Hin as [Hin|[<-|[]]]; [now apply Hlines|].
  left. destruct Hcur as [->|Hfit]; [discriminate|exact Hfit].
Qed.

(** Without overflow control every finished line fits or is one word of
    the text, and so is the line under construction. *)
Lemma fold_plain_shape (size budget : Z) (words seen : list pystr)
      (st : list pystr * pystr) :
  (forall w, In w seen -> In w words) ->
  (forall l, In l (fst st) -> fits E size l budget = true \/ In l words) ->
  (snd st = [] \/ fits E size (snd st) budget = true \/ In (snd st) words) ->
  let st' := fold_left (wrap_step_plain E size budget) seen st in
  (forall l, In l (fst st') -> fits E size l budget = true \/ In l words)
  /\ (snd st' = [] \/ fits E size (snd st') budget = true \/ In (snd st') words).
Proof.
  revert st. induction seen as [|word seen IH]; intros [lines current_line] Hseen Hlines Hcur.
  - cbn. auto.
  - cbn [fold_left]. cbn [fst snd] in Hlines, Hcur.
    apply IH; [intros w Hin; apply Hseen; now right| |]; unfold wrap_step_plain;
      destruct (fits E size (test_line current_line word) budget) eqn:Htest; cbn [fst snd];
      try destruct (truthy current_line) eqn:Hfull; cbn [fst snd]; auto.
    + intros l Hin. apply in_app_or in Hin as [Hin|[<-|[]]]; [now apply Hlines|].
      destruct Hcur as [->|Hcur]; [discriminate|exact Hcur].
    + intros l Hin. apply in_app_or in Hin as [Hin|[<-|[]]]; [now apply Hlines|].
      right. apply Hseen. now left.
    + right. right. apply Hseen. now left.
Qed.

Lemma wrap_plain_shape (size budget : Z) (words : list pystr) :
  forall l, In l (wrap_plain E size budget words) ->
            fits E size l budget = true \/ In l words.
Proof.
  intros l. unfold wrap_plain, wrap_with.
  pose proof (fold_plain_shape size budget words words ([], []) (fun w H => H)
                (fun l0 (H : In l0 []) => match H with end) (or_introl eq_refl)) as Hshape.
  cbv zeta in Hshape.
  destruct (fold_left (wrap_step_plain E size budget) words ([], [])) as [lines current_line].
  cbn [fst snd] in Hshape. destruct Hshape as [Hlines Hcur].
  destruct (truthy current_line) eqn:Hfull; [|apply Hlines].
  intros Hin. apply in_app_or in Hin as [Hin|[<-|[]]]; [now apply Hlines|].
  destruct Hcur as [->|Hcur]; [discriminate|exact Hcur].
Qed.

End WrapShapes.

Section FitTheorems.

Import TextFit FitNotions.

(** C3, as stated, fails: the fitter of [generate_barcode_image] accepts an
    over-wide single word as a line.  With box glyphs, a 70-character word
    is 1400 pixels wide at size 40 and is accepted for a 1303-pixel box. *)
Lemma accepted_line_wider_than_max_width :
  ~ (forall (E : externals) (text : pystr) (max_width max_height : Z),
        let wide f cap :=
          (f_path f = Accepted ->
           forall l, In l (f_lines f) -> (textlength E (f_size f) l <= inject_Z max_width)%Q)
          /\ (f_path f = LastResort -> Z.of_nat (length (f_lines f)) <= cap) in
        wide (fit_smart_label E text max_width max_height) 4
        /\ wide (fit_barcode E text max_width max_height) 3).
Proof.
  intros Hclaim.
  destruct (Hclaim Samples.box_externals Samples.long_word 1303 50) as [_ [Hacc _]].
  assert (fit_barcode Samples.box_externals Samples.long_word 1303 50
          = mkFitted Accepted 40 [Samples.long_word]) as Hfit by (vm_compute; reflexivity).
  rewrite Hfit in Hacc. simpl in Hacc.
  specialize (Hacc eq_refl Samples.long_word (or_introl eq_refl)).
  vm_compute in Hacc. now apply Hacc.
Qed.

(** C3, amended.  In the accepted path the line count is within the cap: 4
    lines in [generate_smart_label], 3 in [generate_barcode_image].  The
    fitter of [generate_barcode_image] has no overflow control: each of its
    lines fits [max_width] or is one word of the text, emitted whole.  The
    fitter of [generate_smart_label] has: each of its lines fits
    [max_width - 20] or is a word cut to at most three characters and
    marked with ["..."], provided every word that does not fit by itself
    arrives when no line is under construction.  The last-resort path emits
    at most 3, respectively 2, lines. *)
Theorem fitted_lines_within_budget (E : externals) (text : pystr) (max_width max_height : Z) :
  let smart := fit_smart_label E text max_width max_height in
  let plain := fit_barcode E text max_width max_height in
  (f_path smart = Accepted ->
   Z.of_nat (length (f_lines smart)) <= 4
   /\ (wide_words_start_a_line E (f_size smart) (max_width - 20) (split text) ->
       forall l, In l (f_lines smart) ->
                 (textlength E (f_size smart) l <= inject_Z (max_width - 20))%Q
                 \/ cut_to_three (split text) l))
  /\ (f_path smart = LastResort -> Z.of_nat (length (f_lines smart)) <= 3)
  /\ (f_path plain = Accepted ->
      Z.of_nat (length (f_lines plain)) <= 3
      /\ forall l, In l (f_lines plain) ->
                   (textlength E (f_size plain) l <= inject_Z max_width)%Q
                   \/ In l (split text))
  /\ (f_path plain = LastResort -> Z.of_nat (length (f_lines plain)) <= 2).
Proof.
  unfold fit_smart_label, fit_barcode, fit_with. cbv zeta.
  split; [|split; [|split]].
  - destruct (try_sizes _ _ _ _) as [[size lines]|] eqn:Htry; cbn [f_path f_size f_lines];
      [|discriminate].
    intros _. apply try_sizes_spec in Htry as (_ & -> & _ & Hcap).
    split; [exact Hcap|].
    intros Hstart l Hin. destruct (wrap_shape E _ _ _ Hstart l Hin) as [Hfit|Hcut].
    + left. now apply fits_spec.
    + now right.
  - destruct (try_sizes _ _ _ _) as [[size lines]|]; cbn [f_path f_lines]; [discriminate|].
    intros _. rewrite length_firstn. lia.
  - destruct (try_sizes _ _ _ _) as [[size lines]|] eqn:Htry; cbn [f_path f_size f_lines];
      [|discriminate].
    intros _. apply try_sizes_spec in Htry as (_ & -> & _ & Hcap).
    split; [exact Hcap|].
    intros l Hin. destruct (wrap_plain_shape E _ _ _ l Hin) as [Hfit|Hword].
    + left. now apply fits_spec.
    + now right.
  - destruct (try_sizes _ _ _ _) as [[size lines]|]; cbn [f_path f_lines]; [discriminate|].
    intros _. rewrite length_firstn. lia.
Qed.

(** On a canvas 300 pixels wide the 70-character word is cut to 8 characters
    and the mark, 275 pixels with box glyphs at size 50, and the word after
    it starts a line of its own: both lines are within the 280 pixels. *)
Lemma fitted_lines_within_budget_witness :
  fit_smart_label Samples.box_externals (Samples.long_word ++ u " x1") 300 200
  = mkFitted Accepted 50 [repeat 87%N 8 ++ dots; u "x1"]
  /\ forall l, In l [repeat 87%N 8 ++ dots; u "x1"] ->
               (textlength Samples.box_externals 50 l <= inject_Z (300 - 20))%Q
               \/ cut_to_three (split (Samples.long_word ++ u " x1")) l.
Proof.
  assert (fit_smart_label Samples.box_externals (Samples.long_word ++ u " x1") 300 200
          = mkFitted Accepted 50 [repeat 87%N 8 ++ dots; u "x1"]) as Hfit
      by (vm_compute; reflexivity).
  split; [exact Hfit|].
  destruct (fitted_lines_within_budget Samples.box_externals
              (Samples.long_word ++ u " x1") 300 200) as (Hsmart & _).
  cbv zeta in Hsmart. rewrite Hfit in Hsmart. cbn [f_path f_size f_lines] in Hsmart.
  destruct (Hsmart eq_refl) as (_ & Hshape).
  apply Hshape.
  intros before word after Hsplit Hwide.
  assert (split (Samples.long_word ++ u " x1") = [Samples.long_word; u "x1"]) as Hwords
      by (vm_compute; reflexivity).
  rewrite Hwords in Hsplit.
  destruct before as [|b1 [|b2 before]].
  - reflexivity.
  - injection Hsplit as _ Hword _. subst word. vm_compute in Hwide. discriminate.
  - injection Hsplit as _ _ Hrest. destruct before; discriminate.
Defined.

(** An over-wide word that follows a non-empty line is not cut: on a canvas
    300 pixels wide the order line is accepted at size 50 as two lines, the
    second one 300 pixels wide with box glyphs, against a budget of 280. *)
Example overwide_second_word :
  fit_smart_label Samples.box_externals (u "Заказ: 12345-0001-1") 300 200
  = mkFitted Accepted 50 [u "Заказ:"; u "12345-0001-1"]
  /\ fits Samples.box_externals 50 (u "12345-0001-1") (300 - 20) = false.
Proof. vm_compute. split; reflexivity. Qed.

(** A word that cannot be cut below three characters is emitted over-wide
    by the loop guard: on a canvas 100 pixels wide the 70-character word is
    accepted at size 50 as three characters and the mark, 150 pixels with
    box glyphs. *)
Example cut_word_wider_than_budget :
  fit_smart_label Samples.box_externals Samples.long_word 100 200
  = mkFitted Accepted 50 [repeat 87%N 3 ++ dots]
  /\ fits Samples.box_externals 50 (repeat 87%N 3 ++ dots) 100 = false.
Proof. vm_compute. split; reflexivity. Qed.

(** C8, as stated, fails: for the empty string the fitter emits no line at
    all, not one empty line. *)
Lemma empty_text_gives_no_line :
  ~ (forall (E : externals) (max_width max_height : Z),
        f_lines (fit_smart_label E [] max_width max_height) = [[]]).
Proof.
  intros Hclaim. specialize (Hclaim Samples.box_externals 1202 200).
  vm_compute in Hclaim. discriminate.
Qed.

(** C8, amended.  For the empty string the fitter emits no line, and it
    settles on the first candidate size, 50, whenever [max_height] is not
    negative.  A non-empty text without white space is one word: at each
    candidate size it is emitted whole when it fits [max_width - 20], and
    otherwise as a prefix followed by ["..."], the prefix being shortened
    from the end until the marked word fits or three characters are left:
    the prefix kept passes that test, and no longer prefix does. *)
Theorem fit_empty_and_unbroken (E : externals) (max_width max_height : Z) :
  f_lines (fit_smart_label E [] max_width max_height) = []
  /\ (0 <= max_height ->
      fit_smart_label E [] max_width max_height = mkFitted Accepted 50 [])
  /\ (forall (text : pystr) (size : Z),
         text <> [] -> (forall c, In c text -> isspace c = false) ->
         let budget := max_width - 20 in
         let cut := truncate_word E size budget text in
         wrap E size budget (split text)
         = (if fits E size text budget then [text] else [cut ++ dots])
         /\ (exists dropped, text = cut ++ dropped)
         /\ (fits E size (cut ++ dots) budget = true \/ len cut <= 3)
         /\ (forall kept dropped,
                text = kept ++ dropped -> len cut < len kept ->
                fits E size (kept ++ dots) budget = false /\ 3 < len kept)).
Proof.
  split; [|split].
  - unfold fit_smart_label, fit_with. simpl.
    repeat (destruct (_ && _); [reflexivity|]). reflexivity.
  - intros Hh. cbv -[Z.leb].
    rewrite (proj2 (Z.leb_le 0 max_height) Hh). reflexivity.
  - intros text size Hne Hs budget cut.
    rewrite (split_unbroken text Hne Hs).
    split; [now apply wrap_single|].
    destruct (truncate_loop_spec E size budget (length text) text (Nat.le_refl _))
      as (Hprefix & Hstop).
    split; [exact Hprefix|]. split; [exact Hstop|].
    apply truncate_loop_longest. lia.
Qed.

(** With box glyphs the 70-character word does not fit 1182 pixels at size
    50 and is cut to 44 characters and the mark; with one character more
    the marked word, 1200 pixels, is over-wide. *)
Lemma fit_empty_and_unbroken_witness :
  fit_smart_label Samples.box_externals [] 1202 200 = mkFitted Accepted 50 []
  /\ wrap Samples.box_externals 50 (1202 - 20) (split Samples.long_word)
     = [repeat 87%N 44 ++ dots]
  /\ fits Samples.box_externals 50 (repeat 87%N 45 ++ dots) (1202 - 20) = false.
Proof.
  destruct (fit_empty_and_unbroken Samples.box_externals 1202 200) as (_ & Hempty & Hword).
  split; [apply Hempty; lia|].
  destruct (Hword Samples.long_word 50) as (Hwrap & _ & _ & Hlongest).
  - discriminate.
  - intros c Hin. apply repeat_spec in Hin. subst c. reflexivity.
  - split; [rewrite Hwrap; vm_compute; reflexivity|].
    apply (Hlongest (repeat 87%N 45) (repeat 87%N 25)).
    + vm_compute. reflexivity.
    + vm_compute. reflexivity.
Defined.

End FitTheorems.

(** ** Composition *)

Section PipelineFacts.

Import TextFit Barcode Label ProductText.

Context (E : externals) (Hok : externals_ok E).

Lemma draw_lines_size (lines : list pystr) (img : image) (x y max_width size i : Z) :
  width (draw_lines E img x y max_width size i lines) = width img
  /\ height (draw_lines E img x y max_width size i lines) = height img.
Proof.
  revert img i. induction lines as [|line rest IH]; intros img i; simpl; [now split|].
  split.
  - rewrite (proj1 (IH _ _)). apply (draw_text_width E Hok).
  - rewrite (proj2 (IH _ _)). apply (draw_text_height E Hok).
Qed.

Lemma draw_fitted_width (img : image) (x y max_width : Z) (f : fitted) :
  width (draw_fitted E img x y max_width f) = width img.
Proof. apply draw_lines_size. Qed.

Lemma draw_fitted_height (img : image) (x y max_width : Z) (f : fitted) :
  height (draw_fitted E img x y max_width f) = height img.
Proof. apply draw_lines_size. Qed.

Lemma smart_label_canvas_width (pdf_img : image) (product_name posting_number : pystr)
      (products_info : option (list product)) :
  width (smart_label_canvas E pdf_img product_name posting_number products_info)
  = Z.min (width (rotate90_expand pdf_img)) 1202.
Proof.
  unfold smart_label_canvas. rewrite !draw_fitted_width. simpl.
  unfold MAX_WIDTH. destruct (1202 <? height pdf_img) eqn:Hcmp.
  - apply Z.ltb_lt in Hcmp. lia.
  - apply Z.ltb_ge in Hcmp. lia.
Qed.

End PipelineFacts.

Lemma left_boundary_nonneg (img : image) : 0 <= left_boundary img.
Proof. unfold left_boundary. destruct (first_content _ _); lia. Qed.

Lemma right_boundary_le_width (img : image) : right_boundary img <= width img.
Proof. unfold right_boundary. destruct (first_content _ _); lia. Qed.

(** The cropper never widens an image, and leaves it alone when the window
    it finds starts at column 0 and ends within 10 pixels of the width. *)
Lemma smart_crop_image_width (img : image) :
  width (smart_crop_image img) <= width img
  /\ (left_boundary img = 0 -> width img - 10 <= right_boundary img ->
      smart_crop_image img = img).
Proof.
  pose proof (left_boundary_nonneg img). pose proof (right_boundary_le_width img).
  unfold smart_crop_image. split.
  - destruct (_ || _); simpl; lia.
  - intros Hl Hr. rewrite Hl.
    replace (right_boundary img <? width img - 10) with false
      by (symmetry; apply Z.ltb_ge; lia).
    reflexivity.
Qed.

Lemma paste_barcodes_width (barcode_images : list image) (img : image) (w y : Z) :
  width (Label.paste_barcodes img w y barcode_images) = width img.
Proof.
  revert img y. induction barcode_images as [|b rest IH]; intros img y; simpl; [reflexivity|].
  now rewrite IH.
Qed.

Lemma combined_canvas_width (label : image) (barcode_images : list image) :
  width (Label.combined_canvas label barcode_images) = width label.
Proof. unfold Label.combined_canvas. now rewrite paste_barcodes_width. Qed.

Lemma box_externals_ok : externals_ok Samples.box_externals.
Proof.
  split; try reflexivity.
  intros img w h img' [= <-]. now split.
Qed.

Lemma margin_externals_ok : externals_ok Samples.margin_externals.
Proof.
  split; try reflexivity.
  intros img w h img' [= <-]. now split.
Qed.

Section PipelineTheorems.

Import TextFit Barcode Label ProductText.

(** C1, as stated, fails: the margin cropper runs last and may trim the
    composite.  A page whose quarter turn is 1000 pixels wide with blank
    columns on both sides yields a label 619 pixels wide, and a 40-pixel
    label stacked with a barcode whose bars span 10 columns yields a
    composite 29 pixels wide. *)
Lemma composite_narrower_than_label :
  ~ (forall (E : externals), externals_ok E ->
        (forall pdf_content product_name posting_number products_info pdf_img rest img,
            fitz_open E pdf_content = Some (Some pdf_img :: rest) ->
            generate_smart_label E pdf_content product_name posting_number products_info
            = Some img ->
            width img = Z.min (width (rotate90_expand pdf_img)) 1202)
        /\ (forall label barcode_images img,
               combine label barcode_images = Some img ->
               width img = Z.min (width label) 1202)).
Proof.
  intros Hclaim.
  destruct (Hclaim Samples.margin_externals margin_externals_ok) as [Hlabel Hcombined].
  specialize (Hcombined Samples.narrow_label [Samples.thin_barcode] _ eq_refl).
  vm_compute in Hcombined. discriminate.
Qed.

(** C1, amended.  The canvas that [generate_smart_label] composes has width
    exactly [min(inputLabelWidth, 1202)], and the canvas of
    [create_combined_barcode_label_image] has the width of the label image
    it is given.  What each of them returns is that canvas after the margin
    cropper: its width is at most the canvas width, and equal to it when the
    cropper finds its window starting at column 0 and ending within 10
    pixels of the right edge. *)
Theorem composite_width (E : externals) (Hok : externals_ok E) :
  (forall pdf_content product_name posting_number products_info img,
      generate_smart_label E pdf_content product_name posting_number products_info = Some img ->
      exists pdf_img rest canvas,
        fitz_open E pdf_content = Some (Some pdf_img :: rest)
        /\ canvas = smart_label_canvas E pdf_img product_name posting_number products_info
        /\ img = smart_crop_image canvas
        /\ width canvas = Z.min (width (rotate90_expand pdf_img)) 1202
        /\ width img <= Z.min (width (rotate90_expand pdf_img)) 1202)
  /\ (forall posting_number products products_by_sku label img,
         create_combined_barcode_label_image E posting_number products products_by_sku label
         = Some img ->
         exists canvas,
           canvas = combined_canvas label (collect_barcodes E products products_by_sku)
           /\ img = smart_crop_image canvas
           /\ width canvas = width label
           /\ width img <= width label)
  /\ (forall canvas,
         left_boundary canvas = 0 -> width canvas - 10 <= right_boundary canvas ->
         width (smart_crop_image canvas) = width canvas).
Proof.
  split; [|split].
  - intros pdf_content product_name posting_number products_info img.
    unfold generate_smart_label.
    destruct (fitz_open E pdf_content) as [[|[pdf_img|] rest]|]; try discriminate.
    intros [= <-]. eexists pdf_img, rest, _. split; [reflexivity|]. split; [reflexivity|].
    split; [reflexivity|].
    pose proof (smart_label_canvas_width E Hok pdf_img product_name posting_number
                                         products_info) as Hw.
    split; [exact Hw|]. rewrite <- Hw. apply smart_crop_image_width.
  - intros posting_number products products_by_sku label img.
    unfold create_combined_barcode_label_image, combine.
    destruct (collect_barcodes E products products_by_sku) as [|b bs] eqn:Hbs; [discriminate|].
    intros [= <-]. eexists. split; [reflexivity|]. split; [reflexivity|].
    pose proof (combined_canvas_width label (b :: bs)) as Hw.
    split; [exact Hw|]. rewrite <- Hw. apply smart_crop_image_width.
  - intros canvas Hl Hr. now rewrite (proj2 (smart_crop_image_width canvas) Hl Hr).
Qed.

(** With the framed sample page, 300 pixels wide after the quarter turn,
    nothing is cropped and the label is 300 pixels wide. *)
Lemma composite_width_witness :
  exists img,
    generate_smart_label Samples.box_externals [] (u "Товар") (u "12345-0001-1") None
    = Some img
    /\ width img <= 300.
Proof.
  destruct (composite_width Samples.box_externals box_externals_ok) as (Hlabel & _ & _).
  eexists. split; [reflexivity|].
  destruct (Hlabel [] (u "Товар") (u "12345-0001-1") None _ eq_refl)
    as (pdf_img & rest & canvas & Hopen & _ & _ & _ & Hle).
  injection Hopen as <- _. exact Hle.
Defined.

End PipelineTheorems.

(** The label made from [margin_page] is cropped to 619 of its 1000 columns. *)
Example margin_label_is_cropped :
  option_map width
    (Label.generate_smart_label Samples.margin_externals [] (u "Товар") (u "12345-0001-1") None)
  = Some 619.
Proof. vm_compute. reflexivity. Qed.

(** ** Barcode images *)

Section BarcodeTheorems.

Import TextFit Barcode.

(** Rounding keeps the sign it is given. *)
Lemma round_aux_nonneg (m e : Z) (l : SpecFloat.location) :
  Binary64.nonneg (SpecFloat.binary_round_aux Binary64.prec Binary64.emax false m e l).
Proof.
  unfold SpecFloat.binary_round_aux.
  destruct (SpecFloat.shr_fexp Binary64.prec Binary64.emax m e l) as [mrs' e'].
  destruct (SpecFloat.shr_fexp Binary64.prec Binary64.emax _ e' SpecFloat.loc_Exact)
    as [mrs'' e''].
  destruct (SpecFloat.shr_m mrs''); [exact I| |exact I].
  destruct (Z.leb e'' (Binary64.emax - Binary64.prec)); [reflexivity|exact I].
Qed.

Lemma of_int_nonneg (n : Z) : 0 <= n -> Binary64.nonneg (Binary64.of_int n).
Proof.
  intros Hn. destruct n as [|m|m]; [exact I| |lia].
  unfold Binary64.of_int, SpecFloat.binary_normalize, SpecFloat.binary_round.
  destruct (SpecFloat.shl_align _ _ _) as [mz ez]. apply round_aux_nonneg.
Qed.

Lemma truediv_nonneg (a b : Z) : 0 <= a -> 0 < b -> Binary64.nonneg (Binary64.truediv a b).
Proof.
  intros Ha Hb. destruct a as [|ma|ma]; destruct b as [|mb|mb]; try lia; try exact I.
  unfold Binary64.truediv, Binary64.exact, SpecFloat.SFdiv.
  destruct (SpecFloat.SFdiv_core_binary _ _ _ _ _ _) as [[mz ez] lz].
  apply round_aux_nonneg.
Qed.

Lemma mul_nonneg (x y : SpecFloat.spec_float) :
  Binary64.nonneg x -> Binary64.nonneg y -> Binary64.nonneg (Binary64.mul x y).
Proof.
  destruct x as [sx|sx| |sx mx ex]; destruct y as [sy|sy| |sy my ey];
    try (intros; exact I).
  cbn [Binary64.nonneg]. intros -> ->. apply round_aux_nonneg.
Qed.

Lemma to_int_nonneg (x : SpecFloat.spec_float) :
  Binary64.nonneg x -> 0 <= Binary64.to_int x.
Proof.
  destruct x as [s|s| |s m e]; cbn [Binary64.nonneg Binary64.to_int]; try lia.
  intros ->. cbn [SpecFloat.cond_Zopp]. apply Z.shiftl_nonneg. lia.
Qed.

Lemma scaled_height_nonneg (w h : Z) : 0 < w -> 0 <= h -> 0 <= scaled_height w h.
Proof.
  intros Hw Hh. unfold scaled_height.
  apply to_int_nonneg, mul_nonneg; [now apply of_int_nonneg|].
  apply truediv_nonneg; [unfold MAX_WIDTH; lia | exact Hw].
Qed.

(** The two roundings show: a symbol of 2302 x 1151 pixels is scaled to a
    height of 600, one less than the exact quotient 601; the sample symbol
    of 1303 x 496 pixels to 457. *)
Example scaled_height_rounds :
  scaled_height 2302 1151 = 600
  /\ 1151 * 1202 / 2302 = 601
  /\ scaled_height 1303 496 = 457.
Proof. vm_compute. repeat split. Qed.

(** Text drawn at or below a row leaves the rows above it as they are. *)
Lemma draw_lines_above (E : externals) (Hdraw : text_below_anchor E)
      (lines : list pystr) (img : image) (x y max_width size i x' y' : Z) :
  0 <= size -> 0 <= i -> y' < y ->
  getpixel (draw_lines E img x y max_width size i lines) x' y' = getpixel img x' y'.
Proof.
  intros Hsize. revert img i. induction lines as [|line rest IH]; intros img i Hi Hy.
  - reflexivity.
  - cbn [draw_lines]. rewrite IH by lia. apply Hdraw. nia.
Qed.

Lemma fit_with_size_nonneg (wrapper : Z -> list pystr) (max_height max_lines : Z)
      (font_sizes : list Z) (last_size : Z) (last_lines : list pystr) :
  (forall s, In s font_sizes -> 0 <= s) -> 0 <= last_size ->
  0 <= f_size (fit_with wrapper max_height max_lines font_sizes last_size last_lines).
Proof.
  intros Hsizes Hlast. unfold fit_with.
  destruct (try_sizes wrapper max_height max_lines font_sizes) as [[size lines]|] eqn:Htry.
  - apply try_sizes_spec in Htry as (Hin & _). now apply Hsizes.
  - exact Hlast.
Qed.

Lemma fit_combined_size_nonneg (E : externals) (text : pystr) (max_width max_height : Z) :
  0 <= f_size (fit_combined E text max_width max_height).
Proof.
  apply fit_with_size_nonneg; [|lia].
  intros s Hin. cbn [In] in Hin. intuition lia.
Qed.

Lemma fit_barcode_size_nonneg (E : externals) (text : pystr) (max_width max_height : Z) :
  0 <= f_size (fit_barcode E text max_width max_height).
Proof.
  apply fit_with_size_nonneg; [|lia].
  intros s Hin. cbn [In] in Hin. intuition lia.
Qed.

Lemma box_text_below_anchor : text_below_anchor Samples.box_externals.
Proof.
  intros img x y s size x' y' Hy. cbn.
  replace (y <=? y') with false by (symmetry; apply Z.leb_gt; lia).
  now rewrite andb_false_r.
Qed.

(** C2, as stated, fails: [generate_barcode_image], the renderer used with
    module width 0.8 and module height 40, keeps the width of the symbol it
    is given.  For a symbol 1303 pixels wide the image is 1303 pixels wide. *)
Lemma barcode_image_wider_than_1202 :
  ~ (forall (E : externals), externals_ok E ->
        forall barcode product_name sku quantity posting_number,
          (forall img,
              generate_barcode_image E barcode product_name sku quantity posting_number
              = Some img ->
              0 < width img <= 1202 /\ 0 < height img)
          /\ (forall img,
                 generate_barcode_image_for_combined E barcode product_name sku = Some img ->
                 0 < width img <= 1202 /\ 0 < height img)).
Proof.
  intros Hclaim.
  destruct (Hclaim Samples.box_externals box_externals_ok
                   (u "4600000000000") (u "Чехол") (u "123") 1 []) as [Hplain _].
  destruct (Hplain _ eq_refl) as [[_ Hw] _].
  vm_compute in Hw. now apply Hw.
Qed.

(** C2, amended.  [generate_barcode_image_for_combined] returns an image
    exactly 1202 pixels wide; the symbol inside it is the rendered one when
    that is at most 1202 pixels wide and otherwise its LANCZOS resize to
    width 1202 and height [int(height * (1202 / width))], computed in
    binary64; the image is 310 pixels higher than the symbol, hence of
    positive height for a rendered symbol of positive width and
    non-negative height; and the symbol is reproduced in it pixel by pixel,
    centred and 5 rows from the top.  [generate_barcode_image] does not
    downscale: its image has the width of the rendered symbol, is 360
    pixels higher, and reproduces the symbol 30 rows from the top.  The
    two pixel statements need text drawing to leave the rows above its
    anchor as they are. *)
Theorem barcode_image_size (E : externals) (Hok : externals_ok E)
        (barcode product_name sku : pystr) :
  (forall img,
      generate_barcode_image_for_combined E barcode product_name sku = Some img ->
      exists raw symbol,
        code128_render E barcode 1 50 4 = Some raw
        /\ fit_symbol E raw = Some symbol
        /\ (width raw <= 1202 -> symbol = raw)
        /\ (1202 < width raw ->
            resize_lanczos E raw 1202 (scaled_height (width raw) (height raw)) = Some symbol
            /\ width symbol = 1202
            /\ height symbol = scaled_height (width raw) (height raw))
        /\ width img = 1202
        /\ height img = height symbol + 310
        /\ (0 < width raw -> 0 <= height raw -> 0 < height img)
        /\ (text_below_anchor E ->
            forall x y, 0 <= x < width symbol -> 0 <= y < height symbol ->
                        let left := (1202 - width symbol) / 2 in
                        0 <= x + left < 1202
                        /\ getpixel img (x + left) (y + 5) = getpixel symbol x y))
  /\ (forall quantity posting_number img,
         generate_barcode_image E barcode product_name sku quantity posting_number = Some img ->
         exists raw,
           code128_render E barcode (8 # 10) 40 6 = Some raw
           /\ width img = width raw
           /\ height img = height raw + 360
           /\ (text_below_anchor E ->
               forall x y, 0 <= x < width raw -> 0 <= y < height raw ->
                           getpixel img x (y + 30) = getpixel raw x y)).
Proof.
  split.
  - intros img. unfold generate_barcode_image_for_combined.
    destruct (code128_render E barcode 1 50 4) as [raw|]; [|discriminate].
    destruct (fit_symbol E raw) as [symbol|] eqn:Hfit; [|discriminate].
    intros [= <-]. exists raw, symbol.
    assert (width symbol <= 1202) as Hfits.
    { unfold fit_symbol, MAX_WIDTH in Hfit. destruct (1202 <? width raw) eqn:Hcmp.
      - destruct (resize_size E Hok _ _ _ _ Hfit) as [Hw _]. lia.
      - apply Z.ltb_ge in Hcmp. injection Hfit as <-. exact Hcmp. }
    split; [reflexivity|]. split; [exact Hfit|].
    split; [|split; [|split; [|split; [|split]]]].
    + intros Hle. unfold fit_symbol, MAX_WIDTH in Hfit.
      replace (1202 <? width raw) with false in Hfit by (symmetry; apply Z.ltb_ge; lia).
      now injection Hfit as <-.
    + intros Hgt. unfold fit_symbol, MAX_WIDTH in Hfit.
      replace (1202 <? width raw) with true in Hfit by (symmetry; apply Z.ltb_lt; lia).
      destruct (resize_size E Hok _ _ _ _ Hfit) as [Hw Hh]. auto.
    + rewrite !(draw_fitted_width E Hok). reflexivity.
    + rewrite !(draw_fitted_height E Hok). cbn [height paste new_white]. lia.
    + intros Hpos Hnn. rewrite !(draw_fitted_height E Hok). cbn [height paste new_white].
      unfold fit_symbol, MAX_WIDTH in Hfit. destruct (1202 <? width raw) eqn:Hcmp.
      * destruct (resize_size E Hok _ _ _ _ Hfit) as [_ Hh].
        rewrite Hh. pose proof (scaled_height_nonneg _ _ Hpos Hnn). lia.
      * injection Hfit as <-. lia.
    + intros Hdraw x y Hx Hy. cbv zeta. unfold MAX_WIDTH.
      split; [split; [apply Z.add_nonneg_nonneg; [lia|apply Z.div_pos; lia]|] |].
      * assert ((1202 - width symbol) / 2 <= 1202 - width symbol)
          by (apply Z.div_le_upper_bound; lia).
        lia.
      * unfold draw_fitted.
        rewrite !(draw_lines_above E Hdraw)
          by (try apply fit_combined_size_nonneg; try assert (250 / 3 = 83) by reflexivity;
              try assert (2 * 250 / 3 = 166) by reflexivity; lia).
        cbn [getpixel paste].
        replace ((1202 - width symbol) / 2 <=? x + (1202 - width symbol) / 2) with true
          by (symmetry; apply Z.leb_le; lia).
        replace (x + (1202 - width symbol) / 2 <? (1202 - width symbol) / 2 + width symbol)
          with true by (symmetry; apply Z.ltb_lt; lia).
        replace (5 <=? y + 5) with true by (symmetry; apply Z.leb_le; lia).
        replace (y + 5 <? 5 + height symbol) with true by (symmetry; apply Z.ltb_lt; lia).
        cbn [andb]. f_equal; lia.
  - intros quantity posting_number img. unfold generate_barcode_image.
    destruct (code128_render E barcode (8 # 10) 40 6) as [raw|]; [|discriminate].
    intros [= <-]. exists raw.
    split; [reflexivity|]. split; [|split].
    + rewrite !(draw_fitted_width E Hok). reflexivity.
    + rewrite !(draw_fitted_height E Hok). cbn [height paste new_white]. lia.
    + intros Hdraw x y Hx Hy. unfold draw_fitted.
      rewrite !(draw_lines_above E Hdraw)
        by (try apply fit_barcode_size_nonneg; try assert (150 / 3 = 50) by reflexivity;
            try assert (2 * 150 / 3 = 100) by reflexivity; lia).
      cbn [getpixel paste].
      replace (0 <=? x) with true by (symmetry; apply Z.leb_le; lia).
      replace (x <? 0 + width raw) with true by (symmetry; apply Z.ltb_lt; lia).
      replace (30 <=? y + 30) with true by (symmetry; apply Z.leb_le; lia).
      replace (y + 30 <? 30 + height raw) with true by (symmetry; apply Z.ltb_lt; lia).
      cbn [andb]. f_equal; lia.
Qed.

(** With the sample symbol, 1303 pixels wide, the image is 1202 pixels wide
    and 767 pixels high, and the bar in column 600 of the resized symbol is
    found in column 600, row 5 of the image. *)
Lemma barcode_image_size_witness :
  externals_ok Samples.box_externals
  /\ exists img,
      generate_barcode_image_for_combined Samples.box_externals
        (u "4600000000000") (u "Чехол") (u "123") = Some img
      /\ width img = 1202 /\ height img = 767
      /\ getpixel img 600 5 = Samples.black.
Proof.
  split; [exact box_externals_ok|].
  destruct (barcode_image_size Samples.box_externals box_externals_ok
                               (u "4600000000000") (u "Чехол") (u "123")) as (Hcombined & _).
  eexists. split; [reflexivity|].
  destruct (Hcombined _ eq_refl)
    as (raw & symbol & Hraw & Hfit & _ & Hwide & Hw & Hh & _ & Hpix).
  injection Hraw as <-.
  destruct (Hwide ltac:(cbn; lia)) as (Hresize & Hws & Hhs).
  split; [exact Hw|]. split.
  - rewrite Hh, Hhs. reflexivity.
  - destruct (Hpix box_text_below_anchor 600 0) as (_ & Hsame).
    + rewrite Hws. lia.
    + rewrite Hhs. vm_compute. split; [discriminate|reflexivity].
    + cbv zeta in Hsame. rewrite Hws in Hsame.
      change ((1202 - 1202) / 2) with 0 in Hsame.
      change (600 + 0) with 600 in Hsame. change (0 + 5) with 5 in Hsame.
      rewrite Hsame. injection Hresize as <-. reflexivity.
Defined.

End BarcodeTheorems.

(** ** Unreadable documents *)

Section DocumentTheorems.

Import ProductText Label Bot.

(** C6. When the document cannot be opened or has no page,
    [generate_smart_label] fails: it hands [None] back to its caller and
    produces nothing else.  Each caller completes its run and tells the
    operator: [get_single_label] sends the original PDF in place of the
    label, [get_combined_barcode_label] sends the message that the label
    could not be generated, with the button back to the main menu. *)
Theorem unreadable_pdf_is_reported (E : externals) (M : marketplace) (pdf_content : list N) :
  fitz_open E pdf_content = None \/ fitz_open E pdf_content = Some [] ->
  (forall product_name posting_number products_info,
      generate_smart_label E pdf_content product_name posting_number products_info = None)
  /\ (forall chat_id posting_number file_name p ps,
         api_get_package_label M [posting_number] = LabelFile pdf_content file_name ->
         api_get_order_details M posting_number = OrderResult (p :: ps) ->
         get_single_label E M chat_id posting_number
         = Completed
             [ SendMessage chat_id (u "⏳ Генерирую этикетку для " ++ posting_number ++ u "...")
                           [] false;
               ApiRequest (u "/v2/posting/fbs/package-label") [posting_number];
               ApiRequest (u "/v3/posting/fbs/get") [posting_number];
               SendDocument chat_id
                 (DocBytes (u "label_" ++ posting_number ++ u ".pdf") pdf_content)
                 (u "🏷️ Этикетка для заказа " ++ posting_number);
               SendMessage chat_id (u "✅ Этикетка отправлена!") main_menu_keyboard false ]
         /\ get_combined_barcode_label E M chat_id posting_number
            = Completed
                [ SendMessage chat_id
                    (u "⏳ Создаю комбинированный файл для заказа " ++ posting_number ++ u "...")
                    [] false;
                  ApiRequest (u "/v3/posting/fbs/get") [posting_number];
                  ApiRequest (u "/v2/posting/fbs/package-label") [posting_number];
                  SendMessage chat_id
                    (u "❌ Не удалось сгенерировать умную этикетку для заказа "
                       ++ posting_number)
                    main_menu_keyboard false ]).
Proof.
  intros Hbad.
  assert (forall product_name posting_number products_info,
             generate_smart_label E pdf_content product_name posting_number products_info
             = None) as Hnone.
  { intros. unfold generate_smart_label. destruct Hbad as [-> | ->]; reflexivity. }
  split; [exact Hnone|].
  intros chat_id posting_number file_name p ps Hlabel Horder. split.
  - unfold get_single_label. rewrite Hlabel, Horder, Hnone. reflexivity.
  - unfold get_combined_barcode_label. rewrite Hlabel, Horder, Hnone. reflexivity.
Qed.

(** A marketplace that serves a file no reader can open. *)
Lemma unreadable_pdf_is_reported_witness :
  Label.generate_smart_label Samples.broken_pdf_externals [37%N; 80%N; 68%N; 70%N]
                             (u "Товар") (u "0001") None = None
  /\ exists trace,
      get_combined_barcode_label Samples.broken_pdf_externals Samples.shop 7 (u "0001")
      = Completed trace
      /\ length trace = 4%nat.
Proof.
  destruct (unreadable_pdf_is_reported Samples.broken_pdf_externals Samples.shop
              [37%N; 80%N; 68%N; 70%N] (or_introl eq_refl)) as (Hnone & Hcallers).
  split; [apply Hnone|].
  destruct (Hcallers 7 (u "0001") None Samples.red_case [] eq_refl eq_refl) as (_ & Hcombined).
  eexists. split; [exact Hcombined|reflexivity].
Defined.

End DocumentTheorems.

(** ** Product description *)

Section ProductTextTheorems.

Import ProductText.

(** C7.  The description computed for the single line item
    [{name: "Красный чехол для телефона", sku: "123", quantity: 2}].  It
    contains the quantity 2 and the colour word, but the colour is not
    removed from the name: the name is searched for the lower-case colour
    word while it is spelled with a capital letter, so the short name still
    ends with it and the colour is printed twice. *)
Theorem red_case_description :
  product_text (u "Красный чехол для телефона") (Some [Samples.red_case])
  = u "Заказ 2 товар: чехол для Красный красный"
  /\ extract_color_from_product None (u "Красный чехол для телефона") = u "красный"
  /\ replace_with_empty (u "Красный чехол для телефона") (u "красный")
     = u "Красный чехол для телефона"
  /\ shorten_product_name_for_barcode (u "Красный чехол для телефона") 25
     = u "чехол для Красный".
Proof. vm_compute. repeat split. Qed.

(** The same item spelled in lower case is described as intended. *)
Example red_case_lower_description :
  product_text (u "красный чехол для телефона")
               (Some [mkProduct (Some (u "красный чехол для телефона")) (Some (u "123")) (Some 2)])
  = u "Заказ 2 товар: чехол для телефона красный".
Proof. vm_compute. reflexivity. Qed.

End ProductTextTheorems.

(** ** Order monitor *)

Section MonitorTheorems.

Import Monitor.

(** What one pass over the listed postings adds: orders with fresh,
    pairwise distinct posting numbers, all of them recorded. *)
Lemma scan_orders_spec (orders : list order) (new_orders : list order) (P : gset pystr) :
  exists added,
    fst (fold_left scan_order orders (new_orders, P)) = new_orders ++ added
    /\ (P ⊆ snd (fold_left scan_order orders (new_orders, P)))
    /\ NoDup (omap posting_number added)
    /\ length (omap posting_number added) = length added
    /\ forall pn, pn ∈ omap posting_number added ->
                  (pn ∉ P) /\ pn ∈ snd (fold_left scan_order orders (new_orders, P)).
Proof.
  revert new_orders P. induction orders as [|o orders IH]; intros new_orders P.
  - simpl. exists []. rewrite app_nil_r. split; [reflexivity|]. split; [done|].
    split; [apply NoDup_nil_2|]. split; [reflexivity|].
    intros pn Hin. inversion Hin.
  - cbn [fold_left].
    assert (scan_order (new_orders, P) o
            = match posting_number o with
              | Some pn =>
                  if truthy pn && negb (bool_decide (pn ∈ P))
                  then (new_orders ++ [o], P ∪ {[pn]})
                  else (new_orders, P)
              | None => (new_orders, P)
              end) as -> by reflexivity.
    destruct (posting_number o) as [pn|] eqn:Hpn.
    + destruct (truthy pn && negb (bool_decide (pn ∈ P))) eqn:Hnew.
      * apply andb_true_iff in Hnew as [_ Hfresh].
        apply negb_true_iff, bool_decide_eq_false in Hfresh.
        destruct (IH (new_orders ++ [o]) (P ∪ {[pn]}))
          as (added & Hfst & Hsub & Hnd & Hlen & Hall).
        exists (o :: added). rewrite Hfst, <- app_assoc. simpl. rewrite Hpn.
        assert (pn ∈ P ∪ {[pn]}) as Hpn_in
            by (apply elem_of_union; right; now apply elem_of_singleton).
        split; [reflexivity|].
        split; [etrans; [apply union_subseteq_l | exact Hsub]|].
        split; [|split].
        -- apply NoDup_cons. split; [|exact Hnd].
           intros Hin. destruct (Hall pn Hin) as [Hout _]. contradiction.
        -- simpl. f_equal. exact Hlen.
        -- intros pn' Hin. apply elem_of_cons in Hin as [->|Hin].
           ++ split; [exact Hfresh|]. apply Hsub, Hpn_in.
           ++ destruct (Hall pn' Hin) as [Hout Hrec]. split; [|exact Hrec].
              intros HP. apply Hout, elem_of_union. now left.
      * apply IH.
    + apply IH.
Qed.

(** One check: the set only grows, and a notification names only postings
    that were not in the set before the check and are in it afterwards. *)
Lemma check_new_orders_spec (P : gset pystr) (response : orders_response) :
  (P ⊆ fst (check_new_orders P response))
  /\ forall orders, snd (check_new_orders P response) = Some orders ->
       NoDup (omap posting_number orders)
       /\ length (omap posting_number orders) = length orders
       /\ forall pn, pn ∈ omap posting_number orders ->
                     (pn ∉ P) /\ pn ∈ fst (check_new_orders P response).
Proof.
  destruct response as [message|[|o orders]]; try (split; [done|discriminate]).
  destruct (scan_orders_spec (o :: orders) [] P) as (added & Hfst & Hsub & Hnd & Hlen & Hall).
  unfold check_new_orders.
  destruct (fold_left scan_order (o :: orders) ([], P)) as [new_orders P'].
  cbn [fst snd app] in *. subst new_orders.
  destruct added as [|a added]; cbn [fst snd]; [split; [done|discriminate]|].
  split; [exact Hsub|]. intros orders' [= <-]. auto.
Qed.

Lemma monitor_loop_spec (responses : list orders_response) (P : gset pystr) :
  NoDup (notified_numbers (snd (monitor_loop P responses)))
  /\ (P ⊆ fst (monitor_loop P responses))
  /\ forall pn, pn ∈ notified_numbers (snd (monitor_loop P responses)) ->
                (pn ∉ P) /\ pn ∈ fst (monitor_loop P responses).
Proof.
  revert P. induction responses as [|response rest IH]; intros P; simpl.
  - split; [apply NoDup_nil_2|]. split; [done|]. intros pn Hin. inversion Hin.
  - destruct (check_new_orders_spec P response) as (Hsub & Hnote).
    destruct (check_new_orders P response) as [P1 note]. simpl in *.
    destruct (IH P1) as (Hnd & Hsub1 & Hall1).
    destruct (monitor_loop P1 rest) as [final later]. simpl in *.
    destruct note as [orders|].
    + destruct (Hnote orders eq_refl) as (Hnd0 & _ & Hall0).
      unfold notified_numbers in *. simpl.
      split; [|split].
      * apply NoDup_app. split; [exact Hnd0|]. split; [|exact Hnd].
        intros pn Hin Hlater. destruct (Hall0 pn Hin) as [_ Hrec].
        destruct (Hall1 pn Hlater) as [Hout _]. contradiction.
      * etrans; [exact Hsub | exact Hsub1].
      * intros pn Hin. apply elem_of_app in Hin as [Hin|Hin].
        -- destruct (Hall0 pn Hin) as [Hout Hrec]. split; [exact Hout|]. now apply Hsub1.
        -- destruct (Hall1 pn Hin) as [Hout Hrec]. split; [|exact Hrec].
           intros HP. now apply Hout, Hsub.
    + split; [exact Hnd|]. split; [etrans; [exact Hsub | exact Hsub1]|].
      intros pn Hin. destruct (Hall1 pn Hin) as [Hout Hrec]. split; [|exact Hrec].
      intros HP. now apply Hout, Hsub.
Qed.

Lemma omap_length_le (orders : list order) :
  (length (omap posting_number orders) <= length orders)%nat.
Proof.
  induction orders as [|a orders IH]; [reflexivity|].
  change (omap posting_number (a :: orders))
    with (match posting_number a with
          | Some pn => pn :: omap posting_number orders
          | None => omap posting_number orders
          end).
  destruct (posting_number a); simpl; lia.
Qed.

Lemma omap_all_named (orders : list order) :
  length (omap posting_number orders) = length orders ->
  forall o, o ∈ orders -> is_Some (posting_number o).
Proof.
  induction orders as [|a orders IH]; intros Hlen o Hin; [inversion Hin|].
  pose proof (omap_length_le orders) as Hle.
  change (omap posting_number (a :: orders))
    with (match posting_number a with
          | Some pn => pn :: omap posting_number orders
          | None => omap posting_number orders
          end) in Hlen.
  destruct (posting_number a) as [pn|] eqn:Ha; simpl in Hlen; [|lia].
  apply elem_of_cons in Hin as [->|Hin]; [rewrite Ha; eauto|].
  apply IH; [lia|exact Hin].
Qed.

(** C9. Over any run of the monitor, whatever the marketplace answers, no
    posting number is named by more than one notification, nor twice by
    one; the set of processed orders only grows; every posting number named
    by a notification was outside the set when the run started and is in
    the set when it ends.  Each single check records a posting number before
    the notification that names it is passed on. *)
Theorem posting_notified_at_most_once
        (processed_orders : gset pystr) (responses : list orders_response) :
  NoDup (notified_numbers (snd (monitor_loop processed_orders responses)))
  /\ (processed_orders ⊆ fst (monitor_loop processed_orders responses))
  /\ (forall pn, pn ∈ notified_numbers (snd (monitor_loop processed_orders responses)) ->
                 (pn ∉ processed_orders)
                 /\ pn ∈ fst (monitor_loop processed_orders responses))
  /\ (forall response orders,
         snd (check_new_orders processed_orders response) = Some orders ->
         forall o, o ∈ orders ->
                   exists pn, posting_number o = Some pn
                              /\ (pn ∉ processed_orders)
                              /\ pn ∈ fst (check_new_orders processed_orders response)).
Proof.
  destruct (monitor_loop_spec responses processed_orders) as (Hnd & Hsub & Hall).
  split; [exact Hnd|]. split; [exact Hsub|]. split; [exact Hall|].
  intros response orders Hsome o Hin.
  destruct (check_new_orders_spec processed_orders response) as (_ & Hnote).
  destruct (Hnote orders Hsome) as (_ & Hlen & Hnew).
  destruct (omap_all_named orders Hlen o Hin) as [pn Hpn].
  exists pn. split; [exact Hpn|].
  apply Hnew. apply list_elem_of_omap. eauto.
Qed.

(** Two polls that list A-1, A-2, A-1 and then A-2, A-3: the first
    notification names A-1 and A-2, the second only A-3. *)
Example two_polls_notifications :
  notified_numbers (snd (monitor_loop ∅ Samples.two_polls)) = [u "A-1"; u "A-2"; u "A-3"]
  /\ map (length (A:=order)) (snd (monitor_loop ∅ Samples.two_polls)) = [2%nat; 1%nat].
Proof. vm_compute. split; reflexivity. Qed.

(** A-3, named by the second notification of the sample run, is in the
    set when the run ends. *)
Lemma posting_notified_at_most_once_witness :
  u "A-3" ∈ fst (monitor_loop ∅ Samples.two_polls).
Proof.
  destruct (posting_notified_at_most_once ∅ Samples.two_polls) as (_ & _ & Hall & _).
  apply Hall. rewrite (proj1 two_polls_notifications).
  apply list_elem_of_In. simpl. tauto.
Defined.

End MonitorTheorems.

(** ** Access control *)

Section AccessTheorems.

Import Bot Access.

Lemma str_eqb_spec (a b : pystr) : str_eqb a b = true <-> a = b.
Proof. unfold str_eqb. apply bool_decide_eq_true. Qed.

Lemma is_admin_spec (cfg : config) (user_id : Z) :
  is_admin cfg user_id = true
  <-> str_of_int user_id = ADMIN_CHAT_ID cfg \/ str_of_int user_id = u "669994046".
Proof.
  unfold is_admin, in_list. cbn [existsb].
  rewrite !orb_true_iff, !str_eqb_spec. intuition discriminate.
Qed.

Lemma check_admin_access_is_admin (cfg : config) (user_id : Z) :
  check_admin_access cfg user_id = is_admin cfg user_id.
Proof. unfold check_admin_access. now destruct (is_admin cfg user_id). Qed.

(** C10. [is_admin] holds exactly for the user ids whose decimal form is
    [Config.ADMIN_CHAT_ID] or ["669994046"].  For any other sender every
    command handler and the callback handler complete after the
    access-denied message alone, preceded for a button press by the
    access-denied alert that answers the query: no bot method is invoked,
    no marketplace request is made, no menu is sent. *)
Theorem only_admins_are_served (cfg : config) :
  (forall user_id,
      is_admin cfg user_id = true
      <-> str_of_int user_id = ADMIN_CHAT_ID cfg \/ str_of_int user_id = u "669994046")
  /\ (forall (mv : monitor_view) (upd : update),
         is_admin cfg (sender upd) = false ->
         handle cfg mv upd
         = Completed
             (match upd with
              | ButtonPress c =>
                  [AnswerCallbackQuery (call_id c) (u "🚫 Доступ запрещен") true]
              | _ => []
              end ++ [SendMessage (chat_of upd) access_denied_text [] true])
         /\ forall trace, handle cfg mv upd = Completed trace ->
                          Forall (fun e => is_denial e = true) trace).
Proof.
  split; [apply is_admin_spec|].
  intros mv upd Hno.
  assert (handle cfg mv upd
          = Completed
              (match upd with
               | ButtonPress c =>
                   [AnswerCallbackQuery (call_id c) (u "🚫 Доступ запрещен") true]
               | _ => []
               end ++ [SendMessage (chat_of upd) access_denied_text [] true])) as Hrun.
  { destruct upd as [m|m|m|m|m|c]; cbn [handle sender chat_of] in *;
      unfold start_command, help_command, orders_command, labels_command, monitor_command,
        callback_handler, show_main_menu;
      rewrite check_admin_access_is_admin, Hno; reflexivity. }
  split; [exact Hrun|].
  intros trace Htrace. rewrite Hrun in Htrace. injection Htrace as <-.
  assert (str_eqb access_denied_text access_denied_text = true) as Htext
      by now apply str_eqb_spec.
  destruct upd; repeat constructor; cbn [is_denial]; try exact Htext; now apply str_eqb_spec.
Qed.

(** A stranger pressing the button that downloads a label gets the alert
    and the access-denied message. *)
Lemma only_admins_are_served_witness :
  handle Samples.owner (mkMonitorView true 0)
         (ButtonPress (mkCall (u "q1") 777 777 1 (u "download_label_0001")))
  = Completed [AnswerCallbackQuery (u "q1") (u "🚫 Доступ запрещен") true;
               SendMessage 777 access_denied_text [] true].
Proof.
  destruct (only_admins_are_served Samples.owner) as (_ & Hdenied).
  destruct (Hdenied (mkMonitorView true 0)
                    (ButtonPress (mkCall (u "q1") 777 777 1 (u "download_label_0001"))))
    as (Hrun & _).
  - vm_compute. reflexivity.
  - exact Hrun.
Defined.

(** The same button pressed by the owner reaches [get_single_label]. *)
Example owner_is_served :
  handle Samples.owner (mkMonitorView true 0)
         (ButtonPress (mkCall (u "q1") 12345 12345 1 (u "download_label_0001")))
  = Completed [AnswerCallbackQuery (u "q1") [] false;
               Invoke (GetSingleLabel 12345 (u "0001"))].
Proof. vm_compute. reflexivity. Qed.

End AccessTheorems.

(* ===================================================================== *)
(** * Further properties *)
(* ===================================================================== *)

(** ** What the cropper keeps *)

(** The cropper only removes whole columns at the two sides: the result has
    the height of the input, shows the input shifted by the number of
    columns removed on the left, and still holds every content column. *)
Theorem smart_crop_keeps_content (img : image) :
  height (smart_crop_image img) = height img
  /\ exists removed_left,
      0 <= removed_left
      /\ removed_left + width (smart_crop_image img) <= width img
      /\ (forall x y, getpixel (smart_crop_image img) x y = getpixel img (x + removed_left) y)
      /\ (forall x, 0 <= x < width img -> has_content img x = true ->
                    removed_left <= x < removed_left + width (smart_crop_image img)).
Proof.
  pose proof (left_boundary_nonneg img) as Hl.
  pose proof (right_boundary_le_width img) as Hr.
  unfold smart_crop_image.
  destruct ((0 <? left_boundary img) || (right_boundary img <? width img - 10)) eqn:Hguard.
  - split; [simpl; lia|]. exists (left_boundary img). simpl.
    split; [exact Hl|]. split; [lia|]. split.
    + intros x y. now rewrite Z.add_0_r.
    + intros x Hx Hc. unfold left_boundary, right_boundary in *.
      pose proof (scan_left_spec img) as HL. pose proof (scan_right_spec img) as HR.
      destruct (first_content img (range (width img))) as [x0|].
      2:{ rewrite HL in Hc by lia. discriminate. }
      destruct (first_content img (range_down (width img))) as [x1|].
      2:{ rewrite HR in Hc by lia. discriminate. }
      destruct HL as (Hb0 & _ & Hmin). destruct HR as (Hb1 & _ & Hmax).
      assert (x0 <= x) by (destruct (Z_le_gt_dec x0 x); auto; rewrite Hmin in Hc by lia; discriminate).
      assert (x <= x1) by (destruct (Z_le_gt_dec x x1); auto; rewrite Hmax in Hc by lia; discriminate).
      lia.
  - split; [reflexivity|]. exists 0. split; [lia|]. split; [lia|]. split.
    + intros x y. now rewrite Z.add_0_r.
    + intros x Hx _. lia.
Qed.

(** [strip] loses 15 columns on the left; its content column 30 survives. *)
Lemma smart_crop_keeps_content_witness :
  exists removed_left,
    removed_left <= 30 < removed_left + width (smart_crop_image Samples.strip).
Proof.
  destruct (smart_crop_keeps_content Samples.strip) as (_ & removed_left & _ & _ & _ & Hkeep).
  exists removed_left. apply Hkeep.
  - simpl. lia.
  - reflexivity.
Defined.

(** ** The combined canvas *)

Section CanvasFacts.

Import Label.

(** Barcodes are pasted below the running offset: rows above it are not
    touched. *)
Lemma paste_barcodes_above (barcode_images : list image) (img : image) (w current_y x y : Z) :
  (forall b, In b barcode_images -> 0 <= height b) ->
  y < current_y ->
  getpixel (paste_barcodes img w current_y barcode_images) x y = getpixel img x y.
Proof.
  revert img current_y. induction barcode_images as [|b rest IH]; intros img current_y Hh Hy;
    [reflexivity|].
  cbn [paste_barcodes]. rewrite IH.
  - simpl. replace (current_y <=? y) with false by (symmetry; apply Z.leb_gt; lia).
    now rewrite andb_false_r.
  - intros b' Hin. apply Hh. now right.
  - pose proof (Hh b (or_introl eq_refl)). lia.
Qed.

Lemma fold_add_shift (l : list Z) (a : Z) :
  fold_left Z.add l a = a + fold_left Z.add l 0.
Proof.
  revert a. induction l as [|c l IH]; intros a; cbn [fold_left]; [lia|].
  rewrite IH, (IH (0 + c)). lia.
Qed.

Lemma paste_barcodes_height (barcode_images : list image) (img : image) (w y : Z) :
  height (paste_barcodes img w y barcode_images) = height img.
Proof.
  revert img y. induction barcode_images as [|b rest IH]; intros img y; simpl; [reflexivity|].
  now rewrite IH.
Qed.

(** The offset reached after a list of barcodes. *)
Lemma paste_barcodes_app (pre rest : list image) (img : image) (w current_y : Z) :
  paste_barcodes img w current_y (pre ++ rest)
  = paste_barcodes (paste_barcodes img w current_y pre) w
                   (current_y + fold_left Z.add (map (fun b => height b + 20) pre) 0) rest.
Proof.
  revert img current_y. induction pre as [|b pre IH]; intros img current_y.
  - simpl. now rewrite Z.add_0_r.
  - cbn [app paste_barcodes map]. rewrite IH. f_equal.
    cbn [fold_left]. rewrite (fold_add_shift _ (0 + (height b + 20))). lia.
Qed.

Lemma fold_add_app (l1 l2 : list Z) :
  fold_left Z.add (l1 ++ l2) 0 = fold_left Z.add l1 0 + fold_left Z.add l2 0.
Proof. rewrite fold_left_app, fold_add_shift. reflexivity. Qed.

Lemma fold_add_nonneg (l : list Z) :
  (forall z, In z l -> 0 <= z) -> 0 <= fold_left Z.add l 0.
Proof.
  induction l as [|c l IH]; intros Hl; cbn [fold_left]; [lia|].
  rewrite fold_add_shift. pose proof (Hl c (or_introl eq_refl)).
  assert (0 <= fold_left Z.add l 0) by (apply IH; intros z Hz; apply Hl; now right). lia.
Qed.

Lemma fold_add_padded (l : list image) :
  fold_left Z.add (map (fun b => height b + 20) l) 0
  = fold_left Z.add (map height l) 0 + 20 * Z.of_nat (length l).
Proof.
  induction l as [|b l IH]; [reflexivity|].
  cbn [map fold_left length]. rewrite fold_add_shift, (fold_add_shift _ (0 + height b)), IH. lia.
Qed.

(** The canvas of [create_combined_barcode_label_image] is as wide as the
    label.  The label is reproduced in it at offset (0, 10).  Every barcode
    image is placed horizontally centred, 10 rows below the label and 20
    rows below the barcode before it, with at least 10 rows of the canvas
    left below it, and is reproduced there as far as its columns fall
    inside the canvas: a barcode image wider than the label loses the
    columns beyond the two sides.  No later paste overwrites an earlier
    one.  Barcode images have non-negative heights. *)
Theorem combined_canvas_layout (label : image) (barcode_images : list image) :
  (forall b, In b barcode_images -> 0 <= height b) ->
  width (combined_canvas label barcode_images) = width label
  /\ (forall x y, 0 <= x < width label -> 0 <= y < height label ->
                  getpixel (combined_canvas label barcode_images) x (y + 10)
                  = getpixel label x y)
  /\ (forall pre b post x y,
         barcode_images = pre ++ b :: post ->
         let top := height label + 10 + fold_left Z.add (map (fun b => height b + 20) pre) 0 in
         let left := (width label - width b) / 2 in
         0 <= x < width b -> 0 <= y < height b ->
         0 <= x + left < width label ->
         getpixel (combined_canvas label barcode_images) (x + left) (y + top) = getpixel b x y
         /\ y + top < height (combined_canvas label barcode_images) - 10).
Proof.
  intros Hh. split; [apply combined_canvas_width|]. split.
  - intros x y Hx Hy. unfold combined_canvas.
    rewrite paste_barcodes_above by (auto; lia). simpl.
    replace ((0 <=? x) && (x <? 0 + width label) && (10 <=? y + 10)
             && (y + 10 <? 10 + height label)) with true.
    + f_equal; lia.
    + symmetry. rewrite !andb_true_iff, !Z.leb_le, !Z.ltb_lt. lia.
  - intros pre b post x y -> top left Hx Hy Hin.
    assert (forall b', In b' pre -> 0 <= height b') as Hpre
        by (intros b' Hb; apply Hh, in_or_app; now left).
    assert (forall b', In b' post -> 0 <= height b') as Hpost
        by (intros b' Hb; apply Hh, in_or_app; right; now right).
    assert (0 <= fold_left Z.add (map height pre) 0) as Hsum_pre
        by (apply fold_add_nonneg; intros z Hz; apply in_map_iff in Hz as (b' & <- & Hb); auto).
    assert (0 <= fold_left Z.add (map height post) 0) as Hsum_post
        by (apply fold_add_nonneg; intros z Hz; apply in_map_iff in Hz as (b' & <- & Hb); auto).
    split.
    + unfold combined_canvas. rewrite paste_barcodes_app. cbn [paste_barcodes].
      rewrite paste_barcodes_above.
      * simpl. fold top. fold left.
        replace ((left <=? x + left) && (x + left <? left + width b) && (top <=? y + top)
                 && (y + top <? top + height b)) with true.
        -- f_equal; lia.
        -- symmetry. rewrite !andb_true_iff, !Z.leb_le, !Z.ltb_lt. lia.
      * exact Hpost.
      * fold top. lia.
    + unfold combined_canvas. rewrite paste_barcodes_height. cbn [height paste new_white].
      subst top. rewrite fold_add_padded.
      rewrite map_app, fold_add_app. cbn [map fold_left]. rewrite (fold_add_shift _ (0 + height b)).
      rewrite length_app. cbn [length]. lia.
Qed.

(** Under the sample page, 400 pixels wide, the barcode image of 1202
    pixels starts 401 columns left of the canvas: its bar in column 601
    shows in column 200 of the canvas, in row 310, the first row of the
    barcode image; and the canvas is 400 pixels wide. *)
Lemma combined_canvas_layout_witness :
  width (combined_canvas Samples.page [Samples.thin_barcode]) = 400
  /\ getpixel (combined_canvas Samples.page [Samples.thin_barcode]) 200 310 = Samples.black.
Proof.
  destruct (combined_canvas_layout Samples.page [Samples.thin_barcode])
    as (Hwidth & _ & Hbarcode).
  - intros b [<-|[]]. vm_compute. discriminate.
  - split; [exact Hwidth|].
    destruct (Hbarcode [] Samples.thin_barcode [] 601 0 eq_refl) as [Hpixel _].
    + vm_compute. split; [discriminate|reflexivity].
    + vm_compute. split; [discriminate|reflexivity].
    + vm_compute. split; [discriminate|reflexivity].
    + exact Hpixel.
Defined.

End CanvasFacts.

(** ** What the fitters keep and choose *)

Section FitMore.

Import TextFit FitNotions.

Context (E : externals).

Lemma join_snoc (sep : pystr) (l : list pystr) (a : pystr) :
  join sep (l ++ [a]) = match l with [] => a | _ => join sep l ++ sep ++ a end.
Proof.
  induction l as [|b l IH]; [reflexivity|].
  cbn [app join]. rewrite IH. destruct l as [|c l]; [reflexivity|].
  cbn [app]. now rewrite <- !app_assoc.
Qed.

Lemma split_aux_nonempty (s cur w : pystr) : In w (split_aux s cur) -> w <> [].
Proof.
  revert cur. induction s as [|c s IH]; intros cur; simpl.
  - destruct (truthy cur) eqn:Hc; [|tauto]. intros [<-|[]]. now apply truthy_true.
  - destruct (isspace c); [|apply IH].
    destruct (truthy cur) eqn:Hc; [|apply IH].
    intros [<-|Hin]; [now apply truthy_true | now apply IH in Hin].
Qed.

Lemma split_nonempty (s w : pystr) : In w (split s) -> w <> [].
Proof. apply split_aux_nonempty. Qed.

Lemma spells_add (lines : list pystr) (seen : list pystr) (word : pystr) :
  word <> [] -> spells (lines, []) seen -> spells (lines ++ [word], []) (seen ++ [word]).
Proof.
  intros Hw [Hj He]. unfold spells in *. cbn [fst snd truthy] in *.
  rewrite app_nil_r in *. split.
  - rewrite !join_snoc, Hj. destruct lines, seen; try reflexivity.
    + discriminate (proj1 He eq_refl).
    + discriminate (proj2 He eq_refl).
  - split; intros H; destruct lines, seen; discriminate.
Qed.

Lemma spells_extend (lines : list pystr) (cur : pystr) (seen : list pystr) (word : pystr) :
  cur <> [] -> spells (lines, cur) seen ->
  spells (lines, cur ++ u " " ++ word) (seen ++ [word]).
Proof.
  intros Hc [Hj He]. unfold spells in *. cbn [fst snd] in *.
  assert (truthy cur = true) as Ht by (destruct cur; [contradiction|reflexivity]).
  assert (truthy (cur ++ u " " ++ word) = true) as Ht'
      by (destruct cur; [contradiction|reflexivity]).
  rewrite Ht in *. rewrite Ht'.
  assert (seen <> []) as Hs
      by (intros ->; pose proof (proj2 He eq_refl) as Hnil; destruct lines; discriminate).
  split.
  - rewrite !join_snoc. rewrite join_snoc in Hj. rewrite <- Hj.
    destruct seen; [contradiction|]. destruct lines; now rewrite <- ?app_assoc.
  - split; intros H; [destruct lines; discriminate | destruct seen; discriminate].
Qed.

Lemma spells_break (lines : list pystr) (cur : pystr) (seen : list pystr) (word : pystr) :
  cur <> [] -> word <> [] -> spells (lines, cur) seen ->
  spells (lines ++ [cur], word) (seen ++ [word]).
Proof.
  intros Hc Hw [Hj He]. unfold spells in *. cbn [fst snd] in *.
  assert (truthy cur = true) as Ht by (destruct cur; [contradiction|reflexivity]).
  assert (truthy word = true) as Ht' by (destruct word; [contradiction|reflexivity]).
  rewrite Ht in *. rewrite Ht'.
  assert (seen <> []) as Hs
      by (intros ->; pose proof (proj2 He eq_refl) as Hnil; destruct lines; discriminate).
  split.
  - rewrite (join_snoc _ (lines ++ [cur])), (join_snoc _ seen), Hj.
    destruct seen; [contradiction|]. destruct lines; reflexivity.
  - split; intros H; [destruct lines; discriminate | destruct seen; discriminate].
Qed.

Lemma spells_start (lines : list pystr) (seen : list pystr) (word : pystr) :
  word <> [] -> spells (lines, []) seen -> spells (lines, word) (seen ++ [word]).
Proof.
  intros Hw H. apply (spells_add _ _ word Hw) in H.
  unfold spells in *. cbn [fst snd truthy] in *.
  assert (truthy word = true) as Ht by (destruct word; [contradiction|reflexivity]).
  rewrite Ht. now rewrite app_nil_r in H.
Qed.

Lemma wrap_step_plain_spells (size budget : Z) (st : list pystr * pystr)
      (seen : list pystr) (word : pystr) :
  word <> [] -> spells st seen ->
  spells (wrap_step_plain E size budget st word) (seen ++ [word]).
Proof.
  intros Hw Hst. destruct st as [lines cur]. unfold wrap_step_plain, test_line.
  destruct (truthy cur) eqn:Hc.
  - apply truthy_true in Hc.
    destruct (fits E size _ budget); [now apply spells_extend | now apply spells_break].
  - apply truthy_false in Hc. subst cur. cbn [app].
    destruct (fits E size word budget); [now apply spells_start | now apply spells_add].
Qed.

Lemma wrap_step_spells (size budget : Z) (st : list pystr * pystr)
      (seen : list pystr) (word : pystr) :
  word <> [] -> fits E size word budget = true -> spells st seen ->
  spells (wrap_step E size budget st word) (seen ++ [word]).
Proof.
  intros Hw Hfit Hst. destruct st as [lines cur]. unfold wrap_step, test_line.
  destruct (truthy cur) eqn:Hc.
  - apply truthy_true in Hc.
    destruct (fits E size (cur ++ u " " ++ word) budget);
      [now apply spells_extend | now apply spells_break].
  - apply truthy_false in Hc. subst cur. cbn [app]. rewrite Hfit.
    now apply spells_start.
Qed.

Lemma fold_spells (step : list pystr * pystr -> pystr -> list pystr * pystr)
      (ok : pystr -> Prop) (words : list pystr) :
  (forall st seen w, ok w -> spells st seen -> spells (step st w) (seen ++ [w])) ->
  (forall w, In w words -> ok w) ->
  forall st seen, spells st seen -> spells (fold_left step words st) (seen ++ words).
Proof.
  intros Hstep. induction words as [|w words IH]; intros Hall st seen Hst; cbn [fold_left].
  - now rewrite app_nil_r.
  - replace (seen ++ w :: words) with ((seen ++ [w]) ++ words) by now rewrite <- app_assoc.
    apply IH; [intros w' Hin; apply Hall; now right|].
    apply Hstep; [apply Hall; now left | exact Hst].
Qed.

Lemma wrap_with_spells (step : list pystr * pystr -> pystr -> list pystr * pystr)
      (ok : pystr -> Prop) (words : list pystr) :
  (forall st seen w, ok w -> spells st seen -> spells (step st w) (seen ++ [w])) ->
  (forall w, In w words -> ok w) ->
  join (u " ") (wrap_with step words) = join (u " ") words.
Proof.
  intros Hstep Hall. unfold wrap_with.
  assert (spells (fold_left step words ([], [])) ([] ++ words)) as Hfin.
  { apply (fold_spells step ok); auto. split; [reflexivity|tauto]. }
  destruct (fold_left step words ([], [])) as [lines cur]. destruct Hfin as [Hj _].
  cbn [fst snd app] in Hj. destruct (truthy cur); [exact Hj|].
  now rewrite app_nil_r in Hj.
Qed.

(** The size loop takes the first candidate that passes. *)
Lemma try_sizes_first (wrapper : Z -> list pystr) (max_height max_lines : Z)
      (font_sizes : list Z) :
  match try_sizes wrapper max_height max_lines font_sizes with
  | Some (size, lines) =>
      lines = wrapper size /\ passes max_height max_lines size lines
      /\ exists larger smaller,
          font_sizes = larger ++ size :: smaller
          /\ forall s, In s larger -> ~ passes max_height max_lines s (wrapper s)
  | None => forall s, In s font_sizes -> ~ passes max_height max_lines s (wrapper s)
  end.
Proof.
  induction font_sizes as [|s0 rest IH]; cbn [try_sizes]; [intros s []|].
  destruct (_ && _) eqn:Htest.
  - apply andb_true_iff in Htest as [H1 H2]. apply Z.leb_le in H1, H2.
    split; [reflexivity|]. split; [now split|].
    exists [], rest. split; [reflexivity|intros s []].
  - assert (~ passes max_height max_lines s0 (wrapper s0)) as Hfail.
    { intros [H1 H2]. apply andb_false_iff in Htest as [H|H]; apply Z.leb_gt in H; lia. }
    destruct (try_sizes wrapper max_height max_lines rest) as [[size lines]|].
    + destruct IH as (Hl & Hp & larger & smaller & -> & Hnone).
      split; [exact Hl|]. split; [exact Hp|].
      exists (s0 :: larger), smaller. split; [reflexivity|].
      intros s [<-|Hin]; auto.
    + intros s [<-|Hin]; auto.
Qed.

Lemma descending_split (larger smaller : list Z) (size s : Z) :
  StronglySorted Z.gt (larger ++ size :: smaller) ->
  In s (larger ++ size :: smaller) -> size < s -> In s larger.
Proof.
  induction larger as [|l larger IH]; cbn [app]; intros Hsorted Hin Hlt.
  - apply StronglySorted_inv in Hsorted as [_ Hall].
    destruct Hin as [->|Hin]; [lia|].
    rewrite Forall_forall in Hall. apply list_elem_of_In in Hin. specialize (Hall s Hin). lia.
  - apply StronglySorted_inv in Hsorted as [Hsorted _].
    destruct Hin as [->|Hin]; [now left|]. right. now apply IH.
Qed.

Lemma fit_with_first (wrapper : Z -> list pystr) (max_height max_lines : Z)
      (font_sizes : list Z) (last_size : Z) (last_lines : list pystr) :
  StronglySorted Z.gt font_sizes ->
  let f := fit_with wrapper max_height max_lines font_sizes last_size last_lines in
  (f_path f = Accepted ->
   In (f_size f) font_sizes
   /\ f_lines f = wrapper (f_size f)
   /\ passes max_height max_lines (f_size f) (f_lines f)
   /\ forall s, In s font_sizes -> f_size f < s ->
                ~ passes max_height max_lines s (wrapper s))
  /\ (f_path f = LastResort ->
      f_size f = last_size /\ f_lines f = last_lines
      /\ forall s, In s font_sizes -> ~ passes max_height max_lines s (wrapper s)).
Proof.
  intros Hsorted. unfold fit_with.
  pose proof (try_sizes_first wrapper max_height max_lines font_sizes) as H.
  destruct (try_sizes wrapper max_height max_lines font_sizes) as [[size lines]|]; cbn.
  - split; [|discriminate]. intros _.
    destruct H as (Hl & Hp & larger & smaller & Heq & Hnone).
    split; [rewrite Heq; apply in_or_app; right; now left|].
    split; [exact Hl|]. split; [exact Hp|].
    intros s Hin Hlt. apply Hnone. rewrite Heq in Hsorted, Hin.
    eapply descending_split; eauto.
  - split; [discriminate|]. intros _. auto.
Qed.

Ltac descending := repeat (constructor; [|repeat constructor; lia]); constructor.

(** Whatever is accepted spells the text: in the accepted path of the
    fitter of [generate_barcode_image] the lines, joined by single spaces,
    are the words of the text joined by single spaces, so no word is lost,
    cut or reordered; the same holds for the fitters of [generate_smart_label]
    and [generate_barcode_image_for_combined] when every word fits
    [max_width - 20] by itself at the accepted size. *)
Theorem accepted_lines_spell_the_text (text : pystr) (max_width max_height : Z) :
  let plain := fit_barcode E text max_width max_height in
  let smart := fit_smart_label E text max_width max_height in
  let combined := fit_combined E text max_width max_height in
  (f_path plain = Accepted ->
   join (u " ") (f_lines plain) = join (u " ") (split text))
  /\ (f_path smart = Accepted ->
      (forall w, In w (split text) -> fits E (f_size smart) w (max_width - 20) = true) ->
      join (u " ") (f_lines smart) = join (u " ") (split text))
  /\ (f_path combined = Accepted ->
      (forall w, In w (split text) -> fits E (f_size combined) w (max_width - 20) = true) ->
      join (u " ") (f_lines combined) = join (u " ") (split text)).
Proof.
  cbv zeta. split; [|split].
  - intros Hacc.
    destruct (fit_with_first (fun size => wrap_plain E size max_width (split text)) max_height 3
                [40; 35; 30; 25; 20; 18; 16; 14; 12; 10] 18
                (firstn 2 (wrap_plain E 18 max_width (split text)))) as [Hyes _];
      [descending|].
    destruct (Hyes Hacc) as (_ & Hlines & _). unfold fit_barcode. rewrite Hlines.
    apply (wrap_with_spells _ (fun w => w <> [])).
    + intros st seen w. apply wrap_step_plain_spells.
    + apply split_nonempty.
  - intros Hacc Hfit.
    destruct (fit_with_first (fun size => wrap E size (max_width - 20) (split text)) max_height 4
                [50; 45; 40; 35; 30; 25; 20; 18; 16; 14; 12] 20
                (firstn 3 (wrap_last E 20 (max_width - 10) (split text)))) as [Hyes _];
      [descending|].
    destruct (Hyes Hacc) as (_ & Hlines & _).
    set (size := f_size (fit_smart_label E text max_width max_height)) in *.
    assert (f_lines (fit_smart_label E text max_width max_height)
            = wrap E size (max_width - 20) (split text)) as -> by exact Hlines.
    apply (wrap_with_spells _ (fun w => w <> [] /\ fits E size w (max_width - 20) = true)).
    + intros st seen w [Hw Hf]. now apply wrap_step_spells.
    + intros w Hin. split; [now apply (split_nonempty text) | now apply Hfit].
  - intros Hacc Hfit.
    destruct (fit_with_first (fun size => wrap E size (max_width - 20) (split text)) max_height 3
                [35; 30; 25; 20; 18; 16; 14; 12; 10] 16
                (firstn 2 (wrap_plain E 16 max_width (split text)))) as [Hyes _];
      [descending|].
    destruct (Hyes Hacc) as (_ & Hlines & _).
    set (size := f_size (fit_combined E text max_width max_height)) in *.
    assert (f_lines (fit_combined E text max_width max_height)
            = wrap E size (max_width - 20) (split text)) as -> by exact Hlines.
    apply (wrap_with_spells _ (fun w => w <> [] /\ fits E size w (max_width - 20) = true)).
    + intros st seen w [Hw Hf]. now apply wrap_step_spells.
    + intros w Hin. split; [now apply (split_nonempty text) | now apply Hfit].
Qed.

(** The accepted size is the largest candidate whose wrapping passes the
    height and line-count test: every larger candidate fails it.  When the
    last-resort path is taken, every candidate fails.  Stated for the three
    fitters with their candidate lists and line caps. *)
Theorem accepted_size_is_the_largest_that_passes (text : pystr) (max_width max_height : Z) :
  let check f cap wrapper candidates :=
    (f_path f = Accepted ->
     In (f_size f) candidates
     /\ f_lines f = wrapper (f_size f)
     /\ passes max_height cap (f_size f) (f_lines f)
     /\ forall s, In s candidates -> f_size f < s -> ~ passes max_height cap s (wrapper s))
    /\ (f_path f = LastResort ->
        forall s, In s candidates -> ~ passes max_height cap s (wrapper s)) in
  check (fit_smart_label E text max_width max_height) 4
        (fun size => wrap E size (max_width - 20) (split text))
        [50; 45; 40; 35; 30; 25; 20; 18; 16; 14; 12]
  /\ check (fit_barcode E text max_width max_height) 3
           (fun size => wrap_plain E size max_width (split text))
           [40; 35; 30; 25; 20; 18; 16; 14; 12; 10]
  /\ check (fit_combined E text max_width max_height) 3
           (fun size => wrap E size (max_width - 20) (split text))
           [35; 30; 25; 20; 18; 16; 14; 12; 10].
Proof.
  cbv zeta. split; [|split].
  - destruct (fit_with_first (fun size => wrap E size (max_width - 20) (split text)) max_height 4
                [50; 45; 40; 35; 30; 25; 20; 18; 16; 14; 12] 20
                (firstn 3 (wrap_last E 20 (max_width - 10) (split text)))) as [Hyes Hno];
      [descending|].
    split; [exact Hyes | intros H; now apply Hno].
  - destruct (fit_with_first (fun size => wrap_plain E size max_width (split text)) max_height 3
                [40; 35; 30; 25; 20; 18; 16; 14; 12; 10] 18
                (firstn 2 (wrap_plain E 18 max_width (split text)))) as [Hyes Hno];
      [descending|].
    split; [exact Hyes | intros H; now apply Hno].
  - destruct (fit_with_first (fun size => wrap E size (max_width - 20) (split text)) max_height 3
                [35; 30; 25; 20; 18; 16; 14; 12; 10] 16
                (firstn 2 (wrap_plain E 16 max_width (split text)))) as [Hyes Hno];
      [descending|].
    split; [exact Hyes | intros H; now apply Hno].
Qed.

End FitMore.

Section FitMoreWitnesses.

Import TextFit FitNotions.

(** With box glyphs the order line is accepted whole by the fitter of
    [generate_barcode_image]. *)
Lemma accepted_lines_spell_the_text_witness :
  join (u " ") (f_lines (fit_barcode Samples.box_externals (u "Заказ:  12345-0001-1") 1303 50))
  = u "Заказ: 12345-0001-1".
Proof.
  destruct (accepted_lines_spell_the_text Samples.box_externals
              (u "Заказ:  12345-0001-1") 1303 50) as (Hplain & _).
  rewrite Hplain; vm_compute; reflexivity.
Defined.

(** In a band 30 pixels high the order line is set at size 30; size 50
    fails the height test. *)
Lemma accepted_size_is_the_largest_that_passes_witness :
  f_size (fit_smart_label Samples.box_externals (u "Заказ: 12345-0001-1") 1202 30) = 30
  /\ ~ passes 30 4 50
        (wrap Samples.box_externals 50 (1202 - 20) (split (u "Заказ: 12345-0001-1"))).
Proof.
  destruct (accepted_size_is_the_largest_that_passes Samples.box_externals
              (u "Заказ: 12345-0001-1") 1202 30) as ((Hyes & _) & _).
  split; [vm_compute; reflexivity|].
  destruct (Hyes ltac:(vm_compute; reflexivity)) as (_ & _ & _ & Hlarger).
  apply (Hlarger 50).
  - now left.
  - vm_compute. reflexivity.
Defined.

End FitMoreWitnesses.

(** ** Colour words and icons *)

Section StringFacts.

Lemma startswith_spec (s p : pystr) :
  startswith s p = true <-> exists post, s = p ++ post.
Proof.
  revert s. induction p as [|c p IH]; intros s.
  - destruct s; simpl; (split; [intros _; eexists; reflexivity | reflexivity]).
  - destruct s as [|d s]; simpl.
    + split; [discriminate | intros (post & H); discriminate].
    + rewrite andb_true_iff, N.eqb_eq, IH. split.
      * intros (-> & post & ->). now exists post.
      * intros (post & [= -> ->]). split; [reflexivity | now exists post].
Qed.

Lemma contains_spec (s p : pystr) :
  contains s p = true <-> exists pre post, s = pre ++ p ++ post.
Proof.
  induction s as [|c s IH]; cbn [contains]; rewrite orb_true_iff, startswith_spec.
  - split.
    + intros [(post & H)|H]; [|discriminate]. exists [], post. exact H.
    + intros (pre & post & H). left.
      destruct pre; [now exists post|discriminate].
  - rewrite IH. split.
    + intros [(post & H)|(pre & post & H)].
      * exists [], post. exact H.
      * exists (c :: pre), post. now rewrite H.
    + intros ([|c' pre] & post & H).
      * left. now exists post.
      * right. injection H as -> ->. now exists pre, post.
Qed.

(** A text that contains a word contains every part of that word. *)
Lemma contains_trans (s p q : pystr) :
  contains s p = true -> contains p q = true -> contains s q = true.
Proof.
  rewrite !contains_spec. intros (pre & post & ->) (pre' & post' & ->).
  exists (pre ++ pre'), (post' ++ post). now rewrite <- !app_assoc.
Qed.

Lemma startswith_eq (s p : pystr) : startswith s p = false -> str_eqb s p = false.
Proof.
  intros H. unfold str_eqb. apply bool_decide_eq_false. intros ->.
  assert (startswith p p = true) as Hp by (apply startswith_spec; exists []; now rewrite app_nil_r).
  congruence.
Qed.

Lemma lower_char_idempotent (c : N) : lower_char (lower_char c) = lower_char c.
Proof.
  unfold lower_char.
  destruct ((65 <=? c) && (c <=? 90))%N eqn:H1;
    [|destruct ((1040 <=? c) && (c <=? 1071))%N eqn:H2;
      [|destruct ((1024 <=? c) && (c <=? 1039))%N eqn:H3]].
  all: repeat match goal with
         | H : (_ && _)%bool = true |- _ => apply andb_true_iff in H as [? ?]
         | H : (_ <=? _)%N = true |- _ => apply N.leb_le in H
         end.
  all: repeat match goal with
         | |- context [((?a <=? ?b) && (?c <=? ?d))%N] =>
             first [ replace ((a <=? b) && (c <=? d))%N with false
                       by (symmetry; apply andb_false_iff;
                           first [left; apply N.leb_gt; lia | right; apply N.leb_gt; lia])
                   | rewrite H1 | rewrite H2 | rewrite H3 ]
         end; try reflexivity.
Qed.

Lemma lower_idempotent (s : pystr) : lower (lower s) = lower s.
Proof.
  unfold lower. rewrite map_map. apply map_ext. apply lower_char_idempotent.
Qed.

Lemma lower_char_not_upper_n (c : N) : lower_char c <> 78%N.
Proof.
  unfold lower_char.
  destruct ((65 <=? c) && (c <=? 90))%N eqn:H1;
    [|destruct ((1040 <=? c) && (c <=? 1071))%N eqn:H2;
      [|destruct ((1024 <=? c) && (c <=? 1039))%N eqn:H3]].
  all: repeat match goal with
         | H : (_ && _)%bool = true |- _ => apply andb_true_iff in H as [? ?]
         | H : (_ <=? _)%N = true |- _ => apply N.leb_le in H
         end; try lia.
  intros ->. discriminate.
Qed.

End StringFacts.

Section ColourFacts.

Import ProductText Icons.

Lemma first_pattern_in (name_lower : pystr) (table : list (pystr * pystr)) (c : pystr) :
  first_pattern name_lower table = Some c ->
  exists p, In (p, c) table /\ contains name_lower p = true.
Proof.
  induction table as [|[p c'] rest IH]; cbn [first_pattern]; [discriminate|].
  destruct (contains name_lower p) eqn:Hp.
  - intros [= ->]. exists p. split; [now left | exact Hp].
  - intros H. destruct (IH H) as (q & Hin & Hq). exists q. split; [now right | exact Hq].
Qed.

(** First match wins: when the entry at position [i] matches, the answer
    comes from the entries 0..[i]. *)
Lemma first_pattern_upto (name_lower : pystr) (table : list (pystr * pystr))
      (i : nat) (q c : pystr) :
  nth_error table i = Some (q, c) -> contains name_lower q = true ->
  exists c', first_pattern name_lower table = Some c'
             /\ In c' (map snd (firstn (S i) table)).
Proof.
  revert i. induction table as [|[p c0] rest IH]; intros i Hnth Hq.
  - destruct i; discriminate.
  - cbn [first_pattern]. destruct (contains name_lower p) eqn:Hp.
    + exists c0. split; [reflexivity | now left].
    + destruct i as [|i]; [injection Hnth as -> ->; congruence|].
      destruct (IH i Hnth Hq) as (c' & Hf & Hin). exists c'. split; [exact Hf|].
      cbn [firstn map]. now right.
Qed.

Lemma in_list_spec (x : pystr) (l : list pystr) : in_list x l = true <-> In x l.
Proof.
  unfold in_list. rewrite existsb_exists. split.
  - intros (y & Hin & Heq). apply str_eqb_spec in Heq. now subst.
  - intros Hin. exists x. split; [exact Hin | now apply str_eqb_spec].
Qed.

Lemma lower_not_na (s : pystr) : str_eqb (lower s) NA = false.
Proof.
  unfold str_eqb. apply bool_decide_eq_false. destruct s as [|c s]; [discriminate|].
  intros H. injection H as H _. now apply lower_char_not_upper_n in H.
Qed.

Lemma truthy_lower (s : pystr) : truthy (lower s) = truthy s.
Proof. now destruct s. Qed.

(** The colour read off a name is ['N/A'] or one of the colour words. *)
Lemma extract_color_range (product_name : pystr) :
  extract_color_from_product None product_name = NA
  \/ In (extract_color_from_product None product_name) color_words.
Proof.
  unfold extract_color_from_product.
  destruct (negb (truthy product_name) || str_eqb product_name NA); [now left|].
  destruct (first_pattern (lower product_name) color_patterns) as [c|] eqn:Hf; [|now left].
  right. apply first_pattern_in in Hf as (p & Hin & _).
  assert (forallb (fun pc => in_list (snd pc) color_words) color_patterns = true) as Hall
      by (vm_compute; reflexivity).
  rewrite forallb_forall in Hall.
  specialize (Hall _ Hin). now apply in_list_spec in Hall.
Qed.

(** A name that is empty or ['N/A'] has no colour; otherwise the colour read
    off a name is ['N/A'] or one of the seventeen colour words that
    [shorten_product_name_for_barcode] recognises; and the case of the
    letters in the name makes no difference. *)
Theorem colour_of_a_name (product_name : pystr) :
  (product_name = [] \/ product_name = NA ->
   extract_color_from_product None product_name = NA)
  /\ (extract_color_from_product None product_name = NA
      \/ In (extract_color_from_product None product_name) color_words)
  /\ extract_color_from_product None (lower product_name)
     = extract_color_from_product None product_name.
Proof.
  split; [|split].
  - intros [-> | ->]; reflexivity.
  - apply extract_color_range.
  - unfold extract_color_from_product.
    rewrite truthy_lower, lower_not_na, lower_idempotent, orb_false_r.
    destruct (truthy product_name) eqn:Ht; [|reflexivity]. cbn [negb orb].
    destruct (str_eqb product_name NA) eqn:Hna; [|reflexivity].
    apply str_eqb_spec in Hna. subst. vm_compute. reflexivity.
Qed.

Lemma colour_of_a_name_witness :
  extract_color_from_product None NA = NA.
Proof.
  destruct (colour_of_a_name NA) as (Hnone & _).
  apply Hnone. now right.
Defined.

(** The pattern ['сер'] stands before ['серебр'] in the table and is part of
    it: a name that contains ['серебр'] is given ['серый'] or a colour
    listed before it, never ['серебряный']. *)
Theorem silver_is_read_as_grey (product_name : pystr) :
  contains (lower product_name) (u "серебр") = true ->
  In (extract_color_from_product None product_name)
     [u "красный"; u "синий"; u "голубой"; u "зеленый"; u "желтый"; u "оранжевый";
      u "фиолетовый"; u "розовый"; u "фуксия"; u "коричневый"; u "черный"; u "белый";
      u "серый"]
  /\ extract_color_from_product None product_name <> u "серебряный".
Proof.
  intros Hsilver.
  assert (contains (lower product_name) (u "сер") = true) as Hgrey
      by (apply (contains_trans _ _ _ Hsilver); vm_compute; reflexivity).
  destruct (first_pattern_upto (lower product_name) color_patterns 12 (u "сер") (u "серый")
              eq_refl Hgrey) as (c & Hf & Hin).
  assert (extract_color_from_product None product_name = c) as ->.
  { unfold extract_color_from_product. rewrite Hf.
    destruct (truthy product_name) eqn:Ht.
    - destruct (str_eqb product_name NA) eqn:Hna; [|reflexivity].
      apply str_eqb_spec in Hna. subst. vm_compute in Hsilver. discriminate.
    - apply truthy_false in Ht. subst. vm_compute in Hsilver. discriminate. }
  split; [exact Hin|].
  intros ->. apply in_list_spec in Hin. vm_compute in Hin. discriminate.
Qed.

Lemma silver_is_read_as_grey_witness :
  extract_color_from_product None (u "Серебряный браслет") <> u "серебряный".
Proof.
  apply (silver_is_read_as_grey (u "Серебряный браслет")).
  vm_compute. reflexivity.
Defined.

(** A colour read off a name has an icon unless it is ['N/A'] or
    ['голубой'], which [color_map] does not list. *)
Theorem colours_without_icon (product_name : pystr) :
  let color := extract_color_from_product None product_name in
  get_color_emoji (lower color) = [] <-> color = NA \/ color = u "голубой".
Proof.
  cbv zeta.
  destruct (extract_color_range product_name) as [-> | Hin].
  - split; [now left | reflexivity].
  - revert Hin. generalize (extract_color_from_product None product_name). intros c Hin.
    vm_compute in Hin.
    repeat (destruct Hin as [<- | Hin];
            [split;
             [intros H; vm_compute in H; first [discriminate H | right; reflexivity]
             |intros [H | H]; vm_compute in H; first [discriminate H | reflexivity]]|]).
    destruct Hin.
Qed.

Lemma colours_without_icon_witness :
  get_color_emoji (lower (extract_color_from_product None (u "Голубой шарф"))) = [].
Proof.
  apply (colours_without_icon (u "Голубой шарф")).
  right. vm_compute. reflexivity.
Defined.

Lemma first_pattern_lower_idem (s : pystr) (table : list (pystr * pystr)) :
  first_pattern (lower (lower s)) table = first_pattern (lower s) table.
Proof. now rewrite lower_idempotent. Qed.

(** The type icon is never empty: it is the box for an empty name, for
    ['N/A'] and for a name without any keyword, and an icon of the table
    otherwise; the case of the letters makes no difference. *)
Theorem type_icon_of_a_name (product_name : pystr) :
  get_product_type_emoji product_name <> []
  /\ (product_name = [] \/ product_name = NA ->
      get_product_type_emoji product_name = box_emoji)
  /\ ((forall keyword icon, In (keyword, icon) product_type_map ->
                            contains (lower product_name) keyword = false) ->
      get_product_type_emoji product_name = box_emoji)
  /\ get_product_type_emoji (lower product_name) = get_product_type_emoji product_name.
Proof.
  split; [|split; [|split]].
  - unfold get_product_type_emoji.
    destruct (negb (truthy product_name) || str_eqb product_name NA); [discriminate|].
    destruct (first_pattern (lower product_name) product_type_map) as [c|] eqn:Hf;
      [|discriminate].
    apply first_pattern_in in Hf as (p & Hin & _).
    assert (forallb (fun pc => truthy (snd pc)) product_type_map = true) as Hall
        by (vm_compute; reflexivity).
    rewrite forallb_forall in Hall.
    specialize (Hall _ Hin). now apply truthy_true in Hall.
  - intros [-> | ->]; reflexivity.
  - intros Hnone. unfold get_product_type_emoji.
    destruct (negb (truthy product_name) || str_eqb product_name NA); [reflexivity|].
    destruct (first_pattern (lower product_name) product_type_map) as [c|] eqn:Hf;
      [|reflexivity].
    apply first_pattern_in in Hf as (p & Hin & Hp). rewrite (Hnone _ _ Hin) in Hp. discriminate.
  - unfold get_product_type_emoji.
    rewrite truthy_lower, lower_not_na, lower_idempotent, orb_false_r.
    destruct (truthy product_name) eqn:Ht; [|reflexivity]. cbn [negb orb].
    destruct (str_eqb product_name NA) eqn:Hna; [|reflexivity].
    apply str_eqb_spec in Hna. subst. vm_compute. reflexivity.
Qed.

Lemma type_icon_of_a_name_witness :
  get_product_type_emoji NA = box_emoji.
Proof.
  destruct (type_icon_of_a_name NA) as (_ & Hdefault & _).
  apply Hdefault. now right.
Defined.

Lemma type_icon_upto (product_name keyword icon : pystr) (i : nat) :
  nth_error product_type_map i = Some (keyword, icon) ->
  contains (lower product_name) keyword = true ->
  In (get_product_type_emoji product_name) (map snd (firstn (S i) product_type_map)).
Proof.
  intros Hnth Hk.
  destruct (first_pattern_upto _ _ _ _ _ Hnth Hk) as (c & Hf & Hin).
  unfold get_product_type_emoji. rewrite Hf.
  destruct (truthy product_name) eqn:Ht.
  - destruct (str_eqb product_name NA) eqn:Hna; [|exact Hin].
    apply str_eqb_spec in Hna. subst.
    apply first_pattern_in in Hf as (p & Hp & Hc).
    assert (forallb (fun pc => negb (contains (lower NA) (fst pc))) product_type_map = true)
      as Hall by (vm_compute; reflexivity).
    rewrite forallb_forall in Hall.
    specialize (Hall _ Hp). cbn [fst] in Hall. rewrite Hc in Hall. discriminate.
  - apply truthy_false in Ht. subst. cbn in Hk.
    destruct keyword; [|discriminate].
    assert (forallb (fun pc => truthy (fst pc)) product_type_map = true)
      as Hall by (vm_compute; reflexivity).
    rewrite forallb_forall in Hall. apply nth_error_In in Hnth.
    specialize (Hall _ Hnth). discriminate.
Qed.

(** Keywords hidden by a shorter keyword listed before them: a name that
    contains ['notebook'] contains ['book'] and never gets the notebook
    icon; a name that contains ['carpet'] contains ['car'] and never gets
    the icon of ['carpet']. *)
Theorem hidden_type_keywords (product_name : pystr) :
  (contains (lower product_name) (u "notebook") = true ->
   get_product_type_emoji product_name <> u "📓")
  /\ (contains (lower product_name) (u "carpet") = true ->
      get_product_type_emoji product_name <> u "🪞").
Proof.
  split; intros Hk.
  - assert (contains (lower product_name) (u "book") = true) as Hshort
        by (apply (contains_trans _ _ _ Hk); vm_compute; reflexivity).
    pose proof (type_icon_upto product_name (u "book") (u "📚") 129 eq_refl Hshort) as Hin.
    intros Heq. rewrite Heq in Hin.
    assert (in_list (u "📓") (map snd (firstn 130 product_type_map)) = false) as Hno
        by (vm_compute; reflexivity).
    apply in_list_spec in Hin. congruence.
  - assert (contains (lower product_name) (u "car") = true) as Hshort
        by (apply (contains_trans _ _ _ Hk); vm_compute; reflexivity).
    pose proof (type_icon_upto product_name (u "car") (u "🚗") 23 eq_refl Hshort) as Hin.
    intros Heq. rewrite Heq in Hin.
    assert (in_list (u "🪞") (map snd (firstn 24 product_type_map)) = false) as Hno
        by (vm_compute; reflexivity).
    apply in_list_spec in Hin. congruence.
Qed.

Lemma hidden_type_keywords_witness :
  get_product_type_emoji (u "Notebook A5") <> u "📓".
Proof.
  apply (hidden_type_keywords (u "Notebook A5")).
  vm_compute. reflexivity.
Defined.

End ColourFacts.

(** ** The length cap of short names *)

Section ShortNameFacts.

Import ProductText.

Lemma len_app (a b : pystr) : len (a ++ b) = len a + len b.
Proof. unfold len. rewrite length_app. lia. Qed.

Lemma len_nonneg (a : pystr) : 0 <= len a.
Proof. unfold len. lia. Qed.

Lemma take_words_cap (reserve max_length : Z) (words : list pystr) (result : pystr) :
  (result = [] \/ len result + reserve <= max_length) ->
  let r := take_words reserve max_length result words in
  r = [] \/ len r + reserve <= max_length.
Proof.
  revert result. induction words as [|w words IH]; intros result Hres; cbn [take_words];
    [exact Hres|].
  destruct (len (append_word result w) + reserve <=? max_length) eqn:Hfit; [|exact Hres].
  apply IH. right. now apply Z.leb_le.
Qed.

Lemma abbreviate_cap (max_length : Z) (words shortened : list pystr) (current_length : Z) :
  (shortened = [] /\ current_length = 0
   \/ shortened <> [] /\ len (join space shortened) + 1 = current_length
      /\ current_length <= max_length) ->
  let out := abbreviate max_length shortened current_length words in
  out = [] \/ len (join space out) + 1 <= max_length.
Proof.
  revert shortened current_length.
  assert (forall shortened current_length piece,
             (shortened = [] /\ current_length = 0
              \/ shortened <> [] /\ len (join space shortened) + 1 = current_length
                 /\ current_length <= max_length) ->
             current_length + len piece + 1 <= max_length ->
             len (join space (shortened ++ [piece])) + 1 = current_length + len piece + 1)
    as Hpiece.
  { intros shortened current_length piece Hinv Hfit. rewrite join_snoc.
    destruct shortened as [|s0 rest].
    - destruct Hinv as [[_ ->] | [Hne _]]; [lia | contradiction].
    - destruct Hinv as [[H _] | (_ & Hl & _)]; [discriminate|].
      rewrite !len_app. change (len space) with 1. lia. }
  induction words as [|w words IH]; intros shortened current_length Hinv; cbn [abbreviate].
  - destruct Hinv as [[-> _] | (_ & Hl & Hc)]; [now left | right; lia].
  - assert (forall piece, shortened ++ [piece] <> []) as Hne
        by (intros piece; destruct shortened; discriminate).
    destruct (4 <? len w).
    + destruct (current_length + len (slice_to w 3 ++ u ".") + 1 <=? max_length) eqn:Hfit.
      * apply Z.leb_le in Hfit. apply IH. right.
        split; [apply Hne|]. split; [now apply Hpiece | exact Hfit].
      * destruct Hinv as [[-> _] | (_ & Hl & Hc)]; [now left | right; lia].
    + destruct (current_length + len w + 1 <=? max_length) eqn:Hfit.
      * apply Z.leb_le in Hfit. apply IH. right.
        split; [apply Hne|]. split; [now apply Hpiece | exact Hfit].
      * destruct Hinv as [[-> _] | (_ & Hl & Hc)]; [now left | right; lia].
Qed.

Lemma slice_to_cap (s : pystr) (n : Z) : 0 <= n -> len (slice_to s n) <= n.
Proof.
  intros Hn. unfold slice_to, len.
  replace (n <? 0) with false by (symmetry; apply Z.ltb_ge; lia).
  rewrite length_firstn. lia.
Qed.

(** The result of [shorten_product_name_for_barcode] is at most
    [max_length] characters long, with two exceptions: the placeholder
    ['Товар'] that stands for a missing name, and a colour word standing
    alone when nothing else fits beside it. *)
Theorem short_name_cap (product_name : pystr) (max_length : Z) :
  0 <= max_length ->
  let short := shorten_product_name_for_barcode product_name max_length in
  len short <= max_length
  \/ short = Tovar
  \/ In (lower short) color_words.
Proof.
  intros Hn. cbv zeta. unfold shorten_product_name_for_barcode.
  destruct (negb (truthy product_name) || str_eqb product_name NA); [right; now left|].
  destruct (len (clean product_name) <=? max_length) eqn:Hshort;
    [left; now apply Z.leb_le|].
  destruct (split (clean product_name)) as [|w0 ws] eqn:Hwords;
    [left; now apply slice_to_cap|].
  destruct (find _ (w0 :: ws)) as [color_found|] eqn:Hfind.
  - apply find_some in Hfind as [_ Hcolor]. apply in_list_spec in Hcolor.
    match goal with
    | |- context [take_words ?r ?m [] ?l] =>
        pose proof (take_words_cap r m l [] (or_introl eq_refl)) as Hcap;
          cbv zeta in Hcap; destruct (take_words r m [] l) as [|c0 result]
    end.
    + right. right. exact Hcolor.
    + left. destruct Hcap as [H|Hcap]; [discriminate|].
      cbn [truthy]. rewrite !len_app. change (len space) with 1. lia.
  - match goal with
    | |- context [take_words 0 ?m [] ?l] =>
        pose proof (take_words_cap 0 m l [] (or_introl eq_refl)) as Hcap;
          cbv zeta in Hcap; destruct (take_words 0 m [] l) as [|c0 result]
    end.
    + cbn [truthy].
      pose proof (abbreviate_cap max_length (w0 :: ws) [] 0 (or_introl (conj eq_refl eq_refl)))
        as Habbr. cbv zeta in Habbr.
      destruct (truthy (join space (abbreviate max_length [] 0 (w0 :: ws)))) eqn:Ht.
      * left. destruct Habbr as [Hnil | Hle]; [rewrite Hnil in Ht; discriminate | lia].
      * left. now apply slice_to_cap.
    + left. destruct Hcap as [H|Hcap]; [discriminate|]. cbn [truthy]. lia.
Qed.

Lemma short_name_cap_witness :
  len (shorten_product_name_for_barcode (u "Набор кухонных полотенец из микрофибры") 20) <= 20.
Proof.
  destruct (short_name_cap (u "Набор кухонных полотенец из микрофибры") 20) as [H|[H|H]].
  - lia.
  - exact H.
  - apply str_eqb_spec in H. vm_compute in H. discriminate.
  - apply in_list_spec in H. vm_compute in H. discriminate.
Defined.

End ShortNameFacts.

(** ** Repeated and new postings *)

Section MonitorMore.

Import Monitor.

Lemma scan_order_grows (st : list order * gset pystr) (o : order) :
  snd st ⊆ snd (scan_order st o).
Proof.
  destruct st as [new_orders P]. unfold scan_order.
  destruct (posting_number o) as [pn|]; [|done].
  destruct (truthy pn && negb (bool_decide (pn ∈ P))); [|done].
  apply union_subseteq_l.
Qed.

Lemma scan_orders_grow (orders : list order) (st : list order * gset pystr) :
  snd st ⊆ snd (fold_left scan_order orders st).
Proof.
  revert st. induction orders as [|o orders IH]; intros st; cbn [fold_left]; [done|].
  etrans; [apply scan_order_grows | apply IH].
Qed.

(** After a pass, every listed posting with a non-empty number is in the
    set. *)
Lemma scan_orders_record (orders : list order) (st : list order * gset pystr)
      (o : order) (pn : pystr) :
  In o orders -> posting_number o = Some pn -> pn <> [] ->
  pn ∈ snd (fold_left scan_order orders st).
Proof.
  revert st. induction orders as [|o0 orders IH]; intros st Hin Hpn Hne; [destruct Hin|].
  cbn [fold_left]. destruct Hin as [->|Hin]; [|now apply IH].
  apply (scan_orders_grow orders (scan_order st o)).
  destruct st as [new_orders P]. unfold scan_order. rewrite Hpn.
  assert (truthy pn = true) as -> by (destruct pn; [contradiction|reflexivity]).
  destruct (bool_decide (pn ∈ P)) eqn:Hseen; cbn [andb negb snd].
  - now apply bool_decide_eq_true in Hseen.
  - apply elem_of_union. right. now apply elem_of_singleton.
Qed.

(** A pass over postings that are all in the set changes nothing. *)
Lemma scan_orders_known (orders : list order) (new_orders : list order) (P : gset pystr) :
  (forall o pn, In o orders -> posting_number o = Some pn -> pn <> [] -> pn ∈ P) ->
  fold_left scan_order orders (new_orders, P) = (new_orders, P).
Proof.
  induction orders as [|o orders IH]; intros Hknown; [reflexivity|].
  cbn [fold_left].
  assert (scan_order (new_orders, P) o = (new_orders, P)) as ->.
  { unfold scan_order. destruct (posting_number o) as [pn|] eqn:Hpn; [|reflexivity].
    destruct (truthy pn) eqn:Ht; [|reflexivity].
    assert (pn ∈ P) as Hin
        by (apply (Hknown o pn); [now left | exact Hpn | now apply truthy_true]).
    now rewrite (bool_decide_eq_true_2 _ Hin). }
  apply IH. intros o' pn Hin. apply Hknown. now right.
Qed.

(** A pass names every posting that is listed with a non-empty number not
    yet in the set. *)
Lemma scan_orders_name (orders : list order) (new_orders : list order) (P : gset pystr)
      (o : order) (pn : pystr) :
  In o orders -> posting_number o = Some pn -> pn <> [] -> pn ∉ P ->
  pn ∈ omap posting_number (fst (fold_left scan_order orders (new_orders, P))).
Proof.
  revert new_orders P. induction orders as [|o0 orders IH]; intros new_orders P Hin Hpn Hne Hnew;
    [destruct Hin|].
  cbn [fold_left].
  assert (forall st, pn ∈ omap posting_number (fst st) ->
                     pn ∈ omap posting_number (fst (fold_left scan_order orders st))) as Hkeep.
  { intros [n0 P0] Hhere. destruct (scan_orders_spec orders n0 P0) as (added & -> & _).
    rewrite omap_app. apply elem_of_app. now left. }
  assert (truthy pn = true) as Ht by (destruct pn; [contradiction|reflexivity]).
  unfold scan_order at 2. destruct (posting_number o0) as [pn0|] eqn:Hpn0.
  - destruct (truthy pn0 && negb (bool_decide (pn0 ∈ P))) eqn:Hfresh.
    + destruct (decide (pn0 = pn)) as [->|Hdiff].
      * apply Hkeep. cbn [fst]. rewrite omap_app. apply elem_of_app. right.
        apply list_elem_of_omap. exists o0. split; [apply list_elem_of_In; now left | exact Hpn0].
      * destruct Hin as [->|Hin]; [congruence|].
        apply IH; auto. intros Hu. apply elem_of_union in Hu as [Hu|Hu]; [contradiction|].
        apply elem_of_singleton in Hu. congruence.
    + destruct Hin as [->|Hin]; [|now apply IH].
      rewrite Hpn in Hpn0. injection Hpn0 as <-. rewrite Ht in Hfresh.
      apply negb_false_iff, bool_decide_eq_true in Hfresh. contradiction.
  - destruct Hin as [->|Hin]; [congruence | now apply IH].
Qed.

(** No new posting is missed, and none is reported twice in a row: a check
    names, in its notification, every listed posting whose non-empty number
    was not yet in the set; checking the same answer again changes nothing
    and sends nothing. *)
Theorem check_new_orders_is_complete_and_quiet
        (processed_orders : gset pystr) (response : orders_response) :
  (forall orders o pn,
      response = ListPostings orders -> In o orders ->
      posting_number o = Some pn -> pn <> [] -> pn ∉ processed_orders ->
      exists notified,
        snd (check_new_orders processed_orders response) = Some notified
        /\ pn ∈ omap posting_number notified)
  /\ check_new_orders (fst (check_new_orders processed_orders response)) response
     = (fst (check_new_orders processed_orders response), None).
Proof.
  split.
  - intros orders o pn -> Hin Hpn Hne Hnew.
    pose proof (scan_orders_name orders [] processed_orders o pn Hin Hpn Hne Hnew) as Hnamed.
    unfold check_new_orders. destruct orders as [|o0 orders]; [destruct Hin|].
    destruct (fold_left scan_order (o0 :: orders) ([], processed_orders)) as [new_orders P'].
    cbn [fst] in Hnamed. destruct new_orders as [|n0 new_orders]; [inversion Hnamed|].
    cbn [snd]. eexists. split; [reflexivity | exact Hnamed].
  - destruct response as [message|[|o0 orders]]; try reflexivity.
    assert (fst (check_new_orders processed_orders (ListPostings (o0 :: orders)))
            = snd (fold_left scan_order (o0 :: orders) ([], processed_orders))) as HP.
    { unfold check_new_orders.
      destruct (fold_left scan_order (o0 :: orders) ([], processed_orders)) as [n P'].
      now destruct n. }
    rewrite HP. unfold check_new_orders at 1.
    rewrite scan_orders_known; [reflexivity|].
    intros o pn Hin Hpn Hne. now apply (scan_orders_record (o0 :: orders) _ o pn).
Qed.

(** In the sample run the posting A-3 is new at the second poll. *)
Lemma check_new_orders_is_complete_and_quiet_witness :
  exists notified,
    snd (check_new_orders {[u "A-1"; u "A-2"]}
           (ListPostings [mkOrder (Some (u "A-2")) None; mkOrder (Some (u "A-3")) None]))
    = Some notified
    /\ u "A-3" ∈ omap posting_number notified.
Proof.
  destruct (check_new_orders_is_complete_and_quiet {[u "A-1"; u "A-2"]}
              (ListPostings [mkOrder (Some (u "A-2")) None; mkOrder (Some (u "A-3")) None]))
    as (Hcomplete & _).
  apply (Hcomplete _ (mkOrder (Some (u "A-3")) None) (u "A-3") eq_refl).
  - right. now left.
  - reflexivity.
  - discriminate.
  - intros Hin. apply elem_of_union in Hin as [Hin|Hin];
      apply elem_of_singleton in Hin; vm_compute in Hin; discriminate.
Defined.

End MonitorMore.

(** ** Button data *)

Section ButtonFacts.

Import Bot Access Postings.

Lemma contains_cons_false (c : N) (s p : pystr) :
  contains (c :: s) p = false -> startswith (c :: s) p = false /\ contains s p = false.
Proof. cbn [contains]. intros H. now apply orb_false_iff in H. Qed.

Lemma remove_all_absent (fuel : nat) (s old : pystr) :
  contains s old = false -> remove_all_aux fuel s old = s.
Proof.
  revert s. induction fuel as [|fuel IH]; intros s Hno; [reflexivity|].
  destruct s as [|c s]; [reflexivity|]. cbn [remove_all_aux].
  apply contains_cons_false in Hno as [Hhere Hlater]. rewrite Hhere. f_equal. now apply IH.
Qed.

Lemma startswith_app (p s : pystr) : startswith (p ++ s) p = true.
Proof. apply startswith_spec. now exists s. Qed.

(** Removing a prefix that does not occur again gives back the rest. *)
Lemma replace_prefix (p s : pystr) :
  p <> [] -> contains s p = false -> replace_with_empty (p ++ s) p = s.
Proof.
  intros Hp Hno. unfold replace_with_empty. destruct p as [|c p]; [contradiction|].
  set (old := c :: p) in *.
  destruct (length (old ++ s)) as [|fuel] eqn:Hlen; [discriminate|].
  cbn [remove_all_aux]. change (old ++ s) with (c :: (p ++ s)) at 1.
  cbv iota. change (c :: (p ++ s)) with (old ++ s).
  rewrite startswith_app, skipn_app, skipn_all, Nat.sub_diag. cbn [skipn app].
  now apply remove_all_absent.
Qed.

Lemma contains_chars (s p : pystr) (c : N) :
  contains s p = true -> In c p -> In c s.
Proof.
  intros H Hc. apply contains_spec in H as (pre & post & ->).
  apply in_or_app. right. apply in_or_app. now left.
Qed.

(** A posting number holds no letter and no underscore. *)
Lemma posting_chars_exclude (pn p : pystr) (c : N) :
  posting_chars pn = true -> In c p ->
  (is_ascii_digit c || (c =? 45)%N) = false ->
  contains pn p = false.
Proof.
  intros Hpn Hc Hbad. destruct (contains pn p) eqn:Hcont; [|reflexivity].
  pose proof (contains_chars _ _ _ Hcont Hc) as Hin.
  unfold posting_chars in Hpn. rewrite forallb_forall in Hpn.
  rewrite (Hpn c Hin) in Hbad. discriminate.
Qed.

Lemma posting_chars_startswith (pn p : pystr) (c : N) :
  posting_chars pn = true -> (is_ascii_digit c || (c =? 45)%N) = false ->
  startswith pn (c :: p) = false.
Proof.
  intros Hpn Hbad. destruct pn as [|d pn]; [reflexivity|]. cbn [startswith].
  destruct (c =? d)%N eqn:Heq; [|reflexivity]. apply N.eqb_eq in Heq. subst d.
  cbn [posting_chars forallb] in Hpn. rewrite Hbad in Hpn. discriminate.
Qed.

Lemma startswith_same_prefix (p s q : pystr) :
  startswith (p ++ s) (p ++ q) = startswith s q.
Proof.
  induction p as [|c p IH]; [reflexivity|]. cbn [app startswith].
  now rewrite N.eqb_refl, IH.
Qed.


Lemma in_by_eqb (c : N) (l : pystr) : existsb (N.eqb c) l = true -> In c l.
Proof.
  intros H. apply existsb_exists in H as (d & Hin & Heq). apply N.eqb_eq in Heq. now subst.
Qed.

Lemma split_on_aux_cons (sep : N) (s cur : pystr) :
  exists first others, split_on_aux sep s cur = first :: others.
Proof.
  revert cur. induction s as [|c s IH]; intros cur; cbn [split_on_aux]; [eauto|].
  destruct (c =? sep)%N; [eauto | apply IH].
Qed.

Lemma products_tests (pn : pystr) :
  posting_chars pn = true ->
  startswith (u "products_" ++ pn) (u "products_page_") = false
  /\ str_eqb (u "products_" ++ pn) (u "products_packaging") = false
  /\ str_eqb (u "products_" ++ pn) (u "products_delivery") = false.
Proof.
  intros Hpn. split; [|split]; [|apply startswith_eq|apply startswith_eq].
  - change (u "products_page_") with (u "products_" ++ 112%N :: u "age_").
    rewrite startswith_same_prefix. now apply posting_chars_startswith.
  - change (u "products_packaging") with (u "products_" ++ 112%N :: u "ackaging").
    rewrite startswith_same_prefix. now apply posting_chars_startswith.
  - change (u "products_delivery") with (u "products_" ++ 100%N :: u "elivery").
    rewrite startswith_same_prefix. now apply posting_chars_startswith.
Qed.

Ltac open_dispatch :=
  unfold dispatch; cbv beta zeta;
  cbn [call_data call_chat_id call_from_user_id call_message_id].

(** Turn every test that the data visibly fails into [false]. *)
Ltac skip_tests :=
  repeat match goal with
    | |- context [str_eqb ?d (u ?l)] =>
        rewrite (startswith_eq d (u l)) by reflexivity
    | |- context [startswith ?d (u ?l)] =>
        let H := fresh in
        assert (startswith d (u l) = false) as H by reflexivity; rewrite H; clear H
    end.

Ltac take_prefix Hpn :=
  rewrite startswith_app, replace_prefix;
  [ reflexivity
  | discriminate
  | apply (posting_chars_exclude _ _ 95%N Hpn); [apply in_by_eqb; reflexivity | reflexivity] ].

(** The buttons that carry a posting number lead back to that posting:
    for a number made of digits and hyphens, the data written by the order
    views is decoded to the method it was written for, with the same
    number. *)
Theorem posting_buttons_round_trip (cfg : config) (id : pystr) (uid chat mid : Z) (pn : pystr) :
  posting_chars pn = true ->
  let press data := dispatch cfg (mkCall id uid chat mid data) in
  press (u "order_" ++ pn) = Completed [Invoke (ShowOrderDetails chat pn)]
  /\ press (u "ship_" ++ pn) = Completed [Invoke (ShipOrder chat pn mid)]
  /\ press (u "download_label_" ++ pn) = Completed [Invoke (GetSingleLabel chat pn)]
  /\ press (u "products_" ++ pn) = Completed [Invoke (ShowOrderProducts chat pn)]
  /\ press (u "barcodes_" ++ pn) = Completed [Invoke (GetOrderBarcodes chat pn)]
  /\ press (u "combined_" ++ pn) = Completed [Invoke (GetCombinedBarcodeLabel chat pn)].
Proof.
  intros Hpn. cbv zeta. repeat split.
  - open_dispatch. skip_tests. take_prefix Hpn.
  - open_dispatch. skip_tests. take_prefix Hpn.
  - open_dispatch. skip_tests. take_prefix Hpn.
  - destruct (products_tests pn Hpn) as (Hpage & Hpack & Hdel).
    open_dispatch. rewrite Hpage, Hpack, Hdel. skip_tests. take_prefix Hpn.
  - open_dispatch. skip_tests. take_prefix Hpn.
  - open_dispatch. skip_tests. take_prefix Hpn.
Qed.

Lemma posting_buttons_round_trip_witness :
  dispatch Samples.owner (mkCall (u "q1") 12345 12345 1 (u "combined_" ++ u "12345678-0001-1"))
  = Completed [Invoke (GetCombinedBarcodeLabel 12345 (u "12345678-0001-1"))].
Proof.
  apply (posting_buttons_round_trip Samples.owner (u "q1") 12345 12345 1 (u "12345678-0001-1")).
  vm_compute. reflexivity.
Defined.

(** Every data that starts with ["product_"] is taken by the branch that
    splits it at the underscores and shows a product of an order.  So the
    branch for ["product_detail_"] below it is never reached: such data
    shows the product ["detail"] of an order; the button ["product_info_"]
    of the product lists shows the product ["info"]; and the button
    ["manual_stock_"] of the stock menu, which no branch reads, is answered
    and does nothing. *)
Theorem product_buttons (cfg : config) (id : pystr) (uid chat mid : Z) (tail : pystr) :
  let press data := dispatch cfg (mkCall id uid chat mid data) in
  press (u "product_" ++ tail)
  = match split_on 95 tail with
    | sku :: posting_number :: _ =>
        Completed [Invoke (ShowProductFromOrder chat sku posting_number)]
    | _ => Completed []
    end
  /\ (exists first others,
         split_on 95 tail = first :: others
         /\ press (u "product_detail_" ++ tail)
            = Completed [Invoke (ShowProductFromOrder chat (u "detail") first)]
         /\ press (u "product_info_" ++ tail)
            = Completed [Invoke (ShowProductFromOrder chat (u "info") first)])
  /\ press (u "manual_stock_" ++ tail) = Completed [].
Proof.
  cbv zeta.
  assert (forall t,
             dispatch cfg (mkCall id uid chat mid (u "product_" ++ t))
             = match split_on 95 t with
               | sku :: posting_number :: _ =>
                   Completed [Invoke (ShowProductFromOrder chat sku posting_number)]
               | _ => Completed []
               end) as Hbranch.
  { intros t. open_dispatch. skip_tests. rewrite startswith_app.
    change (split_on 95 (u "product_" ++ t)) with (u "product" :: split_on 95 t).
    destruct (split_on 95 t) as [|a [|b r]]; reflexivity. }
  split; [apply Hbranch|]. split.
  - destruct (split_on_aux_cons 95 tail []) as (first & others & Hsplit).
    exists first, others. split; [exact Hsplit|]. split.
    + change (u "product_detail_" ++ tail) with (u "product_" ++ (u "detail_" ++ tail)).
      rewrite Hbranch.
      change (split_on 95 (u "detail_" ++ tail)) with (u "detail" :: split_on 95 tail).
      unfold split_on. now rewrite Hsplit.
    + change (u "product_info_" ++ tail) with (u "product_" ++ (u "info_" ++ tail)).
      rewrite Hbranch.
      change (split_on 95 (u "info_" ++ tail)) with (u "info" :: split_on 95 tail).
      unfold split_on. now rewrite Hsplit.
  - open_dispatch. skip_tests. reflexivity.
Qed.

Ltac shape_step :=
  match goal with
  | |- press_shape _ (if ?b then _ else _) => destruct b eqn:?
  | |- press_shape _ (match ?x with _ => _ end) => destruct x eqn:?
  | |- press_shape _ (Completed (show_main_menu _ _ _)) =>
      unfold show_main_menu; destruct (negb _)
  end.

(** The dispatching code of [callback_handler], for an admitted user: it
    hands over to at most one handler or sends at most one message, and by
    itself it raises only in the two branches that read a number with
    [int()], for the pages of the product list and for the stock update,
    before it has called anything.  A handler is recorded as a call: what
    it does once called, an exception it raises included, is not part of
    the statement. *)
Theorem one_press_one_action (cfg : config) (c : callback_query) :
  press_shape (call_data c) (dispatch cfg c).
Proof.
  open_dispatch.
  repeat shape_step;
    cbn [press_shape length send_access_denied]; auto with arith.
Qed.

End ButtonFacts.

(** ** What the label handlers always do *)

Section HandlerFacts.

Import ProductText Label Bot.

Context (E : externals) (M : marketplace).

(** [get_combined_barcode_label] never lets an exception escape and never
    ends silently: whatever the marketplace and the pipeline return, its
    run completes, it starts with the progress message, and its last
    effect is a message to the same chat with the button back to the main
    menu. *)
Theorem combined_label_always_answers (chat_id : Z) (posting_number : pystr) :
  exists trace text reply_markup,
    get_combined_barcode_label E M chat_id posting_number = Completed trace
    /\ head trace
       = Some (SendMessage chat_id
                 (u "⏳ Создаю комбинированный файл для заказа " ++ posting_number ++ u "...")
                 [] false)
    /\ last trace = Some (SendMessage chat_id text reply_markup false)
    /\ In [(u "🔙 Главное меню", u "main_menu")] reply_markup.
Proof.
  unfold get_combined_barcode_label.
  destruct (api_get_order_details M posting_number) as [message|[|p ps]].
  1,2: eexists _, _, _; split; [reflexivity|]; split; [reflexivity|];
       split; [reflexivity|]; now left.
  destruct (api_get_package_label M [posting_number])
    as [message|file_content file_name|printed|].
  1,3,4: eexists _, _, _; split; [reflexivity|]; split; [reflexivity|];
         split; [reflexivity|]; now left.
  destruct (generate_smart_label E file_content (get_name p) posting_number (Some (p :: ps)))
    as [smart_label|].
  2: eexists _, _, _; split; [reflexivity|]; split; [reflexivity|];
     split; [reflexivity|]; now left.
  destruct (map sku_of (filter (fun p0 => truthy (sku_of p0)) (p :: ps))) as [|s0 skus].
  1: eexists _, _, _; split; [reflexivity|]; split; [reflexivity|];
     split; [reflexivity|]; now left.
  destruct (api_product_info_list M (s0 :: skus)) as [message|detailed_products].
  1: eexists _, _, _; split; [reflexivity|]; split; [reflexivity|];
     split; [reflexivity|]; now left.
  destruct (create_combined_barcode_label_image E posting_number (p :: ps) _ smart_label)
    as [combined_image|].
  - eexists _, _, _. split; [reflexivity|]. split; [reflexivity|].
    split; [reflexivity|]. right. now left.
  - eexists _, _, _. split; [reflexivity|]. split; [reflexivity|].
    split; [reflexivity|]. now left.
Qed.

(** Over the answers the marketplace client can give (an error, a file, a
    mapping with neither key, or [None]) and with messaging calls that
    succeed, [get_single_label] lets an exception escape in exactly two
    situations.  The client answered [None]: the membership test on it
    raises [TypeError].  Or the client served a label file but the order
    details carry an error or no product: [products] is read before it was
    assigned, an [UnboundLocalError].  Either way the progress message is
    the only thing sent by then.  In every other situation the run
    completes with a message that carries the button back to the main
    menu. *)
Theorem single_label_outcome (chat_id : Z) (posting_number : pystr) :
  let answer := api_get_package_label M [posting_number] in
  let served_a_file :=
    exists file_content file_name, answer = LabelFile file_content file_name in
  let has_products :=
    exists p ps, api_get_order_details M posting_number = OrderResult (p :: ps) in
  match get_single_label E M chat_id posting_number with
  | Raised trace exception =>
      (answer = LabelNone /\ exception = u "TypeError"
       \/ served_a_file /\ ~ has_products /\ exception = u "UnboundLocalError")
      /\ exists requests,
          trace = SendMessage chat_id
                    (u "⏳ Генерирую этикетку для " ++ posting_number ++ u "...") [] false
                  :: requests
          /\ Forall (fun e => exists endpoint argument, e = ApiRequest endpoint argument)
                    requests
  | Completed trace =>
      answer <> LabelNone
      /\ ~ (served_a_file /\ ~ has_products)
      /\ exists text,
          last trace = Some (SendMessage chat_id text main_menu_keyboard false)
  end.
Proof.
  cbv zeta. unfold get_single_label.
  destruct (api_get_package_label M [posting_number])
    as [message|file_content file_name|printed|].
  - split; [discriminate|]. split; [intros [(c & f & H) _]; discriminate|].
    eexists. reflexivity.
  - destruct (api_get_order_details M posting_number) as [message|[|p ps]].
    + split.
      * right. split; [eauto|]. split; [intros (p & ps & H); discriminate|reflexivity].
      * eexists. split; [reflexivity|]. repeat constructor; eauto.
    + split.
      * right. split; [eauto|]. split; [intros (p & ps & H); discriminate|reflexivity].
      * eexists. split; [reflexivity|]. repeat constructor; eauto.
    + split; [discriminate|]. split; [intros [_ Hno]; apply Hno; eauto|].
      destruct (generate_smart_label E file_content (get_name p) posting_number
                                     (Some (p :: ps))); eexists; reflexivity.
  - split; [discriminate|]. split; [intros [(c & f & H) _]; discriminate|].
    eexists. reflexivity.
  - split.
    + left. split; reflexivity.
    + eexists. split; [reflexivity|]. repeat constructor; eauto.
Qed.

End HandlerFacts.

(** With the sample shop and an unreadable file the operator still gets a
    last message with the way back. *)
Lemma single_label_outcome_example :
  exists trace text,
    Bot.get_single_label Samples.broken_pdf_externals Samples.shop 7 (u "0001")
    = Bot.Completed trace
    /\ last trace = Some (Bot.SendMessage 7 text Bot.main_menu_keyboard false).
Proof. eexists _, _. split; reflexivity. Qed.

(** ** The label picture and the barcode panels *)

Section LabelFacts.

Import TextFit ProductText Barcode Label Bot.

Context (E : externals).

Lemma smart_crop_image_height (img : image) :
  height (smart_crop_image img) = height img.
Proof.
  unfold smart_crop_image. destruct (_ || _); simpl; lia.
Qed.

Lemma smart_label_canvas_height (Hok : externals_ok E) (pdf_img : image)
      (product_name posting_number : pystr) (products_info : option (list product)) :
  height (smart_label_canvas E pdf_img product_name posting_number products_info)
  = width pdf_img + 200.
Proof.
  unfold smart_label_canvas. rewrite !(draw_fitted_height E Hok). reflexivity.
Qed.

(** [generate_smart_label] answers with a picture exactly when the document
    opens and its first page renders; later pages are never looked at.  The
    picture is 200 pixels higher than the page is wide (the page is turned
    by a quarter and the text band is added below; the cropper only cuts
    columns), and it is at most as wide as the page is high and at most
    1202 pixels wide. *)
Theorem smart_label_shape (Hok : externals_ok E) (pdf_content : list N)
        (product_name posting_number : pystr) (products_info : option (list product)) :
  match generate_smart_label E pdf_content product_name posting_number products_info with
  | Some label =>
      exists page rest,
        fitz_open E pdf_content = Some (Some page :: rest)
        /\ height label = width page + 200
        /\ width label <= height page
        /\ width label <= 1202
  | None =>
      fitz_open E pdf_content = None
      \/ fitz_open E pdf_content = Some []
      \/ exists rest, fitz_open E pdf_content = Some (None :: rest)
  end.
Proof.
  unfold generate_smart_label.
  destruct (fitz_open E pdf_content) as [[|[page|] rest]|]; eauto.
  exists page, rest. split; [reflexivity|].
  rewrite smart_crop_image_height, (smart_label_canvas_height Hok).
  split; [reflexivity|].
  pose proof (proj1 (smart_crop_image_width
                       (smart_label_canvas E page product_name posting_number products_info)))
    as Hw.
  rewrite (smart_label_canvas_width E Hok) in Hw.
  change (width (rotate90_expand page)) with (height page) in Hw. lia.
Qed.

(** The panel loop of [create_combined_barcode_label_image] draws at most
    one panel per line item, and only for line items whose SKU is listed
    with at least one barcode: when no line item is, the function returns
    nothing, whatever the label.  When the barcode writer and the resize
    never fail, one listed line item is enough for a picture. *)
Theorem barcode_panels (products : list product) (products_by_sku : gmap pystr (list pystr)) :
  let listed p := exists barcode others, products_by_sku !! sku_of p = Some (barcode :: others) in
  (length (collect_barcodes E products products_by_sku) <= length products)%nat
  /\ (forall posting_number smart_label,
         is_Some (create_combined_barcode_label_image E posting_number products
                    products_by_sku smart_label) ->
         Exists listed products)
  /\ ((forall payload, is_Some (code128_render E payload 1 50 4)) ->
      (forall img w h, is_Some (resize_lanczos E img w h)) ->
      forall posting_number smart_label,
        Exists listed products ->
        is_Some (create_combined_barcode_label_image E posting_number products
                   products_by_sku smart_label)).
Proof.
  cbv zeta.
  assert (forall products0,
             collect_barcodes E products0 products_by_sku <> [] ->
             Exists (fun p => exists barcode others,
                         products_by_sku !! sku_of p = Some (barcode :: others)) products0)
    as Honly.
  { induction products0 as [|p rest IH]; [intros H; now elim H|].
    cbn [collect_barcodes]. fold (sku_of p).
    destruct (products_by_sku !! sku_of p) as [[|barcode others]|] eqn:Hget.
    - intros H. apply Exists_cons_tl. now apply IH.
    - intros _. apply Exists_cons_hd. eauto.
    - intros H. apply Exists_cons_tl. now apply IH. }
  split; [|split].
  - induction products as [|p rest IH]; [reflexivity|].
    cbn [collect_barcodes]. rewrite length_app. cbn [length].
    destruct (products_by_sku !! _) as [[|barcode others]|]; cbn [length]; try lia.
    destruct (generate_barcode_image_for_combined E barcode _ _); cbn [length]; lia.
  - intros posting_number smart_label [img Himg]. apply Honly.
    unfold create_combined_barcode_label_image, combine in Himg.
    destruct (collect_barcodes E products products_by_sku); [discriminate|discriminate].
  - intros Hrender Hresize posting_number smart_label Hex.
    unfold create_combined_barcode_label_image, combine.
    assert (collect_barcodes E products products_by_sku <> []) as Hne.
    { induction Hex as [p rest (barcode & others & Hget)|p rest Hex IH].
      - cbn [collect_barcodes]. fold (sku_of p). rewrite Hget.
        unfold generate_barcode_image_for_combined.
        destruct (Hrender barcode) as [raw ->].
        assert (is_Some (fit_symbol E raw)) as [symbol ->].
        { unfold fit_symbol. destruct (MAX_WIDTH <? width raw); [apply Hresize|eauto]. }
        discriminate.
      - cbn [collect_barcodes]. intros Happ. apply app_eq_nil in Happ as [_ Happ].
        now apply IH. }
    destruct (collect_barcodes E products products_by_sku); [now elim Hne|eauto].
Qed.

End LabelFacts.

(** The sample document has one page of 400 x 300 pixels: its label is 600
    pixels high. *)
Lemma smart_label_shape_witness :
  externals_ok Samples.box_externals
  /\ exists label,
      Label.generate_smart_label Samples.box_externals [] (u "Чехол") (u "0001") None
      = Some label
      /\ height label = 600.
Proof.
  split; [exact box_externals_ok|].
  pose proof (smart_label_shape Samples.box_externals box_externals_ok []
                (u "Чехол") (u "0001") None) as H.
  destruct (Label.generate_smart_label Samples.box_externals [] (u "Чехол") (u "0001") None)
    as [label|].
  - exists label. split; [reflexivity|].
    destruct H as (page & rest & Hopen & Hh & _).
    injection Hopen as <- _. exact Hh.
  - destruct H as [H|[H|[rest H]]]; discriminate.
Defined.

(** In the sample shop the one line item is listed with a barcode, and the
    sample libraries never fail: a picture is produced. *)
Lemma barcode_panels_witness :
  is_Some (Label.create_combined_barcode_label_image Samples.box_externals (u "0001")
             [Samples.red_case] {[ u "123" := [u "4600000000000"] ]} Samples.page).
Proof.
  apply (barcode_panels Samples.box_externals [Samples.red_case]
           {[ u "123" := [u "4600000000000"] ]}).
  - intros payload. eexists. reflexivity.
  - intros img w h. eexists. reflexivity.
  - apply Exists_cons_hd. exists (u "4600000000000"), [].
    change (Bot.sku_of Samples.red_case) with (u "123"). apply lookup_singleton_eq.
Defined.
